(** * An in-memory POSIX-like filesystem with users and permissions

    Shallow embedding of [src/main.py]: path splitting, the node store,
    the permission check and the operations [mkdir], [write_file],
    [read_file], [list_dir] and [move] of class [FileSystem].

    Python objects are mutable and shared by reference; a [Directory]
    holds references to its children, and [move] re-links a node that
    may itself be the destination directory.  The model therefore keeps
    an explicit store from references to nodes, and directory entries
    hold references. *)

From Stdlib Require Import ZArith String Ascii List Strings.Byte Sorting.Sorted Permutation.
From stdpp Require Import base option gmap sets list strings sorting.

Local Open Scope Z_scope.

(** ** Strings and paths *)

Module Path.

(** [os.sep] on a POSIX host. *)
Definition sep : ascii := "/"%char.

(** [s.startswith(t)] *)
Fixpoint startswith (t s : string) : bool :=
  match t with
  | EmptyString => true
  | String a t' =>
      match s with
      | EmptyString => false
      | String b s' => if Ascii.eqb a b then startswith t' s' else false
      end
  end.

(** [s.split(os.sep)]: never empty, [''.split('/')] is [['']]. *)
Fixpoint split (s : string) : list string :=
  match s with
  | EmptyString => [EmptyString]
  | String c s' =>
      if Ascii.eqb c sep then EmptyString :: split s'
      else match split s' with
           | [] => [String c EmptyString]
           | h :: t => String c h :: t
           end
  end.

(** [os.sep.join(comps)] *)
Definition join (comps : list string) : string := String.concat "/" comps.

(** [p[1:]] *)
Definition tail (s : string) : string :=
  match s with
  | EmptyString => EmptyString
  | String _ s' => s'
  end.

(** [bool(s)] for a string: non-empty. *)
Definition nonempty (s : string) : bool :=
  match s with
  | EmptyString => false
  | String _ _ => true
  end.

(** [new_comps[-1] == '..'], false on the empty list as the source
    guards it with [new_comps and ...]. *)
Definition last_is_dotdot (new_comps : list string) : bool :=
  match last new_comps with
  | Some c => String.eqb c ".."
  | None => false
  end.

(** One iteration of the loop of [posixpath.normpath] over [comps]:
<<
    if comp in ('', '.'): continue
    if (comp != '..' or (not initial_slashes and not new_comps) or
            (new_comps and new_comps[-1] == '..')):
        new_comps.append(comp)
    elif new_comps:
        new_comps.pop()
>> *)
Definition norm_step (initial_slashes : nat) (new_comps : list string)
    (comp : string) : list string :=
  if String.eqb comp "" || String.eqb comp "." then new_comps
  else if negb (String.eqb comp "..")
          || (Nat.eqb initial_slashes 0 && negb (bool_decide (new_comps ≠ [])))
          || (bool_decide (new_comps ≠ []) && last_is_dotdot new_comps)
       then new_comps ++ [comp]
       else if bool_decide (new_comps ≠ []) then removelast new_comps
            else new_comps.

Definition norm_comps (initial_slashes : nat) (comps : list string) : list string :=
  fold_left (norm_step initial_slashes) comps [].

(** POSIX allows one or two initial slashes and treats three or more
    as a single one. *)
Definition initial_slashes (path : string) : nat :=
  if startswith "/" path then
    if startswith "//" path && negb (startswith "///" path) then 2%nat else 1%nat
  else 0%nat.

(** [sep * n] *)
Fixpoint seps (n : nat) : string :=
  match n with
  | O => EmptyString
  | S n' => String sep (seps n')
  end.

(** [os.path.normpath], which the module imports: the function
    [normpath] of [posixpath] in the Python standard library, for
    [str] arguments on a POSIX host. *)
Definition normpath (path : string) : string :=
  if String.eqb path "" then "."
  else
    let i := initial_slashes path in
    let comps := norm_comps i (split path) in
    let p := join comps in
    let p := if Nat.eqb i 0 then p else seps i +:+ p in
    if nonempty p then p else ".".

(** [_split_path] *)
Definition _split_path (path : string) : list string :=
  let p := normpath path in
  if String.eqb p "." then []
  else
    let p := if startswith "/" p then tail p else p in
    filter (λ part, nonempty part = true) (split p).

End Path.

Export Path.


(** ** Nodes, exceptions and the filesystem state *)

(** A reference to a Python object of class [Node]. *)
Abbreviation loc := positive.

(** [bytes] *)
Abbreviation bytes := (list byte).

(** The two subclasses of [Node]: [File] adds [content], [Directory]
    adds [entries], a dict from child name to child object. *)
Inductive Body :=
  | File (content : bytes)
  | Directory (entries : gmap string loc).

Record Node := mkNode {
  name : string;
  owner : string;
  mode : Z;   (* unix-style permission bits, a Python int *)
  body : Body
}.

Definition is_directory (n : Node) : bool :=
  match body n with
  | Directory _ => true
  | File _ => false
  end.

(** The exception classes of the module.  [Fault] is not a Python
    exception: it marks a reference that the store does not hold, or a
    non-directory where the interpreter would read [entries]; no state
    built by the operations below contains one. *)
Inductive Exn :=
  | FsError (msg : string)
  | FsPermissionError (msg : string)
  | FileNotFoundError (path : string)
  | Fault.

Inductive Outcome (A : Type) :=
  | Ok (a : A)
  | Raise (e : Exn).
Arguments Ok {A} a.
Arguments Raise {A} e.

(** The kinds of failure, by the exception each is raised as. *)
Definition UnknownUser (username : string) : Exn :=
  FsError ("unknown user: " +:+ username).
Definition NotFound (path : string) : Exn := FileNotFoundError path.
Definition NotADirectory_component : Exn := FsError "path component is a file".
Definition NotADirectory : Exn := FsError "not a directory".
Definition IsADirectory : Exn := FsError "path is a directory".
Definition PermissionDenied : Exn := FsPermissionError "permission denied".
Definition PermissionDenied_src : Exn :=
  FsPermissionError "permission denied on source parent".
Definition PermissionDenied_dest : Exn :=
  FsPermissionError "permission denied on destination parent".
Definition AlreadyExists (dest_path : string) : Exn :=
  FsError ("destination already exists: " +:+ dest_path).
Definition InvalidOperation_write : Exn := FsError "cannot write to root".
Definition InvalidOperation_move_src : Exn := FsError "cannot move root".
Definition InvalidOperation_move_dest : Exn := FsError "cannot move to root".

(** [FileSystem]: the user dict, the root reference and the store of
    all node objects. *)
Record FileSystem := mkFs {
  users : gmap string (gmap string string);
  root : loc;
  heap : gmap loc Node
}.

Definition with_heap (h : gmap loc Node) (fs : FileSystem) : FileSystem :=
  mkFs (users fs) (root fs) h.

(** A stateful operation: the result or the exception, and the state
    the call leaves behind in either case. *)
Definition M (A : Type) : Type := FileSystem → Outcome A * FileSystem.

(** In-place updates of one object. *)
Definition set_name (nm : string) (n : Node) : Node :=
  mkNode nm (owner n) (mode n) (body n).

Definition set_entries (f : gmap string loc → gmap string loc) (n : Node) : Node :=
  match body n with
  | Directory e => mkNode (name n) (owner n) (mode n) (Directory (f e))
  | File _ => n
  end.

Definition set_content (data : bytes) (n : Node) : Node :=
  match body n with
  | File _ => mkNode (name n) (owner n) (mode n) (File data)
  | Directory _ => n
  end.

(** The octal literals of the source. *)
Definition o777 : Z := 511.
Definition o755 : Z := 493.
Definition o644 : Z := 420.

(** [FileSystem.__init__] *)
Definition init : FileSystem :=
  mkFs ∅ 1%positive {[ 1%positive := mkNode "/" "root" o777 (Directory ∅) ]}.

(** [create_user] *)
Definition create_user (username : string) : M unit := λ fs,
  if bool_decide (username ∈ dom (users fs)) then (Ok tt, fs)
  else (Ok tt, mkFs (<[username := {[ "name" := username ]}]> (users fs))
                    (root fs) (heap fs)).

(** Reading [cur.entries] where the source holds a [Directory]. *)
Definition lookup_dir (fs : FileSystem) (l : loc)
    : Outcome (Node * gmap string loc) :=
  match heap fs !! l with
  | Some n =>
      match body n with
      | Directory e => Ok (n, e)
      | File _ => Raise Fault
      end
  | None => Raise Fault
  end.

(** The loop shared by [_get_node] and [_get_parent_dir]. *)
Fixpoint walk (fs : FileSystem) (path : string) (cur : loc)
    (parts : list string) : Outcome loc :=
  match parts with
  | [] => Ok cur
  | part :: rest =>
      match heap fs !! cur with
      | None => Raise Fault
      | Some n =>
          match body n with
          | File _ => Raise (FileNotFoundError path)
          | Directory entries =>
              match entries !! part with
              | None => Raise (FileNotFoundError path)
              | Some child => walk fs path child rest
              end
          end
      end
  end.

(** [_get_node] *)
Definition _get_node (fs : FileSystem) (path : string) : Outcome loc :=
  walk fs path (root fs) (_split_path path).

(** [_get_parent_dir] *)
Definition _get_parent_dir (fs : FileSystem) (path : string) : Outcome loc :=
  let parts := _split_path path in
  if bool_decide (parts = []) then Ok (root fs)
  else
    match walk fs path (root fs) (removelast parts) with
    | Raise e => Raise e
    | Ok cur =>
        match heap fs !! cur with
        | None => Raise Fault
        | Some n =>
            if is_directory n then Ok cur else Raise (FileNotFoundError path)
        end
    end.

(** ** Permissions *)

Inductive Perm := r | w | x.

Definition perms_map (perm : Perm) : Z :=
  match perm with
  | r => 4
  | w => 2
  | x => 1
  end.

(** [_check_perm] *)
Definition _check_perm (node : Node) (username : string) (perm : Perm) : bool :=
  let bit := perms_map perm in
  let shift := if String.eqb username (owner node) then 6 else 0 in
  negb (Z.eqb (Z.land (Z.shiftr (mode node) shift) bit) 0).

(** The guard every operation writes out before it raises
    [FsPermissionError]:
    [not self._check_perm(node, username, perm) and username != node.owner]. *)
Definition denied (node : Node) (username : string) (perm : Perm) : bool :=
  negb (_check_perm node username perm) && negb (String.eqb username (owner node)).

(** ** Operations *)

(** The argument [data] of [write_file]: [Union[str, bytes]].  A [str]
    is represented by its UTF-8 bytes, here as for paths and names, so
    that [data.encode()] is the conversion to [bytes]; a [str] that
    has no encoding (a lone surrogate) is not represented. *)
Inductive Data :=
  | Str (s : string)
  | Bytes (b : bytes).

(** [data.encode() if isinstance(data, str) else data] *)
Definition encode (data : Data) : bytes :=
  match data with
  | Str s => list_byte_of_string s
  | Bytes b => b
  end.

Definition registered (fs : FileSystem) (username : string) : bool :=
  bool_decide (username ∈ dom (users fs)).

(** Allocation of a new object: a reference the store does not hold. *)
Definition new_loc (fs : FileSystem) : loc := fresh (dom (heap fs)).

(** The loop of [mkdir] over [parts], from the directory [cur]. *)
Fixpoint mkdir_loop (parts : list string) (cur : loc) (username : string)
    (mode : Z) (fs : FileSystem) : Outcome unit * FileSystem :=
  match parts with
  | [] => (Ok tt, fs)
  | part :: rest =>
      match lookup_dir fs cur with
      | Raise e => (Raise e, fs)
      | Ok (cur_node, entries) =>
          match entries !! part with
          | None =>
              if denied cur_node username w then (Raise PermissionDenied, fs)
              else
                let newdir := new_loc fs in
                let h1 := <[newdir := mkNode part username mode (Directory ∅)]> (heap fs) in
                let h2 := alter (set_entries (insert part newdir)) cur h1 in
                mkdir_loop rest newdir username mode (with_heap h2 fs)
          | Some node =>
              match heap fs !! node with
              | None => (Raise Fault, fs)
              | Some n =>
                  if is_directory n then mkdir_loop rest node username mode fs
                  else (Raise NotADirectory_component, fs)
              end
          end
      end
  end.

(** [mkdir] *)
Definition mkdir (path username : string) (mode : Z) : M unit := λ fs,
  if negb (registered fs username) then (Raise (UnknownUser username), fs)
  else if String.eqb path "/" || String.eqb path "" then (Ok tt, fs)
  else mkdir_loop (_split_path path) (root fs) username mode fs.

(** [write_file] *)
Definition write_file (path username : string) (data : Data) (mode : Z)
    : M unit := λ fs,
  if negb (registered fs username) then (Raise (UnknownUser username), fs)
  else
    let parts := _split_path path in
    if bool_decide (parts = []) then (Raise InvalidOperation_write, fs)
    else
      match _get_parent_dir fs path with
      | Raise e => (Raise e, fs)
      | Ok parent =>
          match lookup_dir fs parent with
          | Raise e => (Raise e, fs)
          | Ok (parent_node, entries) =>
              if denied parent_node username w then (Raise PermissionDenied, fs)
              else
                let name := default "" (last parts) in
                let data_bytes := encode data in
                match entries !! name with
                | None =>
                    let f := new_loc fs in
                    let h1 := <[f := mkNode name username mode (File data_bytes)]> (heap fs) in
                    let h2 := alter (set_entries (insert name f)) parent h1 in
                    (Ok tt, with_heap h2 fs)
                | Some existing =>
                    match heap fs !! existing with
                    | None => (Raise Fault, fs)
                    | Some n =>
                        if is_directory n then (Raise IsADirectory, fs)
                        else if denied n username w then (Raise PermissionDenied, fs)
                        else (Ok tt, with_heap (alter (set_content data_bytes) existing (heap fs)) fs)
                    end
                end
          end
      end.

(** [read_file] *)
Definition read_file (path username : string) : M bytes := λ fs,
  match _get_node fs path with
  | Raise e => (Raise e, fs)
  | Ok node =>
      match heap fs !! node with
      | None => (Raise Fault, fs)
      | Some n =>
          match body n with
          | Directory _ => (Raise IsADirectory, fs)
          | File content =>
              if denied n username r then (Raise PermissionDenied, fs)
              else (Ok content, fs)
          end
      end
  end.

(** [sorted(d.keys())] for a dict with string keys. *)
Definition sorted_keys (entries : gmap string loc) : list string :=
  merge_sort String.le (map_to_list entries).*1.

(** [list_dir] *)
Definition list_dir (path username : string) : M (list string) := λ fs,
  match (if String.eqb path "" || String.eqb path "/" then Ok (root fs)
         else _get_node fs path) with
  | Raise e => (Raise e, fs)
  | Ok node =>
      match heap fs !! node with
      | None => (Raise Fault, fs)
      | Some n =>
          match body n with
          | File _ => (Raise NotADirectory, fs)
          | Directory entries =>
              if denied n username r then (Raise PermissionDenied, fs)
              else (Ok (sorted_keys entries), fs)
          end
      end
  end.

(** The three assignments that end [move]; each reads the object it
    updates from the store as the previous one left it:
<<
      del src_parent.entries[src_name]
      src_node.name = dest_name
      dest_parent.entries[dest_name] = src_node
>> *)
Definition relink (src_parent : loc) (src_name : string) (src_node : loc)
    (dest_parent : loc) (dest_name : string) (h : gmap loc Node)
    : gmap loc Node :=
  let h1 := alter (set_entries (delete src_name)) src_parent h in
  let h2 := alter (set_name dest_name) src_node h1 in
  alter (set_entries (insert dest_name src_node)) dest_parent h2.

(** [move] *)
Definition move (src_path dest_path username : string) : M unit := λ fs,
  if negb (registered fs username) then (Raise (UnknownUser username), fs)
  else
    let src_parts := _split_path src_path in
    if bool_decide (src_parts = []) then (Raise InvalidOperation_move_src, fs)
    else
      match _get_parent_dir fs src_path with
      | Raise e => (Raise e, fs)
      | Ok src_parent =>
          match lookup_dir fs src_parent with
          | Raise e => (Raise e, fs)
          | Ok (src_parent_node, src_entries) =>
              let src_name := default "" (last src_parts) in
              match src_entries !! src_name with
              | None => (Raise (NotFound src_path), fs)
              | Some src_node =>
                  if denied src_parent_node username w
                  then (Raise PermissionDenied_src, fs)
                  else
                    let dest_parts := _split_path dest_path in
                    if bool_decide (dest_parts = [])
                    then (Raise InvalidOperation_move_dest, fs)
                    else
                      match _get_parent_dir fs dest_path with
                      | Raise e => (Raise e, fs)
                      | Ok dest_parent =>
                          match lookup_dir fs dest_parent with
                          | Raise e => (Raise e, fs)
                          | Ok (dest_parent_node, dest_entries) =>
                              let dest_name := default "" (last dest_parts) in
                              if denied dest_parent_node username w
                              then (Raise PermissionDenied_dest, fs)
                              else
                                match dest_entries !! dest_name with
                                | Some _ => (Raise (AlreadyExists dest_path), fs)
                                | None =>
                                    (Ok tt,
                                     with_heap
                                       (relink src_parent src_name src_node
                                          dest_parent dest_name (heap fs)) fs)
                                end
                          end
                      end
              end
          end
      end.

(** Running operations one after the other; an exception does not
    undo what the call did before it was raised, and the caller goes
    on with the state as it is. *)
Definition exec {A} (op : M A) (fs : FileSystem) : FileSystem := (op fs).2.

(** ** The public interface as one type *)

(** A call of one of the public operations, with its arguments. *)
Inductive Call :=
  | Mkdir (path username : string) (mode : Z)
  | WriteFile (path username : string) (data : Data) (mode : Z)
  | ReadFile (path username : string)
  | ListDir (path username : string)
  | Move (src_path dest_path username : string).

(** What a call returns: [None], the bytes of a file, or a listing. *)
Inductive Value :=
  | VNone
  | VBytes (content : bytes)
  | VNames (names : list string).

Definition returning {A} (f : A → Value) (res : Outcome A * FileSystem)
    : Outcome Value * FileSystem :=
  match res.1 with
  | Ok a => (Ok (f a), res.2)
  | Raise e => (Raise e, res.2)
  end.

Definition call (c : Call) : M Value := λ fs,
  match c with
  | Mkdir path username mode =>
      returning (λ _, VNone) (mkdir path username mode fs)
  | WriteFile path username data mode =>
      returning (λ _, VNone) (write_file path username data mode fs)
  | ReadFile path username => returning VBytes (read_file path username fs)
  | ListDir path username => returning VNames (list_dir path username fs)
  | Move src_path dest_path username =>
      returning (λ _, VNone) (move src_path dest_path username fs)
  end.

(** The username a call is made for. *)
Definition caller (c : Call) : string :=
  match c with
  | Mkdir _ username _ | WriteFile _ username _ _ | ReadFile _ username
  | ListDir _ username | Move _ _ username => username
  end.

(** ** Vocabulary of the properties *)

(** Position of the bit that [perms_map] selects inside a triplet. *)
Definition bit_index (perm : Perm) : Z :=
  match perm with
  | r => 2
  | w => 1
  | x => 0
  end.

(** The triplet [_check_perm] reads: the owner's at shift 6 for the
    owner, the others' at shift 0 for everybody else. *)
Definition triplet_shift (node : Node) (username : string) : Z :=
  if String.eqb username (owner node) then 6 else 0.

(** A string without a separator: what one component of a path is. *)
Fixpoint sep_free (s : string) : bool :=
  match s with
  | EmptyString => true
  | String c s' => negb (Ascii.eqb c sep) && sep_free s'
  end.

(** A path that begins with the separator. *)
Definition absolute (path : string) : Prop := startswith "/" path = true.

(** What the components kept by [normpath] satisfy on an absolute
    path. *)
Definition clean (c : string) : Prop :=
  sep_free c = true ∧ nonempty c = true ∧ c ≠ "..".

(** The raw components a suffix contributes: none when it is empty,
    those after its leading separator otherwise. *)
Definition rest_comps (rest : string) : list string :=
  if nonempty rest then split (tail rest) else [].

(** One object after some calls, seen from before them: its name,
    owner and mode are the same, a file is still a file, and a
    directory still has every entry it had. *)
Definition node_ext (n n' : Node) : Prop :=
  name n' = name n ∧ owner n' = owner n ∧ mode n' = mode n ∧
  match body n with
  | File _ => is_directory n' = false
  | Directory e => ∃ e', body n' = Directory e' ∧ e ⊆ e'
  end.

(** A store that only grew: every object is still there, extended. *)
Definition heap_ext (h h' : gmap loc Node) : Prop :=
  ∀ l n, h !! l = Some n → ∃ n', h' !! l = Some n' ∧ node_ext n n'.

(** The state [write_file] leaves when it creates the file. *)
Definition created_file (fs : FileSystem) (parent : loc) (nm username : string)
    (mode : Z) (data : bytes) : FileSystem :=
  with_heap
    (alter (set_entries (insert nm (new_loc fs))) parent
       (<[new_loc fs := mkNode nm username mode (File data)]> (heap fs))) fs.

(** The state [write_file] leaves when it overwrites the file. *)
Definition overwritten_file (fs : FileSystem) (existing : loc) (data : bytes)
    : FileSystem :=
  with_heap (alter (set_content data) existing (heap fs)) fs.

(** The state one creating step of [mkdir] leaves: a new empty
    directory, entered in [cur] under [part]. *)
Definition created_dir (fs : FileSystem) (cur : loc) (part username : string)
    (m : Z) : FileSystem :=
  with_heap
    (alter (set_entries (insert part (new_loc fs))) cur
       (<[new_loc fs := mkNode part username m (Directory ∅)]> (heap fs))) fs.

(** A component that was there before the call: the same object,
    with the name, owner and mode it had. *)
Definition kept (fs : FileSystem) (l : loc) (n' : Node) : Prop :=
  ∃ n, heap fs !! l = Some n ∧ node_ext n n'.

(** A component the call created: an object that was not in the
    store, named after the component, owned by the requester, with the
    mode of the call, and holding nothing but the component that
    follows it on the path, if one does. *)
Definition made (fs : FileSystem) (username : string) (m : Z)
    (pre suf : list string) (l : loc) (n' : Node) : Prop :=
  heap fs !! l = None ∧ owner n' = username ∧ mode n' = m
  ∧ last pre = Some (name n')
  ∧ ∃ e', body n' = Directory e' ∧ ∀ k, is_Some (e' !! k) ↔ head suf = Some k.

(** What became of the component that the prefix [pre] of the walked
    path ends on, [suf] being the rest of the path: after the call the
    prefix leads to a directory, which was either kept or made. *)
Definition component_outcome (fs fs' : FileSystem) (p : string) (cur : loc)
    (username : string) (m : Z) (pre suf : list string) : Prop :=
  ∃ l n',
    walk fs' p cur pre = Ok l ∧ heap fs' !! l = Some n' ∧ is_directory n' = true
    ∧ ((walk fs p cur pre = Ok l ∧ kept fs l n')
       ∨ ((∃ e, walk fs p cur pre = Raise e) ∧ made fs username m pre suf l n')).

(** [parts] is a chain of entry names that leads from the root to
    the object [l]. *)
Definition reaches (fs : FileSystem) (parts : list string) (l : loc) : Prop :=
  walk fs "" (root fs) parts = Ok l.

(** The tree is acyclic and rooted: no chain but the empty one leads
    back to the root, and every other object of the store is reached
    from the root by exactly one chain. *)
Definition rooted_tree (fs : FileSystem) : Prop :=
  (∀ parts, reaches fs parts (root fs) → parts = [])
  ∧ ∀ l, is_Some (heap fs !! l) → l ≠ root fs →
         ∃ parts, reaches fs parts l ∧ ∀ parts', reaches fs parts' l → parts' = parts.

(** The entries of an object, none for a file. *)
Definition entries_of (n : Node) : gmap string loc :=
  match body n with
  | Directory e => e
  | File _ => ∅
  end.

(** Every entry of every directory refers to an object of the store. *)
Definition links_closed (h : gmap loc Node) : Prop :=
  ∀ l n k c, h !! l = Some n → entries_of n !! k = Some c → is_Some (h !! c).

(** A state without dangling references: the root is a directory of
    the store and the store is closed under entries. *)
Definition closed (fs : FileSystem) : Prop :=
  (∃ n, heap fs !! root fs = Some n ∧ is_directory n = true)
  ∧ links_closed (heap fs).

(** The state after a new object [nf], stored at [f], has been
    entered in the directory [parent] under the name [nm]: what
    [mkdir] and [write_file] do when they create. *)
Definition linked_new (fs : FileSystem) (parent f : loc) (nf : Node) (nm : string)
    : FileSystem :=
  with_heap (alter (set_entries (insert nm f)) parent (<[f := nf]> (heap fs))) fs.

(** Following a chain of entry names from [cur]: [walk] without the
    exceptions. *)
Fixpoint follow (h : gmap loc Node) (cur : loc) (parts : list string) : option loc :=
  match parts with
  | [] => Some cur
  | k :: rest =>
      match h !! cur with
      | None => None
      | Some n =>
          match entries_of n !! k with
          | None => None
          | Some c => follow h c rest
          end
      end
  end.

(** What the three assignments of [move] make of the object [l]. *)
Definition relink_node (src_parent : loc) (src_name : string) (src_node : loc)
    (dest_parent : loc) (dest_name : string) (l : loc) (n : Node) : Node :=
  let n1 := if decide (src_parent = l) then set_entries (delete src_name) n else n in
  let n2 := if decide (src_node = l) then set_name dest_name n1 else n1 in
  if decide (dest_parent = l) then set_entries (insert dest_name src_node) n2 else n2.

(** The destination directory of a [move] is not the moved object
    nor below it; nothing is asked of the other calls. *)
Definition moves_outside (fs : FileSystem) (c : Call) : Prop :=
  match c with
  | Move src_path dest_path _ =>
      ∀ src_parent spn src_node dest_parent q,
        _get_parent_dir fs src_path = Ok src_parent →
        heap fs !! src_parent = Some spn →
        entries_of spn !! default "" (last (_split_path src_path)) = Some src_node →
        _get_parent_dir fs dest_path = Ok dest_parent →
        follow (heap fs) src_node q ≠ Some dest_parent
  | _ => True
  end.

(** ** States used as examples *)

(** [b"Hello"] *)
Definition hello : bytes := [x48; x65; x6c; x6c; x6f]%byte.

(** [fs = FileSystem(); fs.create_user("alice")] *)
Definition fs_alice : FileSystem := exec (create_user "alice") init.

(** ... then [fs.mkdir("/a", "alice")] *)
Definition fs_alice_a : FileSystem := exec (mkdir "/a" "alice" o755) fs_alice.

(** ... or [fs.write_file("/f", "alice", b"Hello")] *)
Definition fs_alice_f : FileSystem := exec (write_file "/f" "alice" (Bytes hello) o644) fs_alice.

(** ... and then [fs.write_file("/g", "alice", b"Hello")] *)
Definition fs_alice_f_g : FileSystem :=
  exec (write_file "/g" "alice" (Bytes hello) o644) fs_alice_f.

(** [fs.mkdir("/docs", "alice", 0o777)] on [fs_alice] *)
Definition fs_docs : FileSystem := exec (mkdir "/docs" "alice" o777) fs_alice.

(** [fs.mkdir("/home", "alice")] on [fs_alice], then
    [fs.create_user("bob")] *)
Definition fs_home : FileSystem :=
  exec (create_user "bob") (exec (mkdir "/home" "alice" o755) fs_alice).

(** ** Vocabulary of the further properties *)

(** What every component of a split path is: a non-empty name
    without a separator, other than [.]. *)
Definition component (c : string) : Prop :=
  sep_free c = true ∧ nonempty c = true ∧ c ≠ ".".

(** The shape of a split path: some [..] first, none after. *)
Definition dotdots_first (comps : list string) : Prop :=
  ∃ n cs, comps = replicate n ".." ++ cs
          ∧ Forall (λ c, component c ∧ c ≠ "..") cs.

(** The same tree with other attributes: every node rewritten by
    [g]. *)
Definition restamp (g : Node → Node) (fs : FileSystem) : FileSystem :=
  with_heap (g <$> heap fs) fs.

(** The directory [l] holds the object [c] under the name [k]. *)
Definition entry (h : gmap loc Node) (l : loc) (k : string) (c : loc) : Prop :=
  ∃ n, h !! l = Some n ∧ entries_of n !! k = Some c.

(** The key of every entry is the name of the node it refers to. *)
Definition named_by_key (h : gmap loc Node) : Prop :=
  ∀ l k c nc, entry h l k c → h !! c = Some nc → name nc = k.

(** No node is entered twice, in two directories or under two names. *)
Definition single_link (h : gmap loc Node) : Prop :=
  ∀ l1 k1 l2 k2 c, entry h l1 k1 c → entry h l2 k2 c → l1 = l2 ∧ k1 = k2.

(** The root is entered nowhere, and it is the directory that
    [__init__] made: named [/], owned by [root], with mode [0o777]. *)
Definition root_apart (fs : FileSystem) : Prop :=
  (∀ l k, ¬ entry (heap fs) l k (root fs))
  ∧ ∃ e, heap fs !! root fs = Some (mkNode "/" "root" o777 (Directory e)).

Definition well_linked (fs : FileSystem) : Prop :=
  named_by_key (heap fs) ∧ single_link (heap fs) ∧ root_apart fs.

(** The states of a program that uses the class: a new [FileSystem],
    and the state any call of [create_user] or of an operation leaves,
    whether it returns or raises. *)
Inductive reachable : FileSystem → Prop :=
  | reachable_init : reachable init
  | reachable_create_user (username : string) (fs : FileSystem) :
      reachable fs → reachable (exec (create_user username) fs)
  | reachable_call (c : Call) (fs : FileSystem) :
      reachable fs → reachable (exec (call c) fs).

(** A call that left the state as it was. *)
Ltac same_state Hsame Hrun :=
  let Hn := fresh "Hn" in
  destruct (Hsame _ Hrun) as (? & ? & Hn); do 2 (split; [done|]);
  let l := fresh "l" in let n := fresh "n" in let Hl := fresh "Hl" in
  intros l n Hl;
  let n' := fresh "n'" in
  destruct (Hn l n Hl) as (n' & ? & ? & ? & ? & ? & ?); by exists n'.

(** ** Permission check *)

Lemma land_pow2_eqb (a k : Z) :
  0 ≤ k → (Z.land a (2 ^ k) =? 0) = negb (Z.testbit a k).
Proof.
  intros Hk.
  assert (Hland : Z.land a (2 ^ k) = if Z.testbit a k then 2 ^ k else 0).
  { apply Z.bits_inj'. intros n Hn.
    rewrite Z.land_spec, Z.pow2_bits_eqb by lia.
    destruct (Z.eqb_spec k n) as [->|Hne].
    - destruct (Z.testbit a n); simpl.
      + rewrite Z.pow2_bits_eqb by lia. now rewrite Z.eqb_refl.
      + now rewrite Z.bits_0.
    - rewrite andb_false_r. destruct (Z.testbit a k).
      + rewrite Z.pow2_bits_eqb by lia. symmetry. now apply Z.eqb_neq.
      + now rewrite Z.bits_0. }
  rewrite Hland. destruct (Z.testbit a k); simpl.
  - apply Z.eqb_neq. assert (0 < 2 ^ k) by (apply Z.pow_pos_nonneg; lia). lia.
  - reflexivity.
Qed.

Lemma perms_map_pow2 (perm : Perm) : perms_map perm = 2 ^ bit_index perm.
Proof. by destruct perm. Qed.

Lemma bit_index_nonneg (perm : Perm) : 0 ≤ bit_index perm.
Proof. destruct perm; simpl; lia. Qed.

Lemma check_perm_testbit (node : Node) (username : string) (perm : Perm) :
  _check_perm node username perm
  = Z.testbit (mode node) (triplet_shift node username + bit_index perm).
Proof.
  unfold _check_perm, triplet_shift.
  rewrite perms_map_pow2, land_pow2_eqb by apply bit_index_nonneg.
  rewrite negb_involutive, Z.shiftr_spec by apply bit_index_nonneg.
  f_equal. lia.
Qed.

Lemma denied_owner (node : Node) (perm : Perm) :
  denied node (owner node) perm = false.
Proof. unfold denied. rewrite String.eqb_refl. apply andb_false_r. Qed.

(** C6. Access is granted (the guard of every operation does not
    raise) exactly when the bit of value 4, 2 or 1 for read, write or
    execute is set in the triplet the check reads, the owner's at
    shift 6 when the username is the node's owner and the others' at
    shift 0 otherwise, or the username is the node's owner; the owner
    of a node therefore passes every check whatever the mode is. *)
Theorem owner_or_bit_grants (node : Node) (username : string) (perm : Perm) :
  (denied node username perm = false
     ↔ Z.land (Z.shiftr (mode node) (triplet_shift node username)) (perms_map perm) ≠ 0
       ∨ username = owner node)
  ∧ (Z.land (Z.shiftr (mode node) (triplet_shift node username)) (perms_map perm) ≠ 0
     ↔ Z.testbit (mode node) (triplet_shift node username + bit_index perm) = true)
  ∧ triplet_shift node username = (if decide (username = owner node) then 6 else 0)
  ∧ (perms_map r = 4 ∧ perms_map w = 2 ∧ perms_map x = 1)
  ∧ denied node (owner node) perm = false.
Proof.
  assert (Hbit : Z.land (Z.shiftr (mode node) (triplet_shift node username)) (perms_map perm) ≠ 0
                 ↔ _check_perm node username perm = true).
  { unfold _check_perm, triplet_shift. cbv zeta.
    rewrite negb_true_iff. symmetry. apply Z.eqb_neq. }
  split; [|split; [|split; [|split]]].
  - rewrite Hbit. unfold denied.
    destruct (String.eqb_spec username (owner node)) as [Heq|Hne];
      destruct (_check_perm node username perm); simpl; intuition congruence.
  - rewrite Hbit, check_perm_testbit. reflexivity.
  - unfold triplet_shift. case_decide as Hd.
    + by rewrite (proj2 (String.eqb_eq _ _) Hd).
    + by rewrite (proj2 (String.eqb_neq _ _) Hd).
  - done.
  - apply denied_owner.
Qed.

(** ** Path splitting *)

Section SplitJoin.

Lemma split_not_nil (s : string) : split s ≠ [].
Proof.
  induction s as [|c s IH]; simpl; [done|].
  destruct (Ascii.eqb c sep); [done|]. by destruct (split s).
Qed.

Lemma split_sep_free (s : string) :
  Forall (λ c, sep_free c = true) (split s).
Proof.
  induction s as [|c s IH]; simpl.
  - by repeat constructor.
  - destruct (Ascii.eqb c sep) eqn:Hc.
    + by constructor.
    + destruct (split s) as [|h t]; inversion IH; subst;
        constructor; simpl; rewrite ?Hc; auto.
Qed.

Lemma split_of_sep_free (c : string) : sep_free c = true → split c = [c].
Proof.
  induction c as [|a c IH]; simpl; [done|].
  intros [Ha Hc]%andb_true_iff. apply negb_true_iff in Ha.
  rewrite Ha, (IH Hc). done.
Qed.

Lemma split_app (s1 s2 : string) :
  split (s1 +:+ String sep s2) = split s1 ++ split s2.
Proof.
  induction s1 as [|c s1 IH]; simpl; [done|].
  destruct (Ascii.eqb c sep); rewrite IH; [done|].
  pose proof (split_not_nil s1). by destruct (split s1).
Qed.

Lemma split_join (comps : list string) :
  comps ≠ [] → Forall (λ c, sep_free c = true) comps →
  split (join comps) = comps.
Proof.
  induction comps as [|c [|c' comps] IH]; intros Hne Hall; [done| |].
  - simpl. apply split_of_sep_free. by inversion Hall.
  - inversion Hall as [|? ? Hc Hall']; subst.
    change (join (c :: c' :: comps)) with (c +:+ String sep (join (c' :: comps))).
    rewrite split_app, (split_of_sep_free c Hc), IH; done.
Qed.

Lemma filter_nonempty_id (comps : list string) :
  Forall (λ c, nonempty c = true) comps →
  filter (λ part, nonempty part = true) comps = comps.
Proof.
  induction 1 as [|c comps Hc _ IH]; [done|].
  rewrite filter_cons_True by done. by rewrite IH.
Qed.

(** Splitting what [join] built gives the components back, once the
    empty strings are filtered out. *)
Lemma filter_split_join (comps : list string) :
  Forall (λ c, sep_free c = true ∧ nonempty c = true) comps →
  filter (λ part, nonempty part = true) (split (join comps)) = comps.
Proof.
  intros Hall. destruct (decide (comps = [])) as [->|Hne]; [done|].
  rewrite split_join; [|done|by eapply Forall_impl; [done|]; intros ? []].
  apply filter_nonempty_id. by eapply Forall_impl; [done|]; intros ? [].
Qed.

End SplitJoin.

Section Normalisation.

Lemma norm_step_slashes (i : nat) (st : list string) (comp : string) :
  i ≠ 0%nat → norm_step i st comp = norm_step 1 st comp.
Proof. intros Hi. unfold norm_step. by destruct i. Qed.

Lemma norm_fold_slashes (i : nat) (comps st : list string) :
  i ≠ 0%nat →
  fold_left (norm_step i) comps st = fold_left (norm_step 1) comps st.
Proof.
  intros Hi. revert st. induction comps as [|c comps IH]; intros st; simpl; [done|].
  by rewrite IH, norm_step_slashes.
Qed.

Lemma last_is_dotdot_clean (st : list string) :
  Forall clean st → last_is_dotdot st = false.
Proof.
  intros Hall. unfold last_is_dotdot.
  destruct (last st) as [c|] eqn:Hlast; [|done].
  apply last_Some in Hlast as [st' ->].
  apply Forall_app in Hall as [_ Hc]. inversion Hc as [|? ? (_ & _ & Hne) _]; subst.
  by apply String.eqb_neq.
Qed.

Lemma Forall_removelast {A} (P : A → Prop) (l : list A) :
  Forall P l → Forall P (removelast l).
Proof.
  induction 1 as [|a l Ha Hl IH]; simpl; [done|].
  destruct l; [done|]. by constructor.
Qed.

Lemma norm_step_clean (st : list string) (comp : string) :
  Forall clean st → sep_free comp = true → Forall clean (norm_step 1 st comp).
Proof.
  intros Hst Hcomp. unfold norm_step.
  destruct (String.eqb_spec comp "") as [->|Hne]; [done|].
  destruct (String.eqb_spec comp ".") as [->|Hdot]; [done|]. simpl.
  destruct (String.eqb_spec comp "..") as [->|Hdd]; simpl.
  - rewrite (last_is_dotdot_clean st Hst), andb_false_r.
    case_bool_decide; [by apply Forall_removelast|done].
  - apply Forall_app. split; [done|]. constructor; [|done].
    repeat split; [done| |done]. by destruct comp.
Qed.

Lemma norm_fold_clean (comps st : list string) :
  Forall clean st → Forall (λ c, sep_free c = true) comps →
  Forall clean (fold_left (norm_step 1) comps st).
Proof.
  revert st. induction comps as [|c comps IH]; intros st Hst Hall; simpl; [done|].
  inversion Hall; subst. apply IH; [|done]. by apply norm_step_clean.
Qed.

(** A component and the [..] after it leave the stack as it was. *)
Lemma norm_step_cancel (st : list string) (c : string) :
  Forall clean st → c ≠ "" → c ≠ "." → c ≠ ".." →
  norm_step 1 (norm_step 1 st c) ".." = st.
Proof.
  intros Hst H1 H2 H3. unfold norm_step at 2.
  rewrite (proj2 (String.eqb_neq _ _) H1), (proj2 (String.eqb_neq _ _) H2),
    (proj2 (String.eqb_neq _ _) H3). simpl.
  unfold norm_step. simpl. unfold last_is_dotdot. rewrite last_snoc.
  rewrite (proj2 (String.eqb_neq _ _) H3), andb_false_r.
  rewrite bool_decide_eq_true_2 by (by destruct st).
  apply removelast_last.
Qed.

(** A [..] on the empty stack of an absolute path is dropped. *)
Lemma norm_step_dotdot_root : norm_step 1 [] ".." = [].
Proof. reflexivity. Qed.

Lemma absolute_inv (p : string) : absolute p → ∃ p', p = String sep p'.
Proof.
  unfold absolute. destruct p as [|b p]; [done|].
  cbn [startswith]. destruct (Ascii.eqb "/" b) eqn:Hb; [|done].
  apply Ascii.eqb_eq in Hb as <-. by exists p.
Qed.

Lemma initial_slashes_absolute (p : string) :
  absolute p → initial_slashes p = 1%nat ∨ initial_slashes p = 2%nat.
Proof.
  unfold absolute, initial_slashes. intros ->.
  destruct (_ && _); auto.
Qed.

(** On an absolute path (and on the empty one) [_split_path] is the
    loop of [normpath] over the raw components: joining, prefixing
    the slashes, stripping one and splitting again change nothing. *)
Lemma split_path_norm (p : string) :
  p = "" ∨ absolute p →
  _split_path p = fold_left (norm_step 1) (split p) [].
Proof.
  intros [->|Habs]; [done|].
  pose proof (initial_slashes_absolute p Habs) as Hi.
  destruct (absolute_inv p Habs) as [p' ->].
  set (comps := fold_left (norm_step 1) (split (String sep p')) []).
  assert (Hclean : Forall clean comps).
  { apply norm_fold_clean; [done|apply split_sep_free]. }
  assert (Hfilter : filter (λ part, nonempty part = true) (split (join comps)) = comps).
  { apply filter_split_join. eapply Forall_impl; [done|]. by intros ? (? & ? & ?). }
  unfold _split_path, normpath.
  change (String.eqb (String sep p') "") with false. cbv iota zeta.
  unfold norm_comps.
  rewrite norm_fold_slashes by (destruct Hi as [-> | ->]; done).
  fold comps. destruct Hi as [-> | ->]; simpl.
  - destruct (join comps); done.
  - by rewrite filter_cons_False.
Qed.

End Normalisation.

Section DotDot.

Lemma append_empty_r (s : string) : s +:+ "" = s.
Proof.
  induction s as [|c s IH]; [done|].
  change (String c (s +:+ "") = String c s). by f_equal.
Qed.

Lemma absolute_append (a s : string) : absolute a → absolute (a +:+ s).
Proof. intros [a' ->]%absolute_inv. reflexivity. Qed.

Lemma fold_split_append {S} (f : S → string → S) (s rest : string) (st : S) :
  rest = "" ∨ absolute rest →
  fold_left f (split (s +:+ rest)) st
  = fold_left f (rest_comps rest) (fold_left f (split s) st).
Proof.
  intros [->|[r' ->]%absolute_inv].
  - by rewrite append_empty_r.
  - by rewrite split_app, fold_left_app.
Qed.

Lemma split_path_cancel (a c rest : string) :
  a = "" ∨ absolute a → rest = "" ∨ absolute rest →
  sep_free c = true → c ≠ "" → c ≠ "." → c ≠ ".." →
  _split_path (a +:+ "/" +:+ c +:+ "/.." +:+ rest) = _split_path (a +:+ rest).
Proof.
  intros Ha Hrest Hc H1 H2 H3.
  rewrite !split_path_norm.
  - change (a +:+ "/" +:+ c +:+ "/.." +:+ rest)
      with (a +:+ String sep (c +:+ String sep (".." +:+ rest))).
    rewrite split_app, fold_left_app, split_app, fold_left_app.
    rewrite (split_of_sep_free c Hc). cbn [fold_left].
    rewrite !fold_split_append by done. f_equal.
    change (split "..") with [".."]. cbn [fold_left].
    apply norm_step_cancel; try done.
    apply norm_fold_clean; [done|apply split_sep_free].
  - destruct Ha as [->|Ha]; [|by right; apply absolute_append].
    destruct Hrest as [->|Hrest]; [by left|by right].
  - right. destruct Ha as [->|Ha]; [done|by apply absolute_append].
Qed.

Lemma split_path_dotdot_root (a rest : string) :
  a = "" ∨ absolute a → rest = "" ∨ absolute rest → _split_path a = [] →
  _split_path (a +:+ "/.." +:+ rest) = _split_path (a +:+ rest).
Proof.
  intros Ha Hrest Hroot. rewrite split_path_norm in Hroot by done.
  rewrite !split_path_norm.
  - change (a +:+ "/.." +:+ rest) with (a +:+ String sep (".." +:+ rest)).
    rewrite split_app, fold_left_app, !fold_split_append by done.
    by rewrite Hroot.
  - destruct Ha as [->|Ha]; [|by right; apply absolute_append].
    destruct Hrest as [->|Hrest]; [by left|by right].
  - right. destruct Ha as [->|Ha]; [done|by apply absolute_append].
Qed.

Lemma split_path_no_dotdot (path : string) :
  absolute path → ".." ∉ _split_path path.
Proof.
  intros Habs. rewrite split_path_norm by by right.
  assert (Hclean : Forall clean (fold_left (norm_step 1) (split path) []))
    by (apply norm_fold_clean; [done|apply split_sep_free]).
  intros Hin. rewrite Forall_forall in Hclean.
  by destruct (Hclean _ Hin) as (_ & _ & ?).
Qed.

End DotDot.

(** ** Walking the tree *)

Section Walk.

Context (fs : FileSystem).

(** The path string is only carried into the exception. *)
Lemma walk_path_irrelevant (p1 p2 : string) (cur l : loc) (parts : list string) :
  walk fs p1 cur parts = Ok l → walk fs p2 cur parts = Ok l.
Proof.
  revert cur. induction parts as [|part rest IH]; intros cur; simpl; [done|].
  destruct (heap fs !! cur) as [n|]; [|done].
  destruct (body n) as [|entries]; [done|].
  destruct (entries !! part); [apply IH|done].
Qed.

Lemma walk_app (p : string) (cur : loc) (ps1 ps2 : list string) :
  walk fs p cur (ps1 ++ ps2)
  = match walk fs p cur ps1 with
    | Ok c => walk fs p c ps2
    | Raise e => Raise e
    end.
Proof.
  revert cur. induction ps1 as [|part rest IH]; intros cur; simpl; [done|].
  destruct (heap fs !! cur) as [n|]; [|done].
  destruct (body n) as [|entries]; [done|].
  destruct (entries !! part); [apply IH|done].
Qed.

Lemma get_node_same_parts (p1 p2 : string) (l : loc) :
  _split_path p1 = _split_path p2 →
  _get_node fs p1 = Ok l ↔ _get_node fs p2 = Ok l.
Proof.
  unfold _get_node. intros ->. split; apply walk_path_irrelevant.
Qed.

End Walk.

(** C10. [..] is resolved on the path string, before the tree is
    looked at: an absolute path never yields a [..] component; a
    component followed by [..] cancels, whatever the tree holds, so
    that [/a/b/../c] names the node [/a/c]; and a [..] met at the root
    is dropped. *)
Theorem dotdot_resolved_on_the_string :
  (∀ path, absolute path → ".." ∉ _split_path path)
  ∧ (∀ a c rest,
       a = "" ∨ absolute a → rest = "" ∨ absolute rest →
       sep_free c = true → c ≠ "" → c ≠ "." → c ≠ ".." →
       _split_path (a +:+ "/" +:+ c +:+ "/.." +:+ rest) = _split_path (a +:+ rest))
  ∧ (∀ a rest,
       a = "" ∨ absolute a → rest = "" ∨ absolute rest → _split_path a = [] →
       _split_path (a +:+ "/.." +:+ rest) = _split_path (a +:+ rest))
  ∧ _split_path "/a/b/../c" = ["a"; "c"]
  ∧ _split_path "/../../a" = ["a"]
  ∧ (∀ fs l, _get_node fs "/a/b/../c" = Ok l ↔ _get_node fs "/a/c" = Ok l).
Proof.
  split; [exact split_path_no_dotdot|].
  split; [exact split_path_cancel|].
  split; [exact split_path_dotdot_root|].
  split; [reflexivity|]. split; [reflexivity|].
  intros fs l. by apply get_node_same_parts.
Qed.

(** ** Stores that only grow *)

Section Extension.

Lemma node_ext_refl (n : Node) : node_ext n n.
Proof.
  repeat split. unfold is_directory. destruct (body n) as [|e]; [done|].
  by exists e.
Qed.

Lemma node_ext_trans (n1 n2 n3 : Node) :
  node_ext n1 n2 → node_ext n2 n3 → node_ext n1 n3.
Proof.
  intros (Hn & Ho & Hm & Hb) (Hn' & Ho' & Hm' & Hb').
  repeat split; [congruence..|].
  destruct (body n1) as [c|e].
  - unfold is_directory in Hb. destruct (body n2); [done|discriminate].
  - destruct Hb as (e2 & Hb2 & Hsub). rewrite Hb2 in Hb'.
    destruct Hb' as (e3 & Hb3 & Hsub'). exists e3. split; [done|].
    by etrans.
Qed.

Lemma heap_ext_refl (h : gmap loc Node) : heap_ext h h.
Proof. intros l n Hl. exists n. split; [done|apply node_ext_refl]. Qed.

Lemma heap_ext_trans (h1 h2 h3 : gmap loc Node) :
  heap_ext h1 h2 → heap_ext h2 h3 → heap_ext h1 h3.
Proof.
  intros H12 H23 l n Hl.
  destruct (H12 l n Hl) as (n2 & Hl2 & Hext2).
  destruct (H23 l n2 Hl2) as (n3 & Hl3 & Hext3).
  exists n3. split; [done|by eapply node_ext_trans].
Qed.

Lemma heap_ext_alloc (h : gmap loc Node) (l : loc) (n : Node) :
  l ∉ dom h → heap_ext h (<[l := n]> h).
Proof.
  intros Hfresh l' n' Hl'. exists n'. split; [|apply node_ext_refl].
  rewrite lookup_insert_ne; [done|].
  intros ->. apply Hfresh, elem_of_dom. by exists n'.
Qed.

Lemma heap_ext_alter (h : gmap loc Node) (l : loc) (f : Node → Node) :
  (∀ n, h !! l = Some n → node_ext n (f n)) → heap_ext h (alter f l h).
Proof.
  intros Hf l' n' Hl'. destruct (decide (l = l')) as [->|Hne].
  - exists (f n'). split; [|by apply Hf].
    by rewrite lookup_alter_eq, Hl'.
  - exists n'. split; [|apply node_ext_refl].
    by rewrite lookup_alter_ne.
Qed.

Lemma node_ext_insert_entry (n : Node) (e : gmap string loc) (k : string) (c : loc) :
  body n = Directory e → e !! k = None →
  node_ext n (set_entries (insert k c) n).
Proof.
  intros Hb Hk. unfold node_ext, set_entries. rewrite Hb. simpl.
  repeat split. exists (<[k := c]> e). split; [done|].
  by apply insert_subseteq.
Qed.

Lemma node_ext_set_content (n : Node) (data : bytes) :
  is_directory n = false → node_ext n (set_content data n).
Proof.
  unfold node_ext, set_content, is_directory.
  destruct (body n) eqn:Hb; [|done]. intros _. by simpl.
Qed.

(** A walk that succeeded succeeds with the same result in a store
    that only grew. *)
Lemma walk_ext (fs fs' : FileSystem) (p : string) (cur l : loc)
    (parts : list string) :
  heap_ext (heap fs) (heap fs') →
  walk fs p cur parts = Ok l → walk fs' p cur parts = Ok l.
Proof.
  intros Hext. revert cur.
  induction parts as [|part rest IH]; intros cur; simpl; [done|].
  destruct (heap fs !! cur) as [n|] eqn:Hcur; [|done].
  destruct (Hext _ _ Hcur) as (n' & -> & _ & _ & _ & Hb).
  destruct (body n) as [|e]; [done|].
  destruct Hb as (e' & -> & Hsub).
  destruct (e !! part) as [child|] eqn:Hpart; [|done].
  rewrite (lookup_weaken _ _ _ _ Hpart Hsub). apply IH.
Qed.

End Extension.

(** ** Parent resolution *)

Section Parent.

Lemma parts_snoc (parts : list string) :
  parts ≠ [] → parts = removelast parts ++ [default "" (last parts)].
Proof.
  destruct (decide (parts = [])) as [->|Hne]; [done|]. intros _.
  destruct (last parts) as [x|] eqn:Hlast.
  - apply last_Some in Hlast as [l' ->]. by rewrite removelast_last.
  - by apply last_None in Hlast.
Qed.

Lemma lookup_dir_Ok (fs : FileSystem) (l : loc) (n : Node) (e : gmap string loc) :
  lookup_dir fs l = Ok (n, e) ↔ heap fs !! l = Some n ∧ body n = Directory e.
Proof.
  unfold lookup_dir. split.
  - destruct (heap fs !! l) as [n'|]; [|done].
    destruct (body n') eqn:Hb; [done|]. intros [= -> ->]. done.
  - intros [-> ->]. done.
Qed.

Lemma is_directory_body (n : Node) :
  is_directory n = true ↔ ∃ e, body n = Directory e.
Proof.
  unfold is_directory. destruct (body n) as [c|e]; split; try done.
  - by intros [? ?].
  - by exists e.
Qed.

Lemma get_parent_dir_Ok (fs : FileSystem) (path : string) (parent : loc) :
  _split_path path ≠ [] →
  _get_parent_dir fs path = Ok parent ↔
    walk fs path (root fs) (removelast (_split_path path)) = Ok parent
    ∧ ∃ n, heap fs !! parent = Some n ∧ is_directory n = true.
Proof.
  intros Hne. unfold _get_parent_dir.
  rewrite bool_decide_eq_false_2 by done.
  destruct (walk fs path (root fs) (removelast (_split_path path))) as [cur|e].
  - destruct (heap fs !! cur) as [n|] eqn:Hcur.
    + destruct (is_directory n) eqn:Hd.
      * split; [intros [= <-]; eauto|by intros [[= ->] _]].
      * split; [done|]. intros [[= <-] (n' & Hn' & Hd')]. congruence.
    + split; [done|]. intros [[= <-] (n' & Hn' & _)]. congruence.
  - split; [done|by intros [? _]].
Qed.

(** Resolving the whole path goes through the parent and then
    through the last component. *)
Lemma get_node_via_parent (fs : FileSystem) (path : string) (parent : loc) :
  _split_path path ≠ [] →
  walk fs path (root fs) (removelast (_split_path path)) = Ok parent →
  _get_node fs path = walk fs path parent [default "" (last (_split_path path))].
Proof.
  intros Hne Hwalk. unfold _get_node.
  rewrite (parts_snoc _ Hne) at 1. by rewrite walk_app, Hwalk.
Qed.

End Parent.

(** ** Writing and reading files *)

Section WriteRead.


Lemma new_loc_fresh (fs : FileSystem) : new_loc fs ∉ dom (heap fs).
Proof. unfold new_loc. apply is_fresh. Qed.

Lemma new_loc_lookup (fs : FileSystem) : heap fs !! new_loc fs = None.
Proof. apply not_elem_of_dom, new_loc_fresh. Qed.

Lemma new_loc_ne (fs : FileSystem) (l : loc) (n : Node) :
  heap fs !! l = Some n → new_loc fs ≠ l.
Proof. intros Hl Heq. rewrite <- Heq, new_loc_lookup in Hl. done. Qed.

Lemma ne_new_loc (fs : FileSystem) (l : loc) (n : Node) :
  heap fs !! l = Some n → l ≠ new_loc fs.
Proof. intros Hl Heq. by eapply new_loc_ne. Qed.



(** What a successful [write_file] went through. *)
Lemma write_file_Ok_inv (fs fs1 : FileSystem) (path username : string)
    (data : Data) (mode : Z) :
  write_file path username data mode fs = (Ok tt, fs1) →
  registered fs username = true ∧ _split_path path ≠ [] ∧
  ∃ parent pn entries,
    _get_parent_dir fs path = Ok parent ∧
    heap fs !! parent = Some pn ∧ body pn = Directory entries ∧
    denied pn username w = false ∧
    let nm := default "" (last (_split_path path)) in
    (entries !! nm = None ∧ fs1 = created_file fs parent nm username mode (encode data))
    ∨ (∃ existing n,
         entries !! nm = Some existing ∧ heap fs !! existing = Some n ∧
         is_directory n = false ∧ denied n username w = false ∧
         fs1 = overwritten_file fs existing (encode data)).
Proof.
  unfold write_file.
  destruct (registered fs username) eqn:Hreg; [|done]. cbn [negb].
  case_bool_decide as Hne; [done|].
  destruct (_get_parent_dir fs path) as [parent|] eqn:Hpar; [|done].
  destruct (lookup_dir fs parent) as [[pn entries]|] eqn:Hdir; [|done].
  apply lookup_dir_Ok in Hdir as [Hpn Hbody].
  destruct (denied pn username w) eqn:Hperm; [done|].
  intros Hrun. split; [done|]. split; [done|].
  exists parent, pn, entries. do 4 (split; [done|]). cbv zeta.
  destruct (entries !! default "" (last (_split_path path))) as [existing|] eqn:Hnm.
  - right. destruct (heap fs !! existing) as [n|] eqn:Hn; [|done].
    destruct (is_directory n) eqn:Hd; [done|].
    destruct (denied n username w) eqn:Hperm'; [done|].
    exists existing, n. by simplify_eq.
  - left. by simplify_eq.
Qed.

End WriteRead.

Section RoundTrip.

Lemma set_content_body (n : Node) (data : bytes) :
  is_directory n = false → body (set_content data n) = File data.
Proof.
  unfold is_directory, set_content.
  destruct (body n) eqn:Hb; simpl; by rewrite ?Hb.
Qed.

Lemma created_file_ext (fs : FileSystem) (parent : loc) (pn : Node)
    (entries : gmap string loc) (nm username : string) (mode : Z) (data : bytes) :
  heap fs !! parent = Some pn → body pn = Directory entries →
  entries !! nm = None →
  heap_ext (heap fs) (heap (created_file fs parent nm username mode data)).
Proof.
  intros Hpn Hbody Hnm. unfold created_file. simpl.
  eapply heap_ext_trans; [apply heap_ext_alloc, new_loc_fresh|].
  apply heap_ext_alter. intros n Hn.
  rewrite lookup_insert_ne in Hn by by eapply new_loc_ne.
  simplify_eq. by eapply node_ext_insert_entry.
Qed.

Lemma overwritten_file_ext (fs : FileSystem) (existing : loc) (n : Node)
    (data : bytes) :
  heap fs !! existing = Some n → is_directory n = false →
  heap_ext (heap fs) (heap (overwritten_file fs existing data)).
Proof.
  intros Hn Hfile. unfold overwritten_file. simpl.
  apply heap_ext_alter. intros n' Hn'. simplify_eq.
  by apply node_ext_set_content.
Qed.

(** After a successful [write_file] the path resolves to a file
    that holds exactly the bytes written. *)
Lemma write_file_target (fs fs1 : FileSystem) (path username : string)
    (data : Data) (mode : Z) :
  write_file path username data mode fs = (Ok tt, fs1) →
  ∃ f nf, _get_node fs1 path = Ok f ∧ heap fs1 !! f = Some nf
          ∧ body nf = File (encode data).
Proof.
  intros (Hreg & Hne & parent & pn & entries & Hpar & Hpn & Hbody & Hperm & Hcase)
    %write_file_Ok_inv.
  apply get_parent_dir_Ok in Hpar as [Hwalk _]; [|done].
  cbv zeta in Hcase. set (nm := default "" (last (_split_path path))) in *.
  destruct Hcase as [[Hnm ->]|(existing & n & Hnm & Hn & Hfile & Hperm' & ->)].
  - pose proof (created_file_ext fs parent pn entries nm username mode (encode data)
                  Hpn Hbody Hnm) as Hext.
    pose proof (new_loc_ne fs parent pn Hpn) as Hfresh.
    exists (new_loc fs), (mkNode nm username mode (File (encode data))).
    split; [|split; [|done]].
    + rewrite (get_node_via_parent _ _ parent Hne); [|by eapply walk_ext].
      fold nm. simpl. rewrite lookup_alter_eq, lookup_insert_ne, Hpn by done.
      simpl. unfold set_entries. rewrite Hbody. simpl.
      by rewrite lookup_insert_eq.
    + simpl. by rewrite lookup_alter_ne, lookup_insert_eq.
  - pose proof (overwritten_file_ext fs existing n (encode data) Hn Hfile) as Hext.
    assert (existing ≠ parent) as Hdiff.
    { intros ->. simplify_eq. unfold is_directory in Hfile.
      by rewrite Hbody in Hfile. }
    exists existing, (set_content (encode data) n). split; [|split].
    + rewrite (get_node_via_parent _ _ parent Hne); [|by eapply walk_ext].
      fold nm. simpl. rewrite lookup_alter_ne, Hpn, Hbody by done.
      by rewrite Hnm.
    + simpl. by rewrite lookup_alter_eq, Hn.
    + by apply set_content_body.
Qed.

(** [read_file] on a path that resolves to a file. *)
Lemma read_file_of_file (fs : FileSystem) (path username : string)
    (f : loc) (nf : Node) (content : bytes) :
  _get_node fs path = Ok f → heap fs !! f = Some nf → body nf = File content →
  read_file path username fs
  = if denied nf username r then (Raise PermissionDenied, fs)
    else (Ok content, fs).
Proof. intros Hnode Hf Hbody. unfold read_file. by rewrite Hnode, Hf, Hbody. Qed.

End RoundTrip.

(** C3, as amended. When [write_file(p, u, data)] succeeds (which
    needs a registered user, a path other than the root and an
    existing parent directory) and [read_file(p, u)] on the state it
    leaves succeeds, what is read is a [bytes] object: [data] itself
    when [data] was given as bytes; when [data] was given as a [str],
    its UTF-8 encoding, which is not [data] but decodes to it.
    Reading changes nothing. *)
Theorem write_then_read_roundtrip (fs fs1 fs2 : FileSystem)
    (path username : string) (data : Data) (d : bytes) (mode : Z) :
  write_file path username data mode fs = (Ok tt, fs1) →
  read_file path username fs1 = (Ok d, fs2) →
  (∀ b, data = Bytes b → d = b)
  ∧ (∀ s, data = Str s → d = list_byte_of_string s ∧ string_of_list_byte d = s)
  ∧ (Bytes d = data ↔ ∃ b, data = Bytes b)
  ∧ fs2 = fs1
  ∧ registered fs username = true ∧ _split_path path ≠ [].
Proof.
  intros Hwrite Hread.
  destruct (write_file_target _ _ _ _ _ _ Hwrite) as (f & nf & Hnode & Hf & Hbody).
  rewrite (read_file_of_file _ _ _ f nf (encode data)) in Hread by done.
  destruct (write_file_Ok_inv _ _ _ _ _ _ Hwrite) as (Hreg & Hne & _).
  destruct (denied nf username r); simplify_eq.
  split; [by intros b ->|]. split; [|split; [|done]].
  - intros s ->. cbn [encode]. split; [done|apply string_of_list_byte_of_string].
  - destruct data as [s|b]; cbn [encode]; split.
    + done.
    + by intros [b ?].
    + by exists b.
    + done.
Qed.

(** ** Failures commit nothing *)

Section Atomicity.

(** From a directory the requester has just created, the loop of
    [mkdir] cannot fail: nothing is there to collide with, and the
    requester owns it. *)
Lemma mkdir_loop_from_new (parts : list string) (cur : loc) (n : Node)
    (username : string) (mode : Z) (fs : FileSystem) :
  heap fs !! cur = Some n → owner n = username → body n = Directory ∅ →
  ∃ fs', mkdir_loop parts cur username mode fs = (Ok tt, fs').
Proof.
  revert cur n fs. induction parts as [|part rest IH]; intros cur n fs Hcur Ho Hb.
  - by eexists.
  - simpl. rewrite (proj2 (lookup_dir_Ok fs cur n ∅)) by done.
    assert (denied n username w = false) as ->
      by (rewrite <- Ho; apply denied_owner).
    rewrite lookup_empty.
    apply IH with (n := mkNode part username mode (Directory ∅)); [|done..].
    simpl. rewrite lookup_alter_ne by by eapply ne_new_loc.
    by rewrite lookup_insert_eq.
Qed.

Lemma mkdir_loop_raise (parts : list string) (cur : loc)
    (username : string) (mode : Z) (fs fs' : FileSystem) (e : Exn) :
  mkdir_loop parts cur username mode fs = (Raise e, fs') → fs' = fs.
Proof.
  revert cur fs. induction parts as [|part rest IH]; intros cur fs; simpl; [done|].
  destruct (lookup_dir fs cur) as [[n entries]|] eqn:Hdir; [|by intros [= _ <-]].
  apply lookup_dir_Ok in Hdir as [Hcur Hbody].
  destruct (entries !! part) as [node|].
  - destruct (heap fs !! node) as [n'|]; [|by intros [= _ <-]].
    destruct (is_directory n'); [apply IH|by intros [= _ <-]].
  - destruct (denied n username w); [by intros [= _ <-]|].
    intros Hrun.
    edestruct (mkdir_loop_from_new rest (new_loc fs)) as [fs'' Hok];
      [| | |rewrite Hok in Hrun; done]; simpl.
    + rewrite lookup_alter_ne by by eapply ne_new_loc.
      by rewrite lookup_insert_eq.
    + done.
    + done.
Qed.

Lemma mkdir_raise (path username : string) (mode : Z) (fs fs' : FileSystem) (e : Exn) :
  mkdir path username mode fs = (Raise e, fs') → fs' = fs.
Proof.
  unfold mkdir. destruct (negb _); [by intros [= _ <-]|].
  destruct (_ || _); [done|]. apply mkdir_loop_raise.
Qed.

Lemma write_file_raise (path username : string) (data : Data) (mode : Z)
    (fs fs' : FileSystem) (e : Exn) :
  write_file path username data mode fs = (Raise e, fs') → fs' = fs.
Proof. unfold write_file. intros Hrun. repeat case_match; by simplify_eq. Qed.

Lemma read_file_state (path username : string) (fs fs' : FileSystem)
    (res : Outcome bytes) :
  read_file path username fs = (res, fs') → fs' = fs.
Proof. unfold read_file. intros Hrun. repeat case_match; by simplify_eq. Qed.

Lemma list_dir_state (path username : string) (fs fs' : FileSystem)
    (res : Outcome (list string)) :
  list_dir path username fs = (res, fs') → fs' = fs.
Proof. unfold list_dir. intros Hrun. repeat case_match; by simplify_eq. Qed.

Lemma move_raise (src_path dest_path username : string)
    (fs fs' : FileSystem) (e : Exn) :
  move src_path dest_path username fs = (Raise e, fs') → fs' = fs.
Proof. unfold move. intros Hrun. repeat case_match; by simplify_eq. Qed.

End Atomicity.

(** C4. A call of any public operation that raises, whatever the
    exception, leaves the state exactly as it found it: the users, the
    root and every object of the store (names, owners, modes, entries
    and contents). *)
Theorem failed_call_commits_nothing (c : Call) (fs fs' : FileSystem) (e : Exn) :
  call c fs = (Raise e, fs') → fs' = fs.
Proof.
  destruct c as [path u m|path u data m|path u|path u|src dest u];
    unfold call, returning.
  - destruct (mkdir path u m fs) as [[[]|e'] fs''] eqn:Hrun; simpl; [done|].
    intros [= <- <-]. by eapply mkdir_raise.
  - destruct (write_file path u data m fs) as [[[]|e'] fs''] eqn:Hrun; simpl; [done|].
    intros [= <- <-]. by eapply write_file_raise.
  - destruct (read_file path u fs) as [[content|e'] fs''] eqn:Hrun; simpl; [done|].
    intros [= <- <-]. by eapply read_file_state.
  - destruct (list_dir path u fs) as [[names|e'] fs''] eqn:Hrun; simpl; [done|].
    intros [= <- <-]. by eapply list_dir_state.
  - destruct (move src dest u fs) as [[[]|e'] fs''] eqn:Hrun; simpl; [done|].
    intros [= <- <-]. by eapply move_raise.
Qed.

(** ** Moving *)

(** C5, as amended. For a registered user, when the source path names
    an entry of its parent directory, the destination has a parent
    directory, the user may write both parents and the destination's
    final name is taken in its parent, [move] raises "destination
    already exists" and changes nothing: the source is still listed in
    its parent and still found at its path. *)
Theorem move_never_overwrites (fs : FileSystem) (src_path dest_path username : string)
    (src_parent dest_parent src_node taken : loc) (spn dpn : Node)
    (src_entries dest_entries : gmap string loc) :
  registered fs username = true →
  _split_path src_path ≠ [] →
  _get_parent_dir fs src_path = Ok src_parent →
  heap fs !! src_parent = Some spn → body spn = Directory src_entries →
  src_entries !! default "" (last (_split_path src_path)) = Some src_node →
  denied spn username w = false →
  _split_path dest_path ≠ [] →
  _get_parent_dir fs dest_path = Ok dest_parent →
  heap fs !! dest_parent = Some dpn → body dpn = Directory dest_entries →
  denied dpn username w = false →
  dest_entries !! default "" (last (_split_path dest_path)) = Some taken →
  move src_path dest_path username fs = (Raise (AlreadyExists dest_path), fs)
  ∧ _get_node fs src_path = Ok src_node.
Proof.
  intros Hreg Hsrc Hsp Hspn Hsb Hsn Hsw Hdest Hdp Hdpn Hdb Hdw Htaken. split.
  - unfold move.
    rewrite Hreg, bool_decide_eq_false_2, Hsp by done. cbn [negb].
    rewrite (proj2 (lookup_dir_Ok fs src_parent spn src_entries)) by done.
    rewrite Hsn, Hsw, bool_decide_eq_false_2, Hdp by done.
    rewrite (proj2 (lookup_dir_Ok fs dest_parent dpn dest_entries)) by done.
    by rewrite Hdw, Htaken.
  - apply get_parent_dir_Ok in Hsp as [Hwalk _]; [|done].
    rewrite (get_node_via_parent _ _ _ Hsrc Hwalk). simpl.
    by rewrite Hspn, Hsb, Hsn.
Qed.

(** ** Creating and overwriting files *)


(** ** Listing *)

Section Listing.

(** The shortcut of [list_dir] for the root is what [_get_node]
    returns on those paths anyway. *)
Lemma list_dir_shortcut (fs : FileSystem) (path : string) :
  (if String.eqb path "" || String.eqb path "/" then Ok (root fs)
   else _get_node fs path) = _get_node fs path.
Proof.
  destruct (String.eqb_spec path "") as [->|_]; [done|].
  destruct (String.eqb_spec path "/") as [->|_]; done.
Qed.

Lemma elem_of_keys (entries : gmap string loc) (k : string) :
  k ∈ (map_to_list entries).*1 ↔ is_Some (entries !! k).
Proof.
  rewrite list_elem_of_fmap. split.
  - intros ([k' v] & -> & Hin). apply elem_of_map_to_list in Hin. by exists v.
  - intros [v Hv]. exists (k, v). split; [done|]. by apply elem_of_map_to_list.
Qed.

Lemma sorted_keys_spec (entries : gmap string loc) :
  StronglySorted String.le (sorted_keys entries)
  ∧ NoDup (sorted_keys entries)
  ∧ ∀ k, k ∈ sorted_keys entries ↔ is_Some (entries !! k).
Proof.
  unfold sorted_keys. split; [|split].
  - apply StronglySorted_merge_sort; apply _.
  - rewrite merge_sort_Permutation. apply NoDup_fst_map_to_list.
  - intros k. rewrite merge_sort_Permutation. apply elem_of_keys.
Qed.

(** Any listing of the same names in order is that very list. *)
Lemma sorted_keys_unique (entries : gmap string loc) (l : list string) :
  Sorted String.le l → NoDup l →
  (∀ k, k ∈ l ↔ is_Some (entries !! k)) →
  l = sorted_keys entries.
Proof.
  intros Hsorted Hnodup Hin.
  destruct (sorted_keys_spec entries) as (Hs & Hn & Hk).
  apply (Sorted_unique String.le); [done|by apply StronglySorted_Sorted|].
  apply NoDup_Permutation; [done..|]. intros k. by rewrite Hin, Hk.
Qed.

End Listing.

(** C9. For a path that resolves to a directory the requester passes
    the read check on, [list_dir] returns the names of the directory's
    entries, each once, in lexicographic order (the only list there is
    of those names in that order), and leaves the state as it was. *)
Theorem list_dir_sorted_child_names (fs : FileSystem) (path username : string)
    (d : loc) (n : Node) (entries : gmap string loc) :
  _get_node fs path = Ok d →
  heap fs !! d = Some n → body n = Directory entries →
  denied n username r = false →
  ∃ names,
    list_dir path username fs = (Ok names, fs)
    ∧ StronglySorted String.le names
    ∧ NoDup names
    ∧ (∀ k, k ∈ names ↔ is_Some (entries !! k))
    ∧ (∀ l, Sorted String.le l → NoDup l →
            (∀ k, k ∈ l ↔ is_Some (entries !! k)) → l = names).
Proof.
  intros Hnode Hd Hbody Hperm. exists (sorted_keys entries).
  split; [|split; [|split; [|split]]]; try apply sorted_keys_spec.
  - unfold list_dir. by rewrite list_dir_shortcut, Hnode, Hd, Hbody, Hperm.
  - apply sorted_keys_unique.
Qed.

(** ** Creating directories *)

Section MkdirExisting.

(** A walk that ends on a directory starts on one. *)
Lemma walk_starts_on_directory (fs : FileSystem) (p : string) (cur l : loc)
    (parts : list string) :
  walk fs p cur parts = Ok l →
  (∃ n, heap fs !! l = Some n ∧ is_directory n = true) →
  ∃ n, heap fs !! cur = Some n ∧ is_directory n = true.
Proof.
  destruct parts as [|part rest]; simpl.
  - by intros [= ->].
  - destruct (heap fs !! cur) as [n|]; [|done].
    unfold is_directory. destruct (body n) eqn:Hb; [done|].
    intros _ _. exists n. by rewrite Hb.
Qed.

(** Along a path of existing directories the loop of [mkdir] only
    descends. *)
Lemma mkdir_loop_existing (fs : FileSystem) (p : string) (parts : list string)
    (cur l : loc) (username : string) (mode : Z) :
  walk fs p cur parts = Ok l →
  (∃ n, heap fs !! l = Some n ∧ is_directory n = true) →
  mkdir_loop parts cur username mode fs = (Ok tt, fs).
Proof.
  revert cur. induction parts as [|part rest IH]; intros cur Hwalk Hdir; [done|].
  simpl in *. unfold lookup_dir.
  destruct (heap fs !! cur) as [n|]; [|done].
  destruct (body n) as [|entries]; [done|].
  destruct (entries !! part) as [child|]; [|done].
  destruct (walk_starts_on_directory _ _ _ _ _ Hwalk Hdir) as (nd & -> & ->).
  by apply IH.
Qed.

Lemma mkdir_existing (fs : FileSystem) (path username : string) (mode : Z)
    (l : loc) (n : Node) :
  registered fs username = true →
  _get_node fs path = Ok l → heap fs !! l = Some n → is_directory n = true →
  mkdir path username mode fs = (Ok tt, fs).
Proof.
  intros Hreg Hnode Hl Hdir. unfold mkdir. rewrite Hreg. cbn [negb].
  destruct (_ || _); [done|].
  eapply mkdir_loop_existing; [exact Hnode|eauto].
Qed.

End MkdirExisting.

Section MkdirNew.

Context (username : string) (m : Z).

(** The state after one creating step of the loop. *)
Lemma created_dir_lookup_new (fs : FileSystem) (cur : loc) (n : Node) (part : string) :
  heap fs !! cur = Some n →
  heap (created_dir fs cur part username m) !! new_loc fs
  = Some (mkNode part username m (Directory ∅)).
Proof.
  intros Hcur. unfold created_dir. simpl.
  rewrite lookup_alter_ne by by eapply ne_new_loc.
  by rewrite lookup_insert_eq.
Qed.

Lemma created_dir_lookup_cur (fs : FileSystem) (cur : loc) (n : Node) (part : string) :
  heap fs !! cur = Some n →
  heap (created_dir fs cur part username m) !! cur
  = Some (set_entries (insert part (new_loc fs)) n).
Proof.
  intros Hcur. unfold created_dir. simpl. rewrite lookup_alter_eq.
  rewrite lookup_insert_ne by by eapply new_loc_ne. by rewrite Hcur.
Qed.

Lemma created_dir_lookup_other (fs : FileSystem) (cur l : loc) (part : string) :
  l ≠ cur → l ≠ new_loc fs →
  heap (created_dir fs cur part username m) !! l
  = heap fs !! l.
Proof.
  intros Hcur Hnew. unfold created_dir. simpl.
  rewrite lookup_alter_ne by done. by rewrite lookup_insert_ne.
Qed.

(** From a directory just created, the loop touches that directory
    and objects it allocates, nothing else; the directory ends up
    with the next component as its only entry. *)
Lemma mkdir_loop_new (parts : list string) (cur : loc) (n : Node)
    (fs fs' : FileSystem) :
  heap fs !! cur = Some n → owner n = username → body n = Directory ∅ →
  mkdir_loop parts cur username m fs = (Ok tt, fs') →
  (∀ l n0, l ≠ cur → heap fs !! l = Some n0 → heap fs' !! l = Some n0)
  ∧ ∃ e', heap fs' !! cur = Some (mkNode (name n) (owner n) (mode n) (Directory e'))
          ∧ ∀ k, is_Some (e' !! k) ↔ head parts = Some k.
Proof.
  revert cur n fs. induction parts as [|part rest IH]; intros cur n fs Hcur Ho Hb.
  - intros [= <-]. split; [done|]. exists ∅. split.
    + rewrite Hcur. f_equal. destruct n; simpl in *. by subst.
    + intros k. simpl. rewrite lookup_empty. split; [by intros [? ?]|done].
  - simpl. rewrite (proj2 (lookup_dir_Ok fs cur n ∅)) by done.
    assert (denied n username w = false) as ->
      by (rewrite <- Ho; apply denied_owner).
    rewrite lookup_empty. fold (created_dir fs cur part username m).
    intros Hrun.
    apply (IH (new_loc fs) (mkNode part username m (Directory ∅)))
      in Hrun as [Hframe _]; [|by eapply created_dir_lookup_new|done..].
    split.
    + intros l n0 Hl Hn0. apply Hframe; [by eapply ne_new_loc|].
      rewrite created_dir_lookup_other; [done..|by eapply ne_new_loc].
    + exists {[part := new_loc fs]}. split.
      * rewrite (Hframe cur (set_entries (insert part (new_loc fs)) n)).
        -- unfold set_entries. rewrite Hb. by rewrite insert_empty.
        -- by eapply ne_new_loc.
        -- by apply created_dir_lookup_cur.
      * intros k. simpl. rewrite lookup_singleton_is_Some.
        split; [by intros ->|by intros [= ->]].
Qed.

End MkdirNew.

Section MkdirSteps.

Context (username : string) (m : Z).

(** The two ways the loop of [mkdir] goes on: it creates the missing
    component and enters it, or it enters the directory found. *)
Lemma mkdir_loop_step_missing (fs : FileSystem) (cur : loc) (n : Node)
    (entries : gmap string loc) (part : string) (rest : list string) :
  heap fs !! cur = Some n → body n = Directory entries →
  entries !! part = None → denied n username w = false →
  mkdir_loop (part :: rest) cur username m fs
  = mkdir_loop rest (new_loc fs) username m (created_dir fs cur part username m).
Proof.
  intros Hcur Hb Hpart Hperm. simpl.
  rewrite (proj2 (lookup_dir_Ok fs cur n entries)) by done.
  by rewrite Hpart, Hperm.
Qed.

Lemma mkdir_loop_step_existing (fs : FileSystem) (cur child : loc) (n nd : Node)
    (entries : gmap string loc) (part : string) (rest : list string) :
  heap fs !! cur = Some n → body n = Directory entries →
  entries !! part = Some child →
  heap fs !! child = Some nd → is_directory nd = true →
  mkdir_loop (part :: rest) cur username m fs
  = mkdir_loop rest child username m fs.
Proof.
  intros Hcur Hb Hpart Hchild Hdir. simpl.
  rewrite (proj2 (lookup_dir_Ok fs cur n entries)) by done.
  by rewrite Hpart, Hchild, Hdir.
Qed.

Lemma mkdir_loop_Ok_inv (fs fs' : FileSystem) (cur : loc) (part : string)
    (rest : list string) :
  mkdir_loop (part :: rest) cur username m fs = (Ok tt, fs') →
  ∃ n entries,
    heap fs !! cur = Some n ∧ body n = Directory entries ∧
    ((entries !! part = None ∧ denied n username w = false ∧
      mkdir_loop rest (new_loc fs) username m (created_dir fs cur part username m)
      = (Ok tt, fs'))
     ∨ (∃ child nd,
          entries !! part = Some child ∧ heap fs !! child = Some nd ∧
          is_directory nd = true ∧
          mkdir_loop rest child username m fs = (Ok tt, fs'))).
Proof.
  simpl. destruct (lookup_dir fs cur) as [[n entries]|] eqn:Hdir; [|done].
  apply lookup_dir_Ok in Hdir as [Hcur Hb]. intros Hrun.
  exists n, entries. do 2 (split; [done|]).
  destruct (entries !! part) as [child|].
  - right. destruct (heap fs !! child) as [nd|] eqn:Hchild; [|done].
    destruct (is_directory nd) eqn:Hd; [|done]. by exists child, nd.
  - left. destruct (denied n username w); [done|]. done.
Qed.

Lemma created_dir_ext (fs : FileSystem) (cur : loc) (n : Node)
    (entries : gmap string loc) (part : string) :
  heap fs !! cur = Some n → body n = Directory entries →
  entries !! part = None →
  heap_ext (heap fs) (heap (created_dir fs cur part username m)).
Proof.
  intros Hcur Hb Hpart. unfold created_dir. simpl.
  eapply heap_ext_trans; [apply heap_ext_alloc, new_loc_fresh|].
  apply heap_ext_alter. intros n' Hn'.
  rewrite lookup_insert_ne in Hn' by by eapply new_loc_ne.
  simplify_eq. by eapply node_ext_insert_entry.
Qed.

(** A successful [mkdir] only grows the store. *)
Lemma mkdir_loop_ext (parts : list string) (cur : loc) (fs fs' : FileSystem) :
  mkdir_loop parts cur username m fs = (Ok tt, fs') →
  heap_ext (heap fs) (heap fs') ∧ users fs' = users fs ∧ root fs' = root fs.
Proof.
  revert cur fs. induction parts as [|part rest IH]; intros cur fs.
  - intros [= <-]. split; [apply heap_ext_refl|done].
  - intros (n & entries & Hcur & Hb & [(Hpart & Hperm & Hrun)|
              (child & nd & Hpart & Hchild & Hdir & Hrun)])%mkdir_loop_Ok_inv.
    + apply IH in Hrun as (Hext & Hu & Hr). split; [|done].
      eapply heap_ext_trans; [|exact Hext]. by eapply created_dir_ext.
    + by eapply IH.
Qed.

End MkdirSteps.

Section MkdirComponents.

Context (username : string) (m : Z) (p : string).

Lemma created_dir_keeps (fs : FileSystem) (cur l : loc) (n x : Node) (part : string) :
  heap fs !! cur = Some n → heap fs !! l = Some x →
  is_Some (heap (created_dir fs cur part username m) !! l).
Proof.
  intros Hcur Hl. destruct (decide (l = cur)) as [->|Hne].
  - rewrite (created_dir_lookup_cur _ _ _ cur n) by done. eauto.
  - rewrite created_dir_lookup_other; [eauto|done|by eapply ne_new_loc].
Qed.

(** Below a directory just created every component is made. *)
Lemma mkdir_loop_new_prefix (parts : list string) (cur : loc) (n : Node)
    (fs fs' : FileSystem) (pre suf : list string) :
  heap fs !! cur = Some n → owner n = username → body n = Directory ∅ →
  mkdir_loop parts cur username m fs = (Ok tt, fs') →
  parts = pre ++ suf →
  ∃ l n',
    walk fs' p cur pre = Ok l ∧ heap fs' !! l = Some n' ∧ owner n' = username
    ∧ (∃ e', body n' = Directory e' ∧ ∀ k, is_Some (e' !! k) ↔ head suf = Some k)
    ∧ ((pre = [] ∧ l = cur ∧ name n' = name n ∧ mode n' = mode n)
       ∨ (pre ≠ [] ∧ heap fs !! l = None ∧ mode n' = m
          ∧ last pre = Some (name n'))).
Proof.
  revert cur n fs pre.
  induction parts as [|part rest IH]; intros cur n fs pre Hcur Ho Hb Hrun Hsplit.
  - symmetry in Hsplit. apply app_eq_nil in Hsplit as [-> ->].
    destruct (mkdir_loop_new username m [] cur n fs fs' Hcur Ho Hb Hrun)
      as (_ & e' & Hcur' & He').
    exists cur; eexists. split; [done|]. split; [exact Hcur'|].
    split; [done|]. split; [by exists e'|by left].
  - destruct pre as [|c pre'].
    + simpl in Hsplit. subst suf.
      destruct (mkdir_loop_new username m _ cur n fs fs' Hcur Ho Hb Hrun)
        as (_ & e' & Hcur' & He').
      exists cur; eexists. split; [done|]. split; [exact Hcur'|].
      split; [done|]. split; [by exists e'|by left].
    + simpl in Hsplit. injection Hsplit as <- ->.
      rewrite (mkdir_loop_step_missing username m fs cur n ∅) in Hrun;
        [|done..|by rewrite <- Ho; apply denied_owner].
      pose proof (created_dir_lookup_new username m fs cur n part Hcur) as Hnew.
      pose proof (created_dir_lookup_cur username m fs cur n part Hcur) as Hcur2.
      destruct (mkdir_loop_new username m _ _ _ _ _ Hnew eq_refl eq_refl Hrun)
        as (Hframe & _).
      destruct (IH _ _ _ pre' Hnew eq_refl eq_refl Hrun eq_refl)
        as (l & n' & Hwalk & Hl & Ho' & He' & Hcase).
      exists l, n'. split; [|split; [done|split; [done|split; [done|right]]]].
      * simpl. rewrite (Hframe cur _ (ne_new_loc _ _ _ Hcur) Hcur2).
        unfold set_entries. rewrite Hb. simpl.
        by rewrite lookup_insert_eq.
      * split; [done|].
        destruct Hcase as [(-> & -> & Hname & Hmode)|(Hne & Hnone & Hmode & Hlast)].
        -- split; [apply new_loc_lookup|]. split; [done|].
           simpl in *. by rewrite Hname.
        -- split; [|split; [done|]].
           ++ destruct (heap fs !! l) as [x|] eqn:Hx; [|done].
              destruct (created_dir_keeps fs cur l n x part Hcur Hx) as [y Hy].
              congruence.
           ++ rewrite last_cons, Hlast. done.
Qed.

End MkdirComponents.

Section MkdirOutcome.

Context (username : string) (m : Z) (p : string).

Lemma node_ext_directory (n n' : Node) :
  node_ext n n' → is_directory n = true → is_directory n' = true.
Proof.
  intros (_ & _ & _ & Hb). unfold is_directory at 1.
  destruct (body n) as [|e]; [done|]. intros _.
  destruct Hb as (e' & Hb' & _). unfold is_directory. by rewrite Hb'.
Qed.

Lemma made_cons (fs : FileSystem) (part : string) (pre suf : list string)
    (l : loc) (n' : Node) :
  made fs username m pre suf l n' → made fs username m (part :: pre) suf l n'.
Proof.
  intros (Hnone & Ho & Hm & Hlast & He). repeat split; try done.
  by rewrite last_cons, Hlast.
Qed.

(** What the loop of [mkdir] did with each component it walked. *)
Lemma mkdir_loop_components (parts : list string) (cur : loc)
    (fs fs' : FileSystem) (pre suf : list string) :
  mkdir_loop parts cur username m fs = (Ok tt, fs') →
  (∃ n, heap fs !! cur = Some n ∧ is_directory n = true) →
  parts = pre ++ suf →
  component_outcome fs fs' p cur username m pre suf.
Proof.
  revert cur fs pre.
  induction parts as [|part rest IH]; intros cur fs pre Hrun (n & Hcur & Hdir) Hsplit.
  - symmetry in Hsplit. apply app_eq_nil in Hsplit as [-> ->].
    injection Hrun as <-. exists cur, n. do 3 (split; [done|]). left.
    split; [done|]. exists n. split; [done|apply node_ext_refl].
  - destruct pre as [|c pre'].
    + destruct (mkdir_loop_ext _ _ _ _ _ _ Hrun) as (Hext & _).
      destruct (Hext _ _ Hcur) as (n' & Hcur' & Hnn').
      exists cur, n'. split; [done|]. split; [done|].
      split; [by eapply node_ext_directory|]. left. split; [done|]. by exists n.
    + simpl in Hsplit. injection Hsplit as <- ->.
      apply mkdir_loop_Ok_inv in Hrun
        as (n0 & entries & Hcur0 & Hb & [(Hpart & Hperm & Hrun)|
              (child & nd & Hpart & Hchild & Hcd & Hrun)]);
        rewrite Hcur in Hcur0; injection Hcur0 as <-.
      * pose proof (created_dir_lookup_new username m fs cur n part Hcur) as Hnew.
        pose proof (created_dir_lookup_cur username m fs cur n part Hcur) as Hcur2.
        destruct (mkdir_loop_new username m _ _ _ _ _ Hnew eq_refl eq_refl Hrun)
          as (Hframe & _).
        destruct (mkdir_loop_new_prefix username m p _ _ _ _ _ pre' suf
                    Hnew eq_refl eq_refl Hrun eq_refl)
          as (l & n' & Hwalk & Hl & Ho' & (e' & Hb' & He') & Hcase).
        exists l, n'. split; [|split; [done|split]].
        -- simpl. rewrite (Hframe cur _ (ne_new_loc _ _ _ Hcur) Hcur2).
           unfold set_entries. rewrite Hb. simpl.
           by rewrite lookup_insert_eq.
        -- unfold is_directory. by rewrite Hb'.
        -- right. split.
           ++ simpl. rewrite Hcur, Hb, Hpart. by eexists.
           ++ destruct Hcase
                as [(-> & -> & Hname & Hmode)|(Hne & Hnone & Hmode & Hlast)].
              ** split; [apply new_loc_lookup|]. split; [done|]. split; [done|].
                 split; [simpl in *; by rewrite Hname|by exists e'].
              ** split.
                 { destruct (heap fs !! l) as [y|] eqn:Hy; [|done].
                   destruct (created_dir_keeps username m fs cur l n y part Hcur Hy)
                     as [z Hz]. congruence. }
                 split; [done|]. split; [done|].
                 split; [by rewrite last_cons, Hlast|by exists e'].
      * destruct (IH child fs pre' Hrun) as (l & n' & Hwalk & Hl & Hd & Hcase);
          [by exists nd|done|].
        destruct (mkdir_loop_ext _ _ _ _ _ _ Hrun) as (Hext & _).
        destruct (Hext _ _ Hcur) as (n'' & Hcur'' & _ & _ & _ & Hb'').
        rewrite Hb in Hb''. destruct Hb'' as (e'' & Hb'' & Hsub).
        exists l, n'. split; [|split; [done|split; [done|]]].
        -- simpl. rewrite Hcur'', Hb''.
           by rewrite (lookup_weaken _ _ _ _ Hpart Hsub).
        -- simpl. rewrite Hcur, Hb, Hpart.
           destruct Hcase as [[Hw Hk]|[He Hm]]; [by left|right].
           split; [done|by apply made_cons].
Qed.

End MkdirOutcome.

Section MkdirReturns.

Context (username : string) (m : Z).

(** Over components that are there and are directories the loop of
    [mkdir] only descends. *)
Lemma mkdir_loop_descend (fs : FileSystem) (p : string) (pre suf : list string)
    (cur l : loc) (n : Node) :
  walk fs p cur pre = Ok l → heap fs !! l = Some n → is_directory n = true →
  mkdir_loop (pre ++ suf) cur username m fs = mkdir_loop suf l username m fs.
Proof.
  intros Hw Hl Hd. revert cur Hw.
  induction pre as [|part rest IH]; intros cur Hw.
  - cbn [walk] in Hw. by simplify_eq.
  - cbn [walk] in Hw.
    destruct (heap fs !! cur) as [nc|] eqn:Hcur; [|done].
    destruct (body nc) as [|entries] eqn:Hb; [done|].
    destruct (entries !! part) as [child|] eqn:Hpart; [|done].
    destruct (walk_starts_on_directory fs p child l rest Hw) as (nd & Hchild & Hdd);
      [by exists n|].
    cbn [app].
    rewrite (mkdir_loop_step_existing username m fs cur child nc nd entries part
               (rest ++ suf) Hcur Hb Hpart Hchild Hdd).
    by apply IH.
Qed.

(** Where the first missing component may be created, the loop
    returns. *)
Lemma mkdir_loop_returns (fs : FileSystem) (p : string)
    (pre : list string) (part : string) (rest : list string)
    (cur l : loc) (n : Node) :
  walk fs p cur pre = Ok l → heap fs !! l = Some n → is_directory n = true →
  entries_of n !! part = None → denied n username w = false →
  ∃ fs', mkdir_loop (pre ++ part :: rest) cur username m fs = (Ok tt, fs').
Proof.
  intros Hw Hl Hd Hpart Hden.
  rewrite (mkdir_loop_descend fs p pre (part :: rest) cur l n Hw Hl Hd).
  apply is_directory_body in Hd as [entries Hb].
  unfold entries_of in Hpart. rewrite Hb in Hpart.
  rewrite (mkdir_loop_step_missing username m fs l n entries part rest Hl Hb Hpart Hden).
  apply mkdir_loop_from_new with (n := mkNode part username m (Directory ∅));
    [by eapply created_dir_lookup_new|done|done].
Qed.

(** Past a missing component nothing resolves. *)
Lemma walk_past_missing (fs : FileSystem) (p : string) (pre : list string)
    (part : string) (q : list string) (cur l : loc) (n : Node) :
  walk fs p cur pre = Ok l → heap fs !! l = Some n →
  entries_of n !! part = None →
  ∃ e, walk fs p cur ((pre ++ [part]) ++ q) = Raise e.
Proof.
  intros Hw Hl Hpart. rewrite !walk_app, Hw. cbn [walk]. rewrite Hl.
  unfold entries_of in Hpart. destruct (body n) as [|entries]; [by eexists|].
  rewrite Hpart. by eexists.
Qed.

End MkdirReturns.

(** C8, as amended. For a registered user, [mkdir] returns whenever
    the components of the path that are there lead through
    directories and the requester may write the directory in which
    the first missing component is to be created; and when [mkdir]
    returns, every component of the path leads, after the call, to a
    directory: a component that was there before is the same object
    with the name, owner and mode it had, and a component that was
    missing, the first one and every one after it, is a new object,
    named after the component, owned by the requester, with the mode
    of the call (the leaf's), and holding only the component that
    follows it, nothing for the last one.  [mkdir] of a path that
    already names a directory returns without raising and leaves the
    state as it was. *)
Theorem mkdir_makes_missing_keeps_existing (fs : FileSystem)
    (path username : string) (m : Z) :
  registered fs username = true →
  (∀ pre part rest l n,
     _split_path path = pre ++ part :: rest →
     walk fs path (root fs) pre = Ok l →
     heap fs !! l = Some n → is_directory n = true →
     entries_of n !! part = None → denied n username w = false →
     ∃ fs',
       mkdir path username m fs = (Ok tt, fs')
       ∧ ∀ pre' suf',
           _split_path path = pre' ++ suf' → pre ++ [part] `prefix_of` pre' →
           ∃ l' n',
             walk fs' path (root fs) pre' = Ok l' ∧ heap fs' !! l' = Some n'
             ∧ is_directory n' = true
             ∧ made fs username m pre' suf' l' n')
  ∧ (∀ fs' pre suf,
       mkdir path username m fs = (Ok tt, fs') →
       _split_path path = pre ++ suf → pre ≠ [] →
       component_outcome fs fs' path (root fs) username m pre suf)
  ∧ (∀ l n,
       _get_node fs path = Ok l → heap fs !! l = Some n → is_directory n = true →
       mkdir path username m fs = (Ok tt, fs)).
Proof.
  intros Hreg.
  assert (Hparts : ∀ fs' pre suf,
            mkdir path username m fs = (Ok tt, fs') →
            _split_path path = pre ++ suf → pre ≠ [] →
            component_outcome fs fs' path (root fs) username m pre suf).
  { intros fs' pre suf Hrun Hsplit Hne. unfold mkdir in Hrun.
    rewrite Hreg in Hrun. cbn [negb] in Hrun.
    destruct (_ || _) eqn:Hroot.
    + apply orb_true_iff in Hroot as [->%String.eqb_eq| ->%String.eqb_eq];
        by destruct pre.
    + eapply mkdir_loop_components; [exact Hrun| |exact Hsplit].
      rewrite Hsplit in Hrun. destruct pre as [|c pre']; [done|].
      apply mkdir_loop_Ok_inv in Hrun as (n & entries & Hroot' & Hb & _).
      exists n. split; [done|]. unfold is_directory. by rewrite Hb. }
  split; [|split; [exact Hparts|]].
  - intros pre part rest l n Hsplit Hw Hl Hd Hpart Hden.
    assert (∃ fs', mkdir path username m fs = (Ok tt, fs')) as [fs' Hrun].
    { unfold mkdir. rewrite Hreg. cbn [negb].
      destruct (_ || _) eqn:Hroot.
      - apply orb_true_iff in Hroot as [->%String.eqb_eq| ->%String.eqb_eq];
          by destruct pre.
      - rewrite Hsplit. by eapply mkdir_loop_returns. }
    exists fs'. split; [done|]. intros pre' suf' Hsplit' [q ->].
    destruct (Hparts fs' _ suf' Hrun Hsplit') as (l' & n' & Hw' & Hl' & Hd' & Hcase);
      [by destruct pre|].
    exists l', n'. do 3 (split; [done|]).
    destruct Hcase as [[Hold _]|[_ Hmade]]; [|done].
    destruct (walk_past_missing fs path pre part q (root fs) l n Hw Hl Hpart)
      as [e He].
    congruence.
  - intros l n Hnode Hl Hdir. by eapply mkdir_existing.
Qed.

(** ** The shape of the tree *)

Section Shape.

Lemma reaches_from_empty_root (fs : FileSystem) (n1 : Node) (parts : list string)
    (l : loc) :
  heap fs !! root fs = Some n1 → body n1 = Directory ∅ →
  reaches fs parts l → parts = [] ∧ l = root fs.
Proof.
  intros Hroot Hb. unfold reaches. destruct parts as [|part rest]; simpl.
  - by intros [= <-].
  - by rewrite Hroot, Hb, lookup_empty.
Qed.

Lemma reaches_in_one_dir_tree (fs : FileSystem) (n1 n2 : Node) (k : string)
    (l2 : loc) (parts : list string) (l : loc) :
  heap fs !! root fs = Some n1 → body n1 = Directory {[k := l2]} →
  heap fs !! l2 = Some n2 → body n2 = Directory ∅ →
  reaches fs parts l → (parts = [] ∧ l = root fs) ∨ (parts = [k] ∧ l = l2).
Proof.
  intros Hroot Hb1 Hl2 Hb2. unfold reaches.
  destruct parts as [|part rest]; simpl.
  - intros [= <-]. by left.
  - rewrite Hroot, Hb1. destruct (decide (k = part)) as [<-|Hne].
    + rewrite lookup_singleton_eq. destruct rest as [|part' rest']; simpl.
      * intros [= <-]. by right.
      * by rewrite Hl2, Hb2, lookup_empty.
    + by rewrite lookup_singleton_ne.
Qed.

Lemma fs_alice_a_heap :
  root fs_alice_a = 1%positive
  ∧ dom (heap fs_alice_a) = {[1%positive; 2%positive]}
  ∧ heap fs_alice_a !! 1%positive
    = Some (mkNode "/" "root" o777 (Directory {["a" := 2%positive]}))
  ∧ heap fs_alice_a !! 2%positive
    = Some (mkNode "a" "alice" o755 (Directory ∅)).
Proof. repeat split; vm_compute; reflexivity. Qed.

Lemma rooted_tree_fs_alice_a : rooted_tree fs_alice_a.
Proof.
  destruct fs_alice_a_heap as (Hroot & Hdom & H1 & H2).
  assert (Hreach : ∀ parts l, reaches fs_alice_a parts l →
            (parts = [] ∧ l = 1%positive) ∨ (parts = ["a"] ∧ l = 2%positive)).
  { intros parts l Hr. rewrite <- Hroot at 1.
    eapply reaches_in_one_dir_tree; [by rewrite Hroot|done|exact H2|done|done]. }
  split.
  - intros parts Hr. rewrite Hroot in Hr.
    by destruct (Hreach _ _ Hr) as [[-> _]|[_ ?]].
  - intros l Hl Hne. apply elem_of_dom in Hl. rewrite Hdom in Hl.
    rewrite Hroot in Hne.
    assert (l = 2%positive) as ->.
    { apply elem_of_union in Hl as [Hl|Hl]; apply elem_of_singleton in Hl;
        congruence. }
    exists ["a"]. split; [by vm_compute|].
    intros parts' Hr. by destruct (Hreach _ _ Hr) as [[_ ?]|[-> _]].
Qed.

End Shape.

(** C1 fails for [move]. After [create_user("alice")] and
    [mkdir("/a", "alice")] the tree is acyclic and rooted;
    [move("/a", "/a/b", "alice")] then succeeds, and leaves the root
    empty and the directory that was [/a] entered in itself under the
    name [b]: it is on a cycle and no chain from the root leads to
    it. *)
Theorem move_into_own_subtree_breaks_tree :
  rooted_tree fs_alice_a
  ∧ ∃ fs',
      call (Move "/a" "/a/b" "alice") fs_alice_a = (Ok VNone, fs')
      ∧ list_dir "/" "alice" fs' = (Ok [], fs')
      ∧ heap fs' !! 2%positive
        = Some (mkNode "b" "alice" o755 (Directory {["b" := 2%positive]}))
      ∧ (∀ parts, ¬ reaches fs' parts 2%positive)
      ∧ ¬ rooted_tree fs'.
Proof.
  split; [apply rooted_tree_fs_alice_a|].
  exists (exec (move "/a" "/a/b" "alice") fs_alice_a).
  set (fs' := exec (move "/a" "/a/b" "alice") fs_alice_a).
  assert (Hroot : root fs' = 1%positive) by (vm_compute; reflexivity).
  assert (H1 : heap fs' !! 1%positive = Some (mkNode "/" "root" o777 (Directory ∅)))
    by (vm_compute; reflexivity).
  assert (H2 : heap fs' !! 2%positive
               = Some (mkNode "b" "alice" o755 (Directory {["b" := 2%positive]})))
    by (vm_compute; reflexivity).
  assert (Hunreachable : ∀ parts, ¬ reaches fs' parts 2%positive).
  { intros parts Hr.
    eapply reaches_from_empty_root in Hr as [_ Hr]; [|by rewrite Hroot|done].
    by rewrite Hroot in Hr. }
  split; [by vm_compute|]. split; [by vm_compute|]. split; [done|].
  split; [done|].
  intros [_ Htree].
  destruct (Htree 2%positive) as (parts & Hr & _); [by rewrite H2|by rewrite Hroot|].
  by eapply Hunreachable.
Qed.

(** ** Unregistered users *)

Lemma mutators_reject_unregistered (fs : FileSystem) (username : string) :
  registered fs username = false →
  (∀ path m, mkdir path username m fs = (Raise (UnknownUser username), fs))
  ∧ (∀ path data m,
       write_file path username data m fs = (Raise (UnknownUser username), fs))
  ∧ (∀ src_path dest_path,
       move src_path dest_path username fs = (Raise (UnknownUser username), fs)).
Proof.
  intros Hreg. unfold mkdir, write_file, move. rewrite Hreg. by cbn [negb].
Qed.

(** The same over the calls: the three operations that change the
    state raise "unknown user" for a caller who is not registered. *)
Lemma unregistered_mutating_call (c : Call) (fs : FileSystem) :
  registered fs (caller c) = false →
  match c with
  | ReadFile _ _ | ListDir _ _ => True
  | _ => call c fs = (Raise (UnknownUser (caller c)), fs)
  end.
Proof.
  intros Hreg.
  destruct (mutators_reject_unregistered fs (caller c) Hreg) as (Hmk & Hwr & Hmv).
  destruct c as [path u m|path u data m|path u|path u|src dest u];
    simpl in *; unfold returning; by rewrite ?Hmk, ?Hwr, ?Hmv.
Qed.

(** C2 fails for [read_file] and [list_dir]: neither looks at the
    users.  On the state left by [create_user("alice")] and
    [write_file("/f", "alice", b"Hello")], the user "ghost", who was
    never registered, reads the file and lists the root; [mkdir],
    [write_file] and [move] do raise "unknown user" for the same
    user. *)
Theorem unregistered_user_reads_and_lists :
  registered fs_alice_f "ghost" = false
  ∧ call (ReadFile "/f" "ghost") fs_alice_f = (Ok (VBytes hello), fs_alice_f)
  ∧ call (ListDir "/" "ghost") fs_alice_f = (Ok (VNames ["f"]), fs_alice_f)
  ∧ call (Mkdir "/d" "ghost" o755) fs_alice_f
    = (Raise (UnknownUser "ghost"), fs_alice_f)
  ∧ call (WriteFile "/f" "ghost" (Bytes hello) o644) fs_alice_f
    = (Raise (UnknownUser "ghost"), fs_alice_f)
  ∧ call (Move "/f" "/g" "ghost") fs_alice_f
    = (Raise (UnknownUser "ghost"), fs_alice_f).
Proof. repeat split; vm_compute; reflexivity. Qed.

(** ** The registration guard comes first *)

(** C5 as stated fails: on the state left by [create_user("alice")],
    [write_file("/f", ...)] and [write_file("/g", ...)], the source
    [/f] resolves, the root is the parent of both paths and "ghost"
    passes its write check, and [g] is taken; [move("/f", "/g",
    "ghost")] raises "unknown user", not "destination already
    exists". *)
Lemma move_by_unregistered_user_is_unknown_user :
  _get_node fs_alice_f_g "/f" = Ok 2%positive
  ∧ _get_parent_dir fs_alice_f_g "/f" = Ok 1%positive
  ∧ _get_parent_dir fs_alice_f_g "/g" = Ok 1%positive
  ∧ heap fs_alice_f_g !! 1%positive
    = Some (mkNode "/" "root" o777
              (Directory {["f" := 2%positive; "g" := 3%positive]}))
  ∧ denied (mkNode "/" "root" o777
              (Directory {["f" := 2%positive; "g" := 3%positive]})) "ghost" w
    = false
  ∧ move "/f" "/g" "ghost" fs_alice_f_g = (Raise (UnknownUser "ghost"), fs_alice_f_g)
  ∧ move "/f" "/g" "ghost" fs_alice_f_g ≠ (Raise (AlreadyExists "/g"), fs_alice_f_g).
Proof. repeat split; try (vm_compute; reflexivity). by vm_compute. Qed.

(** C8 as stated fails: [/docs] is a directory of the state left by
    [create_user("alice")] and [mkdir("/docs", "alice", 0o777)], and
    [mkdir("/docs", "ghost")] raises "unknown user".  Nor is a missing
    component created whoever asks: in [/home], made by alice with
    mode 0o755, the registered user bob may not write, and
    [mkdir("/home/x", "bob")] raises "permission denied" and leaves
    [x] missing. *)
Lemma mkdir_existing_by_unregistered_user_raises :
  (_get_node fs_docs "/docs" = Ok 2%positive
   ∧ heap fs_docs !! 2%positive = Some (mkNode "docs" "alice" o777 (Directory ∅))
   ∧ mkdir "/docs" "ghost" o755 fs_docs = (Raise (UnknownUser "ghost"), fs_docs)
   ∧ mkdir "/docs" "ghost" o755 fs_docs ≠ (Ok tt, fs_docs))
  ∧ (registered fs_home "bob" = true
     ∧ mkdir "/home/x" "bob" o755 fs_home = (Raise PermissionDenied, fs_home)
     ∧ _get_node fs_home "/home/x" = Raise (FileNotFoundError "/home/x")).
Proof. repeat split; try (vm_compute; reflexivity). by vm_compute. Qed.

(** C3, the claim as it stands: [fs.write_file("/f", "alice", "Hello")]
    by a registered user, on a path other than the root whose parent
    exists, and then [fs.read_file("/f", "alice")]; both return, and
    what is read is the [bytes] object [b"Hello"], not the [str] that
    was written. *)
Lemma written_str_reads_back_as_bytes :
  registered fs_alice "alice" = true
  ∧ _split_path "/f" = ["f"]
  ∧ _get_parent_dir fs_alice "/f" = Ok (root fs_alice)
  ∧ write_file "/f" "alice" (Str "Hello") o644 fs_alice = (Ok tt, fs_alice_f)
  ∧ read_file "/f" "alice" fs_alice_f = (Ok hello, fs_alice_f)
  ∧ hello = list_byte_of_string "Hello"
  ∧ Bytes hello ≠ Str "Hello".
Proof. repeat split; try (vm_compute; reflexivity). done. Qed.

(** ** The theorems on the example states *)

Lemma write_then_read_roundtrip_witness :
  write_file "/f" "alice" (Str "Hello") o644 fs_alice = (Ok tt, fs_alice_f)
  ∧ read_file "/f" "alice" fs_alice_f = (Ok hello, fs_alice_f)
  ∧ ((∀ b, Str "Hello" = Bytes b → hello = b)
     ∧ (∀ s, Str "Hello" = Str s
             → hello = list_byte_of_string s ∧ string_of_list_byte hello = s)
     ∧ (Bytes hello = Str "Hello" ↔ ∃ b, Str "Hello" = Bytes b)
     ∧ fs_alice_f = fs_alice_f
     ∧ registered fs_alice "alice" = true ∧ _split_path "/f" ≠ []).
Proof.
  assert (Hwrite : write_file "/f" "alice" (Str "Hello") o644 fs_alice
                   = (Ok tt, fs_alice_f))
    by (vm_compute; reflexivity).
  assert (Hread : read_file "/f" "alice" fs_alice_f = (Ok hello, fs_alice_f))
    by (vm_compute; reflexivity).
  split; [exact Hwrite|]. split; [exact Hread|].
  exact (write_then_read_roundtrip fs_alice fs_alice_f fs_alice_f "/f" "alice"
           (Str "Hello") hello o644 Hwrite Hread).
Defined.

Lemma failed_call_commits_nothing_witness :
  call (Mkdir "/f/x" "alice" o755) fs_alice_f
  = (Raise NotADirectory_component, fs_alice_f)
  ∧ fs_alice_f = fs_alice_f.
Proof.
  assert (Hrun : call (Mkdir "/f/x" "alice" o755) fs_alice_f
                 = (Raise NotADirectory_component, fs_alice_f))
    by (vm_compute; reflexivity).
  split; [exact Hrun|].
  exact (failed_call_commits_nothing _ fs_alice_f fs_alice_f _ Hrun).
Defined.

Lemma move_never_overwrites_witness :
  move "/f" "/g" "alice" fs_alice_f_g = (Raise (AlreadyExists "/g"), fs_alice_f_g)
  ∧ _get_node fs_alice_f_g "/f" = Ok 2%positive.
Proof.
  apply (move_never_overwrites fs_alice_f_g "/f" "/g" "alice"
           1%positive 1%positive 2%positive 3%positive
           (mkNode "/" "root" o777 (Directory {["f" := 2%positive; "g" := 3%positive]}))
           (mkNode "/" "root" o777 (Directory {["f" := 2%positive; "g" := 3%positive]}))
           {["f" := 2%positive; "g" := 3%positive]}
           {["f" := 2%positive; "g" := 3%positive]});
    try (vm_compute; reflexivity); by vm_compute.
Defined.


Lemma mkdir_makes_missing_keeps_existing_witness :
  registered fs_alice "alice" = true
  ∧ (∃ fs',
       mkdir "/docs/x" "alice" o755 fs_alice = (Ok tt, fs')
       ∧ (∃ l' n',
            walk fs' "/docs/x" (root fs_alice) ["docs"] = Ok l'
            ∧ heap fs' !! l' = Some n' ∧ is_directory n' = true
            ∧ made fs_alice "alice" o755 ["docs"] ["x"] l' n')
       ∧ (∃ l' n',
            walk fs' "/docs/x" (root fs_alice) ["docs"; "x"] = Ok l'
            ∧ heap fs' !! l' = Some n' ∧ is_directory n' = true
            ∧ made fs_alice "alice" o755 ["docs"; "x"] [] l' n'))
  ∧ mkdir "/docs" "alice" o755 fs_docs = (Ok tt, fs_docs).
Proof.
  assert (Hreg : registered fs_alice "alice" = true) by (vm_compute; reflexivity).
  split; [exact Hreg|]. split.
  - destruct (proj1 (mkdir_makes_missing_keeps_existing fs_alice "/docs/x" "alice"
                       o755 Hreg)
                [] "docs" ["x"] 1%positive
                (mkNode "/" "root" o777 (Directory ∅))
                ltac:(vm_compute; reflexivity) ltac:(vm_compute; reflexivity)
                ltac:(vm_compute; reflexivity) ltac:(vm_compute; reflexivity)
                ltac:(vm_compute; reflexivity) ltac:(vm_compute; reflexivity))
      as (fs' & Hrun & Hmade).
    exists fs'. split; [exact Hrun|]. split.
    + apply (Hmade ["docs"] ["x"]); [vm_compute; reflexivity|by exists []].
    + apply (Hmade ["docs"; "x"] []); [vm_compute; reflexivity|by exists ["x"]].
  - apply (proj2 (proj2 (mkdir_makes_missing_keeps_existing fs_docs "/docs" "alice"
                           o755 ltac:(vm_compute; reflexivity)))
             2%positive (mkNode "docs" "alice" o777 (Directory ∅)));
      vm_compute; reflexivity.
Defined.

Lemma list_dir_sorted_child_names_witness :
  ∃ names,
    list_dir "/" "bob" fs_alice_f_g = (Ok names, fs_alice_f_g)
    ∧ StronglySorted String.le names
    ∧ NoDup names
    ∧ (∀ k, k ∈ names
            ↔ is_Some (({["f" := 2%positive; "g" := 3%positive]} : gmap string loc) !! k))
    ∧ (∀ l, Sorted String.le l → NoDup l →
            (∀ k, k ∈ l
                  ↔ is_Some (({["f" := 2%positive; "g" := 3%positive]}
                               : gmap string loc) !! k)) →
            l = names).
Proof.
  apply (list_dir_sorted_child_names fs_alice_f_g "/" "bob" 1%positive
           (mkNode "/" "root" o777 (Directory {["f" := 2%positive; "g" := 3%positive]})));
    vm_compute; reflexivity.
Defined.

(** A [str] is stored as its bytes, as in the demo of the module. *)
Example write_str_read_bytes :
  (read_file "/f" "alice"
     (exec (write_file "/f" "alice" (Str "Hello") o644) fs_alice)).1
  = Ok hello.
Proof. vm_compute; reflexivity. Qed.

(** The listing is ordered whatever the order of creation. *)
Example list_dir_b_then_a :
  (list_dir "/" "alice"
     (exec (write_file "/a.txt" "alice" (Bytes hello) o644)
        (exec (write_file "/b.txt" "alice" (Bytes hello) o644) fs_alice))).1
  = Ok ["a.txt"; "b.txt"].
Proof. vm_compute; reflexivity. Qed.

(** ** No dangling reference *)

(** [Fault] stands for what cannot happen in Python, a reference to
    no object.  The states the operations build from [init] are
    [closed], and on a closed state no operation ends in [Fault]. *)

Section Closed.

Lemma entries_of_set_name (nm : string) (n : Node) :
  entries_of (set_name nm n) = entries_of n.
Proof. done. Qed.

Lemma entries_of_set_content (data : bytes) (n : Node) :
  entries_of (set_content data n) = entries_of n.
Proof.
  unfold entries_of, set_content.
  destruct (body n) eqn:Hb; simpl; by rewrite ?Hb.
Qed.

Lemma entries_of_set_entries (f : gmap string loc → gmap string loc) (n : Node) :
  entries_of (set_entries f n)
  = if is_directory n then f (entries_of n) else entries_of n.
Proof.
  unfold entries_of, set_entries, is_directory.
  destruct (body n) eqn:Hb; simpl; by rewrite ?Hb.
Qed.

Lemma is_directory_set_name (nm : string) (n : Node) :
  is_directory (set_name nm n) = is_directory n.
Proof. done. Qed.

Lemma is_directory_set_content (data : bytes) (n : Node) :
  is_directory (set_content data n) = is_directory n.
Proof.
  unfold is_directory, set_content.
  destruct (body n) eqn:Hb; simpl; by rewrite ?Hb.
Qed.

Lemma is_directory_set_entries (f : gmap string loc → gmap string loc) (n : Node) :
  is_directory (set_entries f n) = is_directory n.
Proof.
  unfold is_directory, set_entries.
  destruct (body n) eqn:Hb; simpl; by rewrite ?Hb.
Qed.

Lemma entries_of_directory (n : Node) (e : gmap string loc) :
  body n = Directory e → entries_of n = e.
Proof. unfold entries_of. by intros ->. Qed.

(** Updating one object in place keeps the store closed when the
    update adds no entry that dangles. *)
Lemma links_closed_alter (h : gmap loc Node) (l : loc) (f : Node → Node) :
  links_closed h →
  (∀ n k c, h !! l = Some n → entries_of (f n) !! k = Some c →
            entries_of n !! k = Some c ∨ is_Some (h !! c)) →
  links_closed (alter f l h).
Proof.
  intros Hclosed Hf l' n' k c Hl' Hk. apply lookup_alter_is_Some.
  apply lookup_alter_Some in Hl' as [(-> & n & Hn & ->)|(Hne & Hn)].
  - destruct (Hf _ _ _ Hn Hk) as [Hold|Hin]; [|done]. by eapply Hclosed.
  - by eapply Hclosed.
Qed.

(** Adding an object keeps the store closed when its entries do not
    dangle. *)
Lemma links_closed_insert (h : gmap loc Node) (l : loc) (n : Node) :
  links_closed h → h !! l = None →
  (∀ k c, entries_of n !! k = Some c → is_Some (h !! c)) →
  links_closed (<[l := n]> h).
Proof.
  intros Hclosed Hnew Hn l' n' k c Hl' Hk. apply lookup_insert_is_Some'.
  apply lookup_insert_Some in Hl' as [(-> & ->)|(Hne & Hl')]; right.
  - by eapply Hn.
  - by eapply Hclosed.
Qed.

Lemma directory_alter (h : gmap loc Node) (l l' : loc) (f : Node → Node) :
  (∀ n, is_directory (f n) = is_directory n) →
  (∃ n, h !! l' = Some n ∧ is_directory n = true) →
  ∃ n, alter f l h !! l' = Some n ∧ is_directory n = true.
Proof.
  intros Hf (n & Hn & Hd). destruct (decide (l = l')) as [->|Hne].
  - exists (f n). by rewrite lookup_alter_eq, Hn, Hf.
  - exists n. by rewrite lookup_alter_ne.
Qed.

Lemma closed_init : closed init.
Proof.
  split.
  - eexists. split; [by vm_compute|done].
  - intros l n k c Hl Hk. unfold init in Hl. simpl in Hl.
    apply lookup_singleton_Some in Hl as [_ <-]. done.
Qed.

Lemma closed_create_user (username : string) (fs : FileSystem) :
  closed fs → closed (exec (create_user username) fs).
Proof. unfold exec, create_user. by case_bool_decide. Qed.

Lemma closed_created_dir (fs : FileSystem) (cur : loc) (n : Node)
    (part username : string) (m : Z) :
  closed fs → heap fs !! cur = Some n →
  closed (created_dir fs cur part username m).
Proof.
  intros [Hroot Hlinks] Hcur. split; simpl.
  - apply directory_alter; [apply is_directory_set_entries|].
    destruct Hroot as (nr & Hnr & Hd). exists nr. split; [|done].
    rewrite lookup_insert_ne; [done|]. by eapply new_loc_ne.
  - apply links_closed_alter.
    + apply links_closed_insert; [done|apply new_loc_lookup|done].
    + intros n' k c Hn' Hk. rewrite entries_of_set_entries in Hk.
      destruct (is_directory n'); [|by left].
      apply lookup_insert_Some in Hk as [(-> & <-)|(Hne & Hk)]; [|by left].
      right. by rewrite lookup_insert_eq.
Qed.

Lemma closed_created_file (fs : FileSystem) (parent : loc) (pn : Node)
    (nm username : string) (m : Z) (data : bytes) :
  closed fs → heap fs !! parent = Some pn →
  closed (created_file fs parent nm username m data).
Proof.
  intros [Hroot Hlinks] Hpn. split; simpl.
  - apply directory_alter; [apply is_directory_set_entries|].
    destruct Hroot as (nr & Hnr & Hd). exists nr. split; [|done].
    rewrite lookup_insert_ne; [done|]. by eapply new_loc_ne.
  - apply links_closed_alter.
    + apply links_closed_insert; [done|apply new_loc_lookup|done].
    + intros n' k c Hn' Hk. rewrite entries_of_set_entries in Hk.
      destruct (is_directory n'); [|by left].
      apply lookup_insert_Some in Hk as [(-> & <-)|(Hne & Hk)]; [|by left].
      right. by rewrite lookup_insert_eq.
Qed.

Lemma closed_overwritten_file (fs : FileSystem) (existing : loc) (data : bytes) :
  closed fs → closed (overwritten_file fs existing data).
Proof.
  intros [Hroot Hlinks]. split; simpl.
  - apply directory_alter; [apply is_directory_set_content|done].
  - apply links_closed_alter; [done|].
    intros n k c _ Hk. left. by rewrite entries_of_set_content in Hk.
Qed.

Lemma closed_relink (fs : FileSystem) (src_parent src_node dest_parent : loc)
    (src_name dest_name : string) :
  closed fs → is_Some (heap fs !! src_node) →
  closed (with_heap (relink src_parent src_name src_node dest_parent dest_name
                       (heap fs)) fs).
Proof.
  intros [Hroot Hlinks] Hsrc. unfold relink. split; simpl.
  - apply directory_alter; [apply is_directory_set_entries|].
    apply directory_alter; [apply is_directory_set_name|].
    apply directory_alter; [apply is_directory_set_entries|done].
  - apply links_closed_alter; [apply links_closed_alter; [apply links_closed_alter|]|].
    + done.
    + intros n k c _ Hk. left. rewrite entries_of_set_entries in Hk.
      destruct (is_directory n); [|done].
      by apply lookup_delete_Some in Hk as [_ Hk].
    + intros n k c _ Hk. by left.
    + intros n k c _ Hk. rewrite entries_of_set_entries in Hk.
      destruct (is_directory n); [|by left].
      apply lookup_insert_Some in Hk as [(-> & <-)|(Hne & Hk)]; [|by left].
      right. by rewrite !lookup_alter_is_Some.
Qed.

End Closed.

Section NoFault.

Lemma walk_closed (fs : FileSystem) (p : string) (cur : loc) (parts : list string) :
  links_closed (heap fs) → is_Some (heap fs !! cur) →
  match walk fs p cur parts with
  | Ok l => is_Some (heap fs !! l)
  | Raise e => e ≠ Fault
  end.
Proof.
  intros Hlinks. revert cur.
  induction parts as [|part rest IH]; intros cur [n Hcur]; simpl; [by eexists|].
  rewrite Hcur. destruct (body n) as [|entries] eqn:Hb; [done|].
  destruct (entries !! part) as [child|] eqn:Hpart; [|done].
  apply IH. eapply Hlinks; [exact Hcur|]. by rewrite (entries_of_directory _ _ Hb).
Qed.

Lemma get_node_closed (fs : FileSystem) (path : string) :
  closed fs →
  match _get_node fs path with
  | Ok l => is_Some (heap fs !! l)
  | Raise e => e ≠ Fault
  end.
Proof.
  intros [(n & Hroot & _) Hlinks]. apply walk_closed; [done|by eexists].
Qed.

Lemma get_parent_dir_closed (fs : FileSystem) (path : string) :
  closed fs →
  match _get_parent_dir fs path with
  | Ok l => ∃ n, heap fs !! l = Some n ∧ is_directory n = true
  | Raise e => e ≠ Fault
  end.
Proof.
  intros [(n & Hroot & Hd) Hlinks]. unfold _get_parent_dir.
  case_bool_decide; [by exists n|].
  pose proof (walk_closed fs path (root fs) (removelast (_split_path path)) Hlinks
                ltac:(by eexists)) as Hwalk.
  destruct (walk fs path (root fs) (removelast (_split_path path))) as [cur|e];
    [|done].
  destruct Hwalk as [nc Hnc]. rewrite Hnc.
  destruct (is_directory nc) eqn:Hdc; [by exists nc|done].
Qed.

Lemma lookup_dir_directory (fs : FileSystem) (l : loc) (n : Node) :
  heap fs !! l = Some n → is_directory n = true →
  lookup_dir fs l = Ok (n, entries_of n).
Proof.
  intros Hl Hd. unfold lookup_dir, entries_of, is_directory in *. rewrite Hl.
  by destruct (body n).
Qed.

Lemma mkdir_loop_closed (parts : list string) (cur : loc) (username : string)
    (m : Z) (fs : FileSystem) :
  closed fs → (∃ n, heap fs !! cur = Some n ∧ is_directory n = true) →
  (mkdir_loop parts cur username m fs).1 ≠ Raise Fault
  ∧ closed (mkdir_loop parts cur username m fs).2.
Proof.
  revert cur fs. induction parts as [|part rest IH]; intros cur fs Hclosed (n & Hcur & Hd);
    simpl; [done|].
  rewrite (lookup_dir_directory fs cur n Hcur Hd).
  destruct (entries_of n !! part) as [node|] eqn:Hpart.
  - destruct Hclosed as [Hroot Hlinks].
    destruct (Hlinks _ _ _ _ Hcur Hpart) as [nd Hnd]. rewrite Hnd.
    destruct (is_directory nd) eqn:Hdd; [|done].
    apply IH; [done|by exists nd].
  - destruct (denied n username w); [done|].
    fold (created_dir fs cur part username m). apply IH.
    + by eapply closed_created_dir.
    + eexists. split; [by eapply created_dir_lookup_new|done].
Qed.

(** On a closed state no call ends in [Fault], and the state it
    leaves is closed. *)
Lemma call_closed (c : Call) (fs : FileSystem) :
  closed fs → (call c fs).1 ≠ Raise Fault ∧ closed (call c fs).2.
Proof.
  intros Hclosed.
  destruct c as [path u m|path u data m|path u|path u|src dest u];
    unfold call, returning.
  - assert ((mkdir path u m fs).1 ≠ Raise Fault ∧ closed (mkdir path u m fs).2)
      as [Hres Hfs].
    { unfold mkdir. destruct (negb _); [done|]. destruct (_ || _); [done|].
      apply mkdir_loop_closed; [done|apply Hclosed]. }
    destruct (mkdir path u m fs) as [[[]|e] fs']; simpl in *; split; congruence.
  - assert ((write_file path u data m fs).1 ≠ Raise Fault
            ∧ closed (write_file path u data m fs).2) as [Hres Hfs].
    { unfold write_file. destruct (negb _); [done|]. case_bool_decide; [done|].
      pose proof (get_parent_dir_closed fs path Hclosed) as Hpar.
      destruct (_get_parent_dir fs path) as [parent|e];
        [|by split; [simpl; congruence|]].
      destruct Hpar as (pn & Hpn & Hpd).
      rewrite (lookup_dir_directory fs parent pn Hpn Hpd).
      destruct (denied pn u w); [done|]. cbv zeta.
      destruct (entries_of pn !! default "" (last (_split_path path)))
        as [existing|] eqn:Hnm.
      - destruct (proj2 Hclosed _ _ _ _ Hpn Hnm) as [ne Hne]. rewrite Hne.
        destruct (is_directory ne); [done|]. destruct (denied ne u w); [done|].
        split; [done|]. by apply closed_overwritten_file.
      - split; [done|]. by eapply closed_created_file. }
    destruct (write_file path u data m fs) as [[[]|e] fs']; simpl in *;
      split; congruence.
  - assert ((read_file path u fs).1 ≠ Raise Fault ∧ (read_file path u fs).2 = fs)
      as [Hres Hfs].
    { unfold read_file. pose proof (get_node_closed fs path Hclosed) as Hnode.
      destruct (_get_node fs path) as [node|e];
        [|by split; [simpl; congruence|]].
      destruct Hnode as [n ->]. destruct (body n); [|done].
      by destruct (denied n u r). }
    destruct (read_file path u fs) as [[content|e] fs']; simpl in *;
      split; congruence.
  - assert ((list_dir path u fs).1 ≠ Raise Fault ∧ (list_dir path u fs).2 = fs)
      as [Hres Hfs].
    { unfold list_dir. rewrite list_dir_shortcut.
      pose proof (get_node_closed fs path Hclosed) as Hnode.
      destruct (_get_node fs path) as [node|e];
        [|by split; [simpl; congruence|]].
      destruct Hnode as [n ->]. destruct (body n); [done|].
      by destruct (denied n u r). }
    destruct (list_dir path u fs) as [[names|e] fs']; simpl in *;
      split; congruence.
  - assert ((move src dest u fs).1 ≠ Raise Fault ∧ closed (move src dest u fs).2)
      as [Hres Hfs].
    { unfold move. destruct (negb _); [done|]. case_bool_decide; [done|].
      pose proof (get_parent_dir_closed fs src Hclosed) as Hsp.
      destruct (_get_parent_dir fs src) as [sp|e];
        [|by split; [simpl; congruence|]].
      destruct Hsp as (spn & Hspn & Hspd).
      rewrite (lookup_dir_directory fs sp spn Hspn Hspd). cbv zeta.
      destruct (entries_of spn !! default "" (last (_split_path src)))
        as [src_node|] eqn:Hsn; [|done].
      destruct (denied spn u w); [done|]. case_bool_decide; [done|].
      pose proof (get_parent_dir_closed fs dest Hclosed) as Hdp.
      destruct (_get_parent_dir fs dest) as [dp|e];
        [|by split; [simpl; congruence|]].
      destruct Hdp as (dpn & Hdpn & Hdpd).
      rewrite (lookup_dir_directory fs dp dpn Hdpn Hdpd).
      destruct (denied dpn u w); [done|].
      destruct (entries_of dpn !! default "" (last (_split_path dest))); [done|].
      split; [done|]. apply closed_relink; [done|].
      exact (proj2 Hclosed _ _ _ _ Hspn Hsn). }
    destruct (move src dest u fs) as [[[]|e] fs']; simpl in *; split; congruence.
Qed.

End NoFault.

(** ** Creation keeps the tree a tree *)

Section Creation.

Context (fs : FileSystem) (parent f : loc) (pn nf : Node) (nm : string).
Hypothesis Hlinks : links_closed (heap fs).
Hypothesis Hpn : heap fs !! parent = Some pn.
Hypothesis Hpd : is_directory pn = true.
Hypothesis Hnm : entries_of pn !! nm = None.
Hypothesis Hf : heap fs !! f = None.
Hypothesis Hnf : entries_of nf = ∅.

Local Abbreviation fs' := (linked_new fs parent f nf nm).

Lemma linked_new_lookup_new : heap fs' !! f = Some nf.
Proof.
  simpl. rewrite lookup_alter_ne by congruence. by rewrite lookup_insert_eq.
Qed.

Lemma linked_new_lookup_parent :
  heap fs' !! parent = Some (set_entries (insert nm f) pn).
Proof.
  simpl. rewrite lookup_alter_eq, lookup_insert_ne by congruence. by rewrite Hpn.
Qed.

Lemma linked_new_lookup_other (l : loc) :
  l ≠ parent → l ≠ f → heap fs' !! l = heap fs !! l.
Proof.
  intros Hp Hl. simpl. rewrite lookup_alter_ne by done. by rewrite lookup_insert_ne.
Qed.

(** No chain goes on from the new object. *)
Lemma walk_from_new (p : string) (parts : list string) (l : loc) :
  walk fs' p f parts = Ok l → parts = [] ∧ l = f.
Proof.
  destruct parts as [|k rest]; simpl; [by intros [= <-]|].
  rewrite lookup_alter_ne by congruence. rewrite lookup_insert_eq.
  unfold entries_of in Hnf. destruct (body nf) as [|e]; [done|].
  by rewrite Hnf, lookup_empty.
Qed.

(** The chains of the new state: those of the old one, and the chains
    to [parent] followed by [nm], which lead to the new object. *)
Lemma walk_linked_new (p : string) (cur : loc) (parts : list string) (l : loc) :
  is_Some (heap fs !! cur) →
  walk fs' p cur parts = Ok l
  ↔ walk fs p cur parts = Ok l
    ∨ (l = f ∧ ∃ pp, parts = pp ++ [nm] ∧ walk fs p cur pp = Ok parent).
Proof.
  revert cur. induction parts as [|k rest IH]; intros cur [n Hcur].
  - simpl. split; [by left|]. intros [?|(_ & pp & Hpp & _)]; [done|].
    by destruct pp.
  - set (old := walk fs p cur (k :: rest) = Ok l
                ∨ (l = f ∧ ∃ pp, k :: rest = pp ++ [nm]
                                 ∧ walk fs p cur pp = Ok parent)).
    assert (Hstep : ∀ e, body n = Directory e → e !! k = None →
              ¬ old ∨ (cur = parent ∧ k = nm ∧ rest = [])).
    { intros e Hb Hk.
      destruct (decide (cur = parent ∧ k = nm ∧ rest = [])) as [?|Hnot]; [by right|].
      left. intros [Hw|(_ & pp & Hpp & Hw)].
      - simpl in Hw. by rewrite Hcur, Hb, Hk in Hw.
      - destruct pp as [|k' pp']; simpl in Hpp.
        + injection Hpp as -> ->. simpl in Hw. injection Hw as ->. by apply Hnot.
        + injection Hpp as <- ->. simpl in Hw. by rewrite Hcur, Hb, Hk in Hw. }
    assert (Hfile : ∀ c, body n = File c → ¬ old).
    { intros c Hb [Hw|(_ & pp & Hpp & Hw)].
      - simpl in Hw. by rewrite Hcur, Hb in Hw.
      - destruct pp as [|k' pp']; simpl in Hpp, Hw.
        + injection Hw as ->. rewrite Hpn in Hcur. injection Hcur as <-.
          unfold is_directory in Hpd. by rewrite Hb in Hpd.
        + by rewrite Hcur, Hb in Hw. }
    assert (Hdesc : ∀ e c, body n = Directory e → e !! k = Some c →
              walk fs' p c rest = Ok l ↔ old).
    { intros e c Hb Hk. rewrite IH.
      - unfold old. simpl. rewrite Hcur, Hb, Hk.
        split; (intros [?|(-> & pp & Hpp & Hw)]; [by left|right]).
        + split; [done|]. exists (k :: pp). split; [by rewrite Hpp|].
          simpl. by rewrite Hcur, Hb, Hk.
        + split; [done|]. destruct pp as [|k' pp']; simpl in Hpp.
          * injection Hpp as -> ->. simpl in Hw. injection Hw as ->.
            rewrite Hpn in Hcur. injection Hcur as <-.
            rewrite (entries_of_directory _ _ Hb) in Hnm. congruence.
          * injection Hpp as <- ->. exists pp'. split; [done|].
            simpl in Hw. by rewrite Hcur, Hb, Hk in Hw.
      - eapply Hlinks; [exact Hcur|]. by rewrite (entries_of_directory _ _ Hb). }
    assert (Hnew : cur = parent → k = nm → rest = [] → old ↔ l = f).
    { intros -> -> ->. rewrite Hpn in Hcur. injection Hcur as <-.
      unfold old. simpl. rewrite Hpn. unfold is_directory in Hpd.
      destruct (body pn) as [|e] eqn:Hb; [done|].
      rewrite (entries_of_directory _ _ Hb) in Hnm. rewrite Hnm. split.
      - by intros [?|[? _]].
      - intros ->. right. split; [done|]. by exists []. }
    clearbody old. cbn [walk].
    destruct (decide (cur = parent)) as [->|Hne].
    + rewrite Hpn in Hcur. injection Hcur as <-.
      unfold is_directory in Hpd. destruct (body pn) as [|e] eqn:Hb; [done|].
      rewrite (entries_of_directory _ _ Hb) in Hnm.
      rewrite linked_new_lookup_parent. unfold set_entries.
      rewrite Hb. cbn [body]. destruct (decide (k = nm)) as [->|Hk].
      * rewrite lookup_insert_eq. split.
        -- intros [-> ->]%walk_from_new. by apply Hnew.
        -- intros Hcase. destruct (Hstep e eq_refl Hnm) as [Hno|(_ & _ & ->)];
             [done|]. simpl. f_equal. symmetry. by apply Hnew.
      * rewrite lookup_insert_ne by done.
        destruct (e !! k) as [c|] eqn:Hek; [exact (Hdesc e c eq_refl Hek)|].
        split; [done|]. intros Hcase.
        destruct (Hstep e eq_refl Hek) as [Hno|(_ & ? & _)]; done.
    + rewrite linked_new_lookup_other; [|done|intros ->; by rewrite Hf in Hcur].
      rewrite Hcur. destruct (body n) as [c|e] eqn:Hb.
      * split; [done|]. intros Hcase. by destruct (Hfile c eq_refl).
      * destruct (e !! k) as [c|] eqn:Hek; [exact (Hdesc e c eq_refl Hek)|].
        split; [done|]. intros Hcase.
        destruct (Hstep e eq_refl Hek) as [Hno|(? & _)]; done.
Qed.

End Creation.

Section TreeKept.

Lemma reaches_in_store (fs : FileSystem) (parts : list string) (l : loc) :
  closed fs → reaches fs parts l → is_Some (heap fs !! l).
Proof.
  intros [(n & Hroot & _) Hlinks] Hr.
  pose proof (walk_closed fs "" (root fs) parts Hlinks ltac:(by eexists)) as Hw.
  unfold reaches in Hr. by rewrite Hr in Hw.
Qed.

Lemma reaches_unique (fs : FileSystem) (p1 p2 : list string) (l : loc) :
  closed fs → rooted_tree fs →
  reaches fs p1 l → reaches fs p2 l → p1 = p2.
Proof.
  intros Hclosed [Hacyclic Hone] H1 H2.
  destruct (decide (l = root fs)) as [->|Hne].
  - by rewrite (Hacyclic _ H1), (Hacyclic _ H2).
  - destruct (Hone l (reaches_in_store _ _ _ Hclosed H1) Hne) as (parts & _ & Huniq).
    by rewrite (Huniq _ H1), (Huniq _ H2).
Qed.

(** Entering a new object that has no entries in a reachable
    directory, under a name that is free there, keeps the tree
    acyclic and rooted. *)
Lemma rooted_tree_linked_new (fs : FileSystem) (parent f : loc) (pn nf : Node)
    (nm : string) :
  closed fs → rooted_tree fs →
  heap fs !! parent = Some pn → is_directory pn = true →
  entries_of pn !! nm = None →
  heap fs !! f = None → entries_of nf = ∅ →
  (∃ pp, reaches fs pp parent) →
  rooted_tree (linked_new fs parent f nf nm).
Proof.
  intros Hclosed Htree Hpn Hpd Hnm Hf Hnf [pp0 Hpp0].
  pose proof Hclosed as [(nr & Hroot & _) Hlinks].
  assert (Hchains : ∀ parts l,
            reaches (linked_new fs parent f nf nm) parts l
            ↔ reaches fs parts l
              ∨ (l = f ∧ ∃ pp, parts = pp ++ [nm] ∧ reaches fs pp parent)).
  { intros parts l. unfold reaches.
    apply (walk_linked_new fs parent f pn nf nm Hlinks Hpn Hpd Hnm Hf Hnf).
    by eexists. }
  assert (Hold : ∀ parts l, is_Some (heap fs !! l) →
            reaches (linked_new fs parent f nf nm) parts l → reaches fs parts l).
  { intros parts l [x Hx] [?|[-> _]]%Hchains; [done|]. congruence. }
  split.
  - intros parts Hr. apply (proj1 Htree). apply Hold; [by eexists|done].
  - intros l Hl Hne. change (root (linked_new fs parent f nf nm)) with (root fs) in Hne.
    destruct (decide (l = f)) as [->|Hlf].
    + exists (pp0 ++ [nm]). split.
      * apply Hchains. right. split; [done|]. by exists pp0.
      * intros parts' [Hr|(_ & pp & -> & Hpp)]%Hchains.
        -- apply (reaches_in_store _ _ _ Hclosed) in Hr as [x Hx]. congruence.
        -- f_equal. by eapply reaches_unique.
    + assert (is_Some (heap fs !! l)) as Hl'.
      { simpl in Hl. apply lookup_alter_is_Some in Hl.
        apply lookup_insert_is_Some' in Hl as [?|?]; [congruence|done]. }
      destruct (proj2 Htree l Hl' Hne) as (parts & Hr & Huniq).
      exists parts. split; [apply Hchains; by left|].
      intros parts' Hr'. apply Huniq. by apply Hold.
Qed.

Lemma created_dir_linked_new (fs : FileSystem) (cur : loc) (part username : string)
    (m : Z) :
  created_dir fs cur part username m
  = linked_new fs cur (new_loc fs) (mkNode part username m (Directory ∅)) part.
Proof. reflexivity. Qed.

Lemma created_file_linked_new (fs : FileSystem) (parent : loc) (nm username : string)
    (m : Z) (data : bytes) :
  created_file fs parent nm username m data
  = linked_new fs parent (new_loc fs) (mkNode nm username m (File data)) nm.
Proof. reflexivity. Qed.

(** Overwriting the content of a file changes no chain. *)
Lemma walk_overwritten_file (fs : FileSystem) (existing : loc) (data : bytes)
    (p : string) (cur : loc) (parts : list string) :
  walk (overwritten_file fs existing data) p cur parts = walk fs p cur parts.
Proof.
  revert cur. induction parts as [|k rest IH]; intros cur; simpl; [done|].
  rewrite lookup_alter. case_decide as Hcur.
  - subst cur. destruct (heap fs !! existing) as [n|]; simpl; [|done].
    unfold set_content. destruct (body n) as [|e] eqn:Hb; simpl; [done|].
    rewrite Hb. by destruct (e !! k).
  - destruct (heap fs !! cur) as [n|]; [|done].
    destruct (body n) as [|e]; [done|]. by destruct (e !! k).
Qed.

Lemma rooted_tree_overwritten_file (fs : FileSystem) (existing : loc) (data : bytes) :
  rooted_tree fs → rooted_tree (overwritten_file fs existing data).
Proof.
  intros [Hacyclic Hone]. unfold rooted_tree, reaches.
  setoid_rewrite walk_overwritten_file. split; [done|].
  intros l Hl Hne. apply Hone; [|done].
  simpl in Hl. by apply lookup_alter_is_Some in Hl.
Qed.

Lemma mkdir_loop_tree (parts : list string) (cur : loc) (username : string)
    (m : Z) (fs : FileSystem) :
  closed fs → rooted_tree fs →
  (∃ n, heap fs !! cur = Some n ∧ is_directory n = true) →
  (∃ pp, reaches fs pp cur) →
  rooted_tree (mkdir_loop parts cur username m fs).2.
Proof.
  revert cur fs.
  induction parts as [|part rest IH];
    intros cur fs Hclosed Htree (n & Hcur & Hd) [pp Hpp]; simpl; [done|].
  rewrite (lookup_dir_directory fs cur n Hcur Hd).
  destruct (entries_of n !! part) as [node|] eqn:Hpart.
  - destruct (proj2 Hclosed _ _ _ _ Hcur Hpart) as [nd Hnd]. rewrite Hnd.
    destruct (is_directory nd) eqn:Hdd; [|done].
    apply IH; [done|done|by exists nd|].
    exists (pp ++ [part]). unfold reaches in *. rewrite walk_app, Hpp. simpl.
    rewrite Hcur. unfold entries_of in Hpart.
    destruct (body n); [done|]. by rewrite Hpart.
  - destruct (denied n username w); [done|].
    fold (created_dir fs cur part username m). apply IH.
    + by eapply closed_created_dir.
    + rewrite created_dir_linked_new.
      eapply rooted_tree_linked_new; try done; [apply new_loc_lookup|by exists pp].
    + eexists. split; [by eapply created_dir_lookup_new|done].
    + exists (pp ++ [part]). rewrite created_dir_linked_new. unfold reaches.
      apply (walk_linked_new fs cur (new_loc fs) n
               (mkNode part username m (Directory ∅)) part (proj2 Hclosed) Hcur Hd
               Hpart (new_loc_lookup fs) eq_refl).
      * destruct Hclosed as [(nr & Hnr & _) _]. by eexists.
      * right. split; [done|]. by exists pp.
Qed.

End TreeKept.

Section TreeKeptByCalls.

Lemma rooted_tree_init : rooted_tree init.
Proof.
  assert (Hreach : ∀ parts l, reaches init parts l → parts = [] ∧ l = 1%positive).
  { intros parts l. by apply (reaches_from_empty_root init (mkNode "/" "root" o777 (Directory ∅))). }
  split.
  - intros parts Hr. by destruct (Hreach _ _ Hr).
  - intros l Hl Hne. simpl in *.
    apply lookup_singleton_is_Some in Hl. congruence.
Qed.

Lemma returning_state {A} (f : A → Value) (res : Outcome A * FileSystem) :
  (returning f res).2 = res.2.
Proof. unfold returning. by destruct res as [[a|e] fs]. Qed.

Lemma write_file_tree (path username : string) (data : Data) (m : Z)
    (fs : FileSystem) :
  closed fs → rooted_tree fs → rooted_tree (write_file path username data m fs).2.
Proof.
  intros Hclosed Htree. unfold write_file.
  destruct (negb _); [done|]. case_bool_decide as Hparts; [done|].
  destruct (_get_parent_dir fs path) as [parent|e] eqn:Hpar; [|done].
  apply get_parent_dir_Ok in Hpar as (Hwalk & pn & Hpn & Hpd); [|done].
  rewrite (lookup_dir_directory fs parent pn Hpn Hpd).
  destruct (denied pn username w); [done|]. cbv zeta.
  destruct (entries_of pn !! default "" (last (_split_path path)))
    as [existing|] eqn:Hnm.
  - destruct (heap fs !! existing) as [n|]; [|done].
    destruct (is_directory n); [done|]. destruct (denied n username w); [done|].
    by apply rooted_tree_overwritten_file.
  - fold (created_file fs parent (default "" (last (_split_path path))) username m
            (encode data)).
    rewrite created_file_linked_new.
    eapply rooted_tree_linked_new; try done; [apply new_loc_lookup|].
    exists (removelast (_split_path path)). unfold reaches.
    by eapply walk_path_irrelevant.
Qed.

End TreeKeptByCalls.

(** ** The order of listings *)

(** [String.le] is the lexicographic order on the codes of the
    characters: the order in which Python compares strings. *)
Lemma string_le_lexicographic (a b : ascii) (s t : string) :
  String.le "" t
  ∧ ¬ String.le (String a s) ""
  ∧ (String.le (String a s) (String b t)
     ↔ (N_of_ascii a < N_of_ascii b)%N ∨ (a = b ∧ String.le s t)).
Proof.
  unfold String.le, String.leb. split; [by destruct t|].
  split; [simpl; by intros []|].
  simpl. unfold Ascii.compare.
  destruct (N.compare_spec (N_of_ascii a) (N_of_ascii b)) as [Heq|Hlt|Hgt].
  - assert (a = b) as -> by (rewrite <- (ascii_N_embedding a), Heq; apply ascii_N_embedding).
    split; [by right|]. intros [Hlt|[_ Hle]]; [lia|done].
  - split; [by left|done].
  - split; [done|]. intros [Hlt|[-> _]]; [lia|lia].
Qed.

(** ** Moving outside the moved subtree keeps the tree a tree *)

Section Follow.

Lemma walk_follow (fs : FileSystem) (p : string) (cur : loc) (parts : list string)
    (l : loc) :
  walk fs p cur parts = Ok l ↔ follow (heap fs) cur parts = Some l.
Proof.
  revert cur. induction parts as [|k rest IH]; intros cur; simpl.
  - split; by intros [= ->].
  - destruct (heap fs !! cur) as [n|]; [|done]. unfold entries_of.
    destruct (body n) as [|e]; [by rewrite lookup_empty|].
    destruct (e !! k); [apply IH|done].
Qed.

Lemma reaches_follow (fs : FileSystem) (parts : list string) (l : loc) :
  reaches fs parts l ↔ follow (heap fs) (root fs) parts = Some l.
Proof. apply walk_follow. Qed.

Lemma follow_app (h : gmap loc Node) (cur : loc) (p1 p2 : list string) :
  follow h cur (p1 ++ p2) = follow h cur p1 ≫= λ c, follow h c p2.
Proof.
  revert cur. induction p1 as [|k rest IH]; intros cur; simpl; [done|].
  destruct (h !! cur) as [n|]; [|done].
  destruct (entries_of n !! k); [apply IH|done].
Qed.

Lemma follow_snoc (h : gmap loc Node) (cur c : loc) (n : Node) (pp : list string)
    (k : string) (l : loc) :
  follow h cur pp = Some l → h !! l = Some n → entries_of n !! k = Some c →
  follow h cur (pp ++ [k]) = Some c.
Proof.
  intros Hpp Hl Hk. rewrite follow_app, Hpp. simpl. by rewrite Hl, Hk.
Qed.

Lemma relink_lookup (sp s dp : loc) (sn dn : string) (h : gmap loc Node) (l : loc) :
  relink sp sn s dp dn h !! l = relink_node sp sn s dp dn l <$> h !! l.
Proof.
  unfold relink, relink_node. rewrite !lookup_alter.
  destruct (h !! l) as [n|] eqn:Hl; repeat (case_decide; simplify_eq);
    rewrite ?Hl; done.
Qed.

End Follow.

Section MoveTree.

Context (fs : FileSystem) (sp s dp : loc) (spn dpn : Node) (sn dn : string)
  (Psp Pdp : list string).
Hypothesis Hclosed : closed fs.
Hypothesis Htree : rooted_tree fs.
Hypothesis Hspn : heap fs !! sp = Some spn.
Hypothesis Hsn : entries_of spn !! sn = Some s.
Hypothesis Hdpn : heap fs !! dp = Some dpn.
Hypothesis Hdpd : is_directory dpn = true.
Hypothesis Hdn : entries_of dpn !! dn = None.
Hypothesis HPsp : reaches fs Psp sp.
Hypothesis HPdp : reaches fs Pdp dp.
(** The destination parent is not the moved object nor below it. *)
Hypothesis Hgood : ∀ q, follow (heap fs) s q ≠ Some dp.

Local Abbreviation h := (heap fs).
Local Abbreviation h3 := (relink sp sn s dp dn (heap fs)).
Local Abbreviation P := (Psp ++ [sn]).

Lemma follow_unique (p1 p2 : list string) (l : loc) :
  follow h (root fs) p1 = Some l → follow h (root fs) p2 = Some l → p1 = p2.
Proof.
  intros H1%reaches_follow H2%reaches_follow. by eapply reaches_unique.
Qed.

Lemma follow_in_store (parts : list string) (l : loc) :
  follow h (root fs) parts = Some l → is_Some (h !! l).
Proof. intros Hr%reaches_follow. by eapply reaches_in_store. Qed.

Lemma moved_chain : follow h (root fs) P = Some s.
Proof. eapply follow_snoc; [by apply reaches_follow|done..]. Qed.

Lemma moved_below (q : list string) (l : loc) :
  follow h s q = Some l → follow h (root fs) (P ++ q) = Some l.
Proof. intros Hq. by rewrite follow_app, moved_chain. Qed.

Lemma src_parent_not_below (q : list string) : follow h s q ≠ Some sp.
Proof.
  intros Hq%moved_below.
  pose proof (follow_unique _ _ _ Hq (proj1 (reaches_follow _ _ _) HPsp)) as Heq.
  apply (f_equal length) in Heq. rewrite !length_app in Heq. simpl in Heq. lia.
Qed.

Lemma edges_differ : ¬ (sp = dp ∧ sn = dn).
Proof. intros [-> ->]. congruence. Qed.

(** The entries of an object after the move. *)
Lemma relink_entries (l : loc) (n : Node) (k : string) :
  h !! l = Some n →
  entries_of (relink_node sp sn s dp dn l n) !! k
  = if decide (dp = l ∧ k = dn) then Some s
    else if decide (sp = l ∧ k = sn) then None
    else entries_of n !! k.
Proof.
  intros Hl. unfold relink_node.
  set (n1 := if decide (sp = l) then set_entries (delete sn) n else n).
  set (n2 := if decide (s = l) then set_name dn n1 else n1).
  assert (Hd : is_directory n2 = is_directory n).
  { unfold n2, n1. repeat case_decide;
      by rewrite ?is_directory_set_name, ?is_directory_set_entries. }
  assert (He : entries_of n2 !! k
               = if decide (sp = l ∧ k = sn) then None else entries_of n !! k).
  { replace (entries_of n2) with (entries_of n1) by (unfold n2; by case_decide).
    unfold n1. destruct (decide (sp = l)) as [<-|Hne].
    - rewrite Hspn in Hl. injection Hl as <-. rewrite entries_of_set_entries.
      assert (is_directory spn = true) as ->.
      { unfold is_directory, entries_of in *. by destruct (body spn). }
      destruct (decide (k = sn)) as [->|Hk].
      + rewrite decide_True by done. apply lookup_delete_eq.
      + rewrite decide_False by (by intros [_ ?]). by apply lookup_delete_ne.
    - by rewrite decide_False by (by intros [? _]). }
  destruct (decide (dp = l)) as [<-|Hne].
  - rewrite Hdpn in Hl. injection Hl as <-.
    rewrite entries_of_set_entries, Hd, Hdpd.
    destruct (decide (k = dn)) as [->|Hk].
    + rewrite decide_True by done. apply lookup_insert_eq.
    + rewrite decide_False by (by intros [_ ?]).
      rewrite lookup_insert_ne by done. exact He.
  - rewrite decide_False by (by intros [? _]). exact He.
Qed.

(** One step of a chain after the move. *)
Lemma follow_relinked_step (cur : loc) (n : Node) (k : string) (rest : list string) :
  h !! cur = Some n →
  follow h3 cur (k :: rest)
  = if decide (dp = cur ∧ k = dn) then follow h3 s rest
    else if decide (sp = cur ∧ k = sn) then None
    else match entries_of n !! k with
         | None => None
         | Some c => follow h3 c rest
         end.
Proof.
  intros Hcur. simpl. rewrite relink_lookup, Hcur. simpl.
  rewrite (relink_entries cur n k Hcur). by repeat case_decide.
Qed.

(** Below the moved object the chains are what they were. *)
Lemma follow_relinked_below (q0 q : list string) (cur : loc) :
  follow h s q0 = Some cur → follow h3 cur q = follow h cur q.
Proof.
  revert q0 cur. induction q as [|k rest IH]; intros q0 cur Hq0; [done|].
  destruct (follow_in_store _ _ (moved_below _ _ Hq0)) as [n Hcur].
  rewrite (follow_relinked_step cur n k rest Hcur). simpl. rewrite Hcur.
  rewrite decide_False by (intros [<- _]; by eapply Hgood).
  rewrite decide_False by (intros [<- _]; by eapply src_parent_not_below).
  destruct (entries_of n !! k) as [c|] eqn:Hk; [|done].
  apply (IH (q0 ++ [k])). by eapply follow_snoc.
Qed.

Lemma prefix_snoc_new (c0 : list string) (k : string) :
  ¬ P `prefix_of` c0 → P `prefix_of` c0 ++ [k] → c0 = Psp ∧ k = sn.
Proof.
  intros Hno [q Hq]. destruct q as [|x q _] using rev_ind.
  - rewrite app_nil_r in Hq. by apply app_inj_tail in Hq.
  - rewrite !app_assoc in Hq. apply app_inj_tail in Hq as [Hq _].
    destruct Hno. exists q. by rewrite Hq, <- app_assoc.
Qed.

(** The chains after the move, from an object that is not below the
    moved one: the old chains that do not go through the moved
    object, and the chains to the destination directory followed by
    the new name and a chain from the moved object. *)
Lemma follow_relinked (c0 : list string) (cur : loc) (parts : list string) (l : loc) :
  follow h (root fs) c0 = Some cur → ¬ P `prefix_of` c0 →
  follow h3 cur parts = Some l
  ↔ (follow h cur parts = Some l ∧ ¬ P `prefix_of` c0 ++ parts)
    ∨ (∃ pp q, parts = pp ++ dn :: q ∧ follow h cur pp = Some dp
               ∧ follow h s q = Some l).
Proof.
  revert c0 cur. induction parts as [|k rest IH]; intros c0 cur Hc0 Hout.
  - simpl. rewrite app_nil_r. split.
    + intros [= <-]. by left.
    + intros [[? _]|(pp & q & Hpp & _)]; [done|]. by destruct pp.
  - destruct (follow_in_store _ _ Hc0) as [n Hcur].
    rewrite (follow_relinked_step cur n k rest Hcur).
    assert (Hright : (∃ pp q, k :: rest = pp ++ dn :: q ∧ follow h cur pp = Some dp
                              ∧ follow h s q = Some l)
                     ↔ (dp = cur ∧ k = dn ∧ follow h s rest = Some l)
                       ∨ (∃ c pp q, entries_of n !! k = Some c ∧ rest = pp ++ dn :: q
                                    ∧ follow h c pp = Some dp ∧ follow h s q = Some l)).
    { split.
      - intros (pp & q & Hpp & Hdp & Hq). destruct pp as [|k' pp']; simpl in *.
        + left. by simplify_eq.
        + right. simplify_eq. rewrite Hcur in Hdp.
          destruct (entries_of n !! k') as [c|] eqn:Hk; [|done].
          by exists c, pp', q.
      - intros [(<- & -> & Hq)|(c & pp & q & Hk & -> & Hdp & Hq)].
        + by exists [], rest.
        + exists (k :: pp), q. split; [done|]. split; [|done].
          simpl. by rewrite Hcur, Hk. }
    rewrite Hright. clear Hright. simpl. rewrite Hcur.
    destruct (decide (dp = cur ∧ k = dn)) as [[<- ->]|Hnd].
    { rewrite (follow_relinked_below [] rest s eq_refl).
      rewrite Hdpn in Hcur. injection Hcur as <-. rewrite Hdn. split.
      - intros Hq. right. by left.
      - intros [[? _]|[(_ & _ & ?)|(c & _ & _ & ? & _)]]; done. }
    destruct (decide (sp = cur ∧ k = sn)) as [[<- ->]|Hns].
    { split; [done|]. rewrite Hspn in Hcur. injection Hcur as <-. rewrite Hsn.
      intros Hcase. exfalso.
      destruct Hcase as [[_ Hno]|[(<- & -> & _)|(c & pp & q & [= <-] & _ & Hdp & _)]].
      - destruct Hno. exists rest.
        rewrite (follow_unique _ _ _ Hc0 (proj1 (reaches_follow _ _ _) HPsp)).
        by rewrite <- app_assoc.
      - by destruct Hnd.
      - by eapply Hgood. }
    destruct (entries_of n !! k) as [c|] eqn:Hk.
    + rewrite (IH (c0 ++ [k]) c).
      * rewrite <- app_assoc. simpl. split.
        -- intros [?|(pp & q & ? & ? & ?)]; [by left|].
           right. right. by exists c, pp, q.
        -- intros [?|[(? & ? & _)|(c' & pp & q & [= <-] & ? & ? & ?)]];
             [by left|by destruct Hnd|].
           right. by exists pp, q.
      * by eapply follow_snoc.
      * intros [-> ->]%prefix_snoc_new; [|done].
        destruct Hns.
        pose proof (proj1 (reaches_follow _ _ _) HPsp) as HPsp'.
        rewrite HPsp' in Hc0. by injection Hc0 as ->.
    + split; [done|].
      intros [[? _]|[(? & ? & _)|(c & _ & _ & ? & _)]]; [done|by destruct Hnd|done].
Qed.

Lemma dest_parent_outside : ¬ P `prefix_of` Pdp.
Proof.
  intros [q Hq]. apply reaches_follow in HPdp. rewrite Hq in HPdp.
  rewrite follow_app, moved_chain in HPdp. by eapply Hgood.
Qed.

Lemma reaches_relinked (parts : list string) (l : loc) :
  reaches (with_heap h3 fs) parts l
  ↔ (reaches fs parts l ∧ ¬ P `prefix_of` parts)
    ∨ (∃ q, parts = Pdp ++ dn :: q ∧ follow h s q = Some l).
Proof.
  rewrite !reaches_follow. change (heap (with_heap h3 fs)) with h3.
  change (root (with_heap h3 fs)) with (root fs).
  rewrite (follow_relinked [] (root fs) parts l eq_refl).
  - simpl. split; (intros [?|Hnew]; [by left|right]).
    + destruct Hnew as (pp & q & -> & Hpp & Hq). exists q. split; [|done].
      by rewrite (follow_unique _ _ _ Hpp (proj1 (reaches_follow _ _ _) HPdp)).
    + destruct Hnew as (q & -> & Hq). exists Pdp, q.
      split; [done|]. split; [by apply reaches_follow|done].
  - intros [q Hq]. by destruct Psp.
Qed.

(** The move keeps the tree acyclic and rooted. *)
Lemma rooted_tree_relinked : rooted_tree (with_heap h3 fs).
Proof.
  split.
  - intros parts [[Hr _]|(q & -> & Hq)]%reaches_relinked.
    + by apply (proj1 Htree).
    + apply moved_below, reaches_follow, (proj1 Htree) in Hq. by destruct Psp.
  - intros l Hl Hne. change (root (with_heap h3 fs)) with (root fs) in Hne.
    assert (is_Some (h !! l)) as Hl'.
    { simpl in Hl. rewrite relink_lookup in Hl. by apply fmap_is_Some in Hl. }
    destruct (proj2 Htree l Hl' Hne) as (Q & HQ & Huniq).
    destruct (decide (P `prefix_of` Q)) as [[q Hq]|Hout].
    + assert (Hsq : follow h s q = Some l).
      { apply reaches_follow in HQ. rewrite Hq, follow_app, moved_chain in HQ.
        done. }
      exists (Pdp ++ dn :: q). split.
      * apply reaches_relinked. right. by exists q.
      * intros parts' [[Hr Hno]|(q' & -> & Hq')]%reaches_relinked.
        -- destruct Hno. rewrite (Huniq _ Hr). by exists q.
        -- do 2 f_equal. apply moved_below, reaches_follow, Huniq in Hq'.
           rewrite Hq in Hq'. by apply app_inv_head in Hq'.
    + exists Q. split.
      * apply reaches_relinked. by left.
      * intros parts' [[Hr _]|(q' & -> & Hq')]%reaches_relinked; [by apply Huniq|].
        destruct Hout. exists q'.
        by apply moved_below, reaches_follow, Huniq in Hq'.
Qed.

End MoveTree.

Section TreeKeptByMove.

Lemma get_parent_dir_reaches (fs : FileSystem) (path : string) (parent : loc) :
  closed fs → _get_parent_dir fs path = Ok parent →
  ∃ pp n, reaches fs pp parent ∧ heap fs !! parent = Some n ∧ is_directory n = true.
Proof.
  intros Hclosed Hpar. destruct (decide (_split_path path = [])) as [Hnil|Hne].
  - unfold _get_parent_dir in Hpar. rewrite bool_decide_eq_true_2 in Hpar by done.
    injection Hpar as <-. destruct Hclosed as [(n & Hn & Hd) _].
    by exists [], n.
  - apply get_parent_dir_Ok in Hpar as (Hwalk & n & Hn & Hd); [|done].
    exists (removelast (_split_path path)), n. split; [|done].
    by eapply walk_path_irrelevant.
Qed.

Lemma move_tree (src_path dest_path username : string) (fs : FileSystem) :
  closed fs → rooted_tree fs →
  moves_outside fs (Move src_path dest_path username) →
  rooted_tree (move src_path dest_path username fs).2.
Proof.
  intros Hclosed Htree Hout. unfold move.
  destruct (negb _); [done|]. case_bool_decide; [done|].
  destruct (_get_parent_dir fs src_path) as [sp|e] eqn:Hsp; [|done].
  destruct (get_parent_dir_reaches _ _ _ Hclosed Hsp) as (Psp & spn & HPsp & Hspn & Hspd).
  rewrite (lookup_dir_directory fs sp spn Hspn Hspd). cbv zeta.
  destruct (entries_of spn !! default "" (last (_split_path src_path)))
    as [s|] eqn:Hsn; [|done].
  destruct (denied spn username w); [done|]. case_bool_decide; [done|].
  destruct (_get_parent_dir fs dest_path) as [dp|e] eqn:Hdp; [|done].
  destruct (get_parent_dir_reaches _ _ _ Hclosed Hdp) as (Pdp & dpn & HPdp & Hdpn & Hdpd).
  rewrite (lookup_dir_directory fs dp dpn Hdpn Hdpd).
  destruct (denied dpn username w); [done|].
  destruct (entries_of dpn !! default "" (last (_split_path dest_path))) eqn:Hdn;
    [done|].
  eapply (rooted_tree_relinked fs sp s dp spn dpn _ _ Psp Pdp); try done.
  intros q. by eapply Hout.
Qed.

(** Every call keeps the tree acyclic and rooted, a [move] as long as
    its destination is outside what it moves. *)
Lemma call_keeps_tree (c : Call) (fs : FileSystem) :
  closed fs → rooted_tree fs → moves_outside fs c →
  rooted_tree (call c fs).2.
Proof.
  intros Hclosed Htree Hout.
  destruct c as [path u m|path u data m|path u|path u|src dest u];
    unfold call; rewrite returning_state.
  - unfold mkdir. destruct (negb _); [done|]. destruct (_ || _); [done|].
    apply mkdir_loop_tree; [done|done|apply Hclosed|by exists []].
  - by apply write_file_tree.
  - destruct (read_file path u fs) as [res fs'] eqn:Hrun.
    apply read_file_state in Hrun as ->. done.
  - destruct (list_dir path u fs) as [res fs'] eqn:Hrun.
    apply list_dir_state in Hrun as ->. done.
  - by apply move_tree.
Qed.

End TreeKeptByMove.


(** * Further properties *)

(** ** Splitting any path *)

Section SplitAny.

Lemma norm_step_flag (i j : nat) (st : list string) (comp : string) :
  Nat.eqb i 0 = Nat.eqb j 0 → norm_step i st comp = norm_step j st comp.
Proof. intros Hij. unfold norm_step. by rewrite Hij. Qed.

Lemma norm_fold_flag (i j : nat) (comps st : list string) :
  Nat.eqb i 0 = Nat.eqb j 0 →
  fold_left (norm_step i) comps st = fold_left (norm_step j) comps st.
Proof.
  intros Hij. revert st. induction comps as [|c comps IH]; intros st; simpl; [done|].
  by rewrite IH, (norm_step_flag i j).
Qed.

Lemma norm_step_component (i : nat) (st : list string) (comp : string) :
  Forall component st → sep_free comp = true →
  Forall component (norm_step i st comp).
Proof.
  intros Hst Hcomp. unfold norm_step.
  destruct (String.eqb_spec comp "") as [->|Hne]; [done|].
  destruct (String.eqb_spec comp ".") as [->|Hdot]; [done|]. cbn [orb].
  destruct (_ || _ || _).
  - apply Forall_app. split; [done|]. constructor; [|done].
    repeat split; [done| |done]. by destruct comp.
  - case_bool_decide; [by apply Forall_removelast|done].
Qed.

Lemma norm_fold_component (i : nat) (comps st : list string) :
  Forall component st → Forall (λ c, sep_free c = true) comps →
  Forall component (fold_left (norm_step i) comps st).
Proof.
  revert st. induction comps as [|c comps IH]; intros st Hst Hall; simpl; [done|].
  inversion Hall; subst. apply IH; [|done]. by apply norm_step_component.
Qed.

Lemma join_nonempty (comps : list string) :
  comps ≠ [] → Forall component comps → nonempty (join comps) = true.
Proof.
  destruct comps as [|c comps]; [done|]. intros _ Hall.
  inversion Hall as [|? ? (_ & Hc & _) _]; subst.
  destruct c as [|a c]; [done|]. by destruct comps.
Qed.

(** [_split_path] is the loop of [normpath] over the raw components,
    whatever the path. *)
Lemma split_path_fold (p : string) :
  _split_path p = norm_comps (initial_slashes p) (split p).
Proof.
  destruct (decide (absolute p)) as [Habs|Hrel].
  - rewrite split_path_norm by by right.
    unfold norm_comps. apply norm_fold_flag.
    by destruct (initial_slashes_absolute p Habs) as [-> | ->].
  - destruct (decide (p = "")) as [->|Hne]; [done|].
    assert (Hi : initial_slashes p = 0%nat).
    { unfold initial_slashes, absolute in *. by destruct (startswith "/" p). }
    rewrite Hi. set (comps := norm_comps 0 (split p)).
    assert (Hcomps : Forall component comps)
      by (apply norm_fold_component; [done|apply split_sep_free]).
    unfold _split_path, normpath.
    rewrite (proj2 (String.eqb_neq _ _) Hne), Hi. cbn [Nat.eqb]. fold comps.
    destruct (decide (comps = [])) as [->|Hcne]; [done|].
    rewrite (join_nonempty comps Hcne Hcomps).
    assert (Hsplit : split (join comps) = comps).
    { apply split_join; [done|]. eapply Forall_impl; [done|]. by intros ? (? & _). }
    destruct (String.eqb_spec (join comps) ".") as [Hdot|_].
    { rewrite Hdot in Hsplit. rewrite <- Hsplit in Hcomps.
      by inversion Hcomps as [|? ? (_ & _ & ?) _]. }
    destruct (startswith "/" (join comps)) eqn:Hstart.
    { apply absolute_inv in Hstart as [q Hq]. rewrite Hq in Hsplit.
      simpl in Hsplit. rewrite <- Hsplit in Hcomps.
      by inversion Hcomps as [|? ? (_ & ? & _) _]. }
    rewrite Hsplit. apply filter_nonempty_id.
    eapply Forall_impl; [done|]. by intros ? (_ & ? & _).
Qed.

End SplitAny.

Lemma split_path_all_components (path : string) :
  Forall component (_split_path path).
Proof.
  rewrite split_path_fold. apply norm_fold_component; [done|apply split_sep_free].
Qed.

(** ** Paths that are already split *)

Section SplitAgain.

Lemma norm_step_name (i : nat) (st : list string) (c : string) :
  component c → c ≠ ".." → norm_step i st c = st ++ [c].
Proof.
  intros (_ & Hn & Hdot) Hdd. unfold norm_step.
  rewrite (proj2 (String.eqb_neq c "")) by (by destruct c).
  by rewrite (proj2 (String.eqb_neq _ _) Hdot), (proj2 (String.eqb_neq _ _) Hdd).
Qed.

Lemma norm_fold_names (i : nat) (cs st : list string) :
  Forall (λ c, component c ∧ c ≠ "..") cs →
  fold_left (norm_step i) cs st = st ++ cs.
Proof.
  intros Hall. revert st.
  induction Hall as [|c cs [Hc Hdd] _ IH]; intros st; simpl.
  - by rewrite app_nil_r.
  - rewrite norm_step_name, IH, <- app_assoc by done. done.
Qed.

Lemma norm_step_dotdot_on_dotdots (m : nat) :
  norm_step 0 (replicate m "..") ".." = replicate (S m) "..".
Proof.
  destruct m as [|m]; [done|].
  unfold norm_step, last_is_dotdot. rewrite (replicate_S_end m), last_snoc.
  cbn [String.eqb orb negb andb Nat.eqb].
  rewrite bool_decide_eq_true_2 by (by destruct (replicate m "..")).
  by rewrite <- !replicate_S_end.
Qed.

Lemma norm_fold_dotdots (n m : nat) :
  fold_left (norm_step 0) (replicate n "..") (replicate m "..")
  = replicate (m + n) "..".
Proof.
  revert m. induction n as [|n IH]; intros m; simpl.
  - by rewrite Nat.add_0_r.
  - rewrite norm_step_dotdot_on_dotdots, IH. f_equal. lia.
Qed.

(** A list of the shape [_split_path] returns is left as it is by the
    loop of [normpath] on a relative path. *)
Lemma norm_fold_dotdots_first (comps : list string) :
  dotdots_first comps → fold_left (norm_step 0) comps [] = comps.
Proof.
  intros (n & cs & -> & Hcs).
  pose proof (norm_fold_dotdots n 0) as Hdd. simpl in Hdd.
  rewrite fold_left_app, Hdd, norm_fold_names by done. done.
Qed.

Lemma norm_step_dotdots_first (st : list string) (comp : string) :
  dotdots_first st → sep_free comp = true →
  dotdots_first (norm_step 0 st comp).
Proof.
  intros (n & cs & -> & Hcs) Hcomp.
  destruct (decide (comp = "" ∨ comp = ".")) as [Hskip|Hkeep].
  { unfold norm_step. destruct Hskip as [-> | ->]; by exists n, cs. }
  assert (Hc : component comp).
  { repeat split; [done|destruct comp; naive_solver|naive_solver]. }
  destruct (decide (comp = "..")) as [->|Hdd].
  - destruct cs as [|c cs _] using rev_ind.
    + rewrite app_nil_r, norm_step_dotdot_on_dotdots. exists (S n), [].
      by rewrite app_nil_r.
    + apply Forall_app in Hcs as [Hcs Hlast].
      inversion Hlast as [|? ? [_ Hcdd] _]; subst.
      unfold norm_step, last_is_dotdot. rewrite app_assoc, last_snoc.
      rewrite (proj2 (String.eqb_neq _ _) Hcdd).
      cbn [String.eqb orb negb andb Nat.eqb].
      rewrite bool_decide_eq_true_2 by (by destruct (replicate n ".." ++ cs)).
      rewrite removelast_last. by exists n, cs.
  - rewrite norm_step_name by done. exists n, (cs ++ [comp]).
    rewrite app_assoc. split; [done|]. apply Forall_app. split; [done|].
    by constructor.
Qed.

Lemma norm_fold_dotdots_first_inv (comps st : list string) :
  dotdots_first st → Forall (λ c, sep_free c = true) comps →
  dotdots_first (fold_left (norm_step 0) comps st).
Proof.
  revert st. induction comps as [|c comps IH]; intros st Hst Hall; simpl; [done|].
  inversion Hall; subst. apply IH; [|done]. by apply norm_step_dotdots_first.
Qed.

Lemma split_path_dotdots_first (p : string) : dotdots_first (_split_path p).
Proof.
  destruct (decide (absolute p)) as [Habs|Hrel].
  - exists 0%nat, (_split_path p). split; [done|].
    pose proof (split_path_all_components p) as Hc.
    rewrite split_path_norm in * by by right.
    assert (Hclean : Forall clean (fold_left (norm_step 1) (split p) []))
      by (apply norm_fold_clean; [done|apply split_sep_free]).
    rewrite Forall_forall in *. intros c Hin. split; [by apply Hc|].
    by destruct (Hclean c Hin) as (_ & _ & ?).
  - rewrite split_path_fold.
    assert (initial_slashes p = 0%nat) as ->.
    { unfold initial_slashes, absolute in *. by destruct (startswith "/" p). }
    apply norm_fold_dotdots_first_inv; [|apply split_sep_free].
    by exists 0%nat, [].
Qed.

Lemma join_relative (comps : list string) :
  comps ≠ [] → Forall component comps →
  ¬ absolute (join comps) ∧ split (join comps) = comps.
Proof.
  intros Hne Hall.
  assert (Hsplit : split (join comps) = comps).
  { apply split_join; [done|]. eapply Forall_impl; [done|]. by intros ? (? & _). }
  split; [|done]. intros [q Hq]%absolute_inv. rewrite Hq in Hsplit.
  simpl in Hsplit. rewrite <- Hsplit in Hall.
  by inversion Hall as [|? ? (_ & ? & _) _].
Qed.

End SplitAgain.

(** X1. Whatever the path, every component that [_split_path] returns
    is a non-empty name without a separator and is not [.]; the
    components named [..] come first, and there is none when the path
    is absolute. *)
Theorem split_path_components (path : string) :
  Forall component (_split_path path)
  ∧ dotdots_first (_split_path path)
  ∧ (absolute path → ".." ∉ _split_path path).
Proof.
  split; [apply split_path_all_components|].
  split; [apply split_path_dotdots_first|apply split_path_no_dotdot].
Qed.

Section SplitLaws.

Lemma initial_slashes_cons_sep (s : string) :
  Nat.eqb (initial_slashes (String sep s)) 0 = false.
Proof.
  unfold initial_slashes. change (startswith "/" (String sep s)) with true.
  cbn iota. by destruct (_ && _).
Qed.

Lemma initial_slashes_append (p s : string) :
  p ≠ "" →
  Nat.eqb (initial_slashes (p +:+ s)) 0 = Nat.eqb (initial_slashes p) 0.
Proof.
  destruct p as [|a p]; [done|]. intros _.
  destruct (Ascii.eqb_spec a sep) as [->|Hne].
  - change (String sep p +:+ s) with (String sep (p +:+ s)).
    by rewrite !initial_slashes_cons_sep.
  - unfold initial_slashes. change (String a p +:+ s) with (String a (p +:+ s)).
    cbn [startswith].
    rewrite (proj2 (Ascii.eqb_neq "/" a)) by (by intros <-). done.
Qed.

(** Whether a path is absolute is decided before its first
    separator. *)
Lemma flag_prefix (a s1 s2 : string) :
  Nat.eqb (initial_slashes (a +:+ String sep s1)) 0
  = Nat.eqb (initial_slashes (a +:+ String sep s2)) 0.
Proof.
  destruct (decide (a = "")) as [->|Hne].
  - change ("" +:+ String sep s1) with (String sep s1).
    change ("" +:+ String sep s2) with (String sep s2).
    by rewrite !initial_slashes_cons_sep.
  - by rewrite !initial_slashes_append.
Qed.

Lemma norm_fold_prefix (a s1 s2 : string) (comps st : list string) :
  fold_left (norm_step (initial_slashes (a +:+ String sep s1))) comps st
  = fold_left (norm_step (initial_slashes (a +:+ String sep s2))) comps st.
Proof. apply norm_fold_flag, flag_prefix. Qed.

Lemma norm_fold_prefix_self (a s : string) (st : list string) :
  fold_left (norm_step (initial_slashes (a +:+ String sep s))) (split a) []
  = _split_path a.
Proof.
  rewrite split_path_fold. unfold norm_comps.
  destruct (decide (a = "")) as [->|Hne]; [done|].
  apply norm_fold_flag. by rewrite initial_slashes_append.
Qed.

Lemma norm_step_under_dotdot (st : list string) (c : string) :
  norm_step 0 (".." :: st) c = ".." :: norm_step 0 st c.
Proof.
  unfold norm_step.
  destruct (String.eqb c "" || String.eqb c "."); [done|].
  destruct (String.eqb_spec c "..") as [->|Hne]; [|done].
  destruct st as [|x st]; [done|].
  cbn [negb orb andb Nat.eqb].
  rewrite !bool_decide_eq_true_2 by done. cbn [negb andb orb].
  change (last_is_dotdot (".." :: x :: st)) with (last_is_dotdot (x :: st)).
  by destruct (last_is_dotdot (x :: st)).
Qed.

Lemma norm_fold_under_dotdot (comps st : list string) :
  fold_left (norm_step 0) comps (".." :: st)
  = ".." :: fold_left (norm_step 0) comps st.
Proof.
  revert st. induction comps as [|c comps IH]; intros st; simpl; [done|].
  by rewrite norm_step_under_dotdot, IH.
Qed.

End SplitLaws.

(** X2. Splitting is idempotent: the components joined with the
    separator split into the same components, for every path; with
    the separator put in front as well when the path is absolute. *)
Theorem split_path_idempotent (p : string) :
  _split_path (join (_split_path p)) = _split_path p
  ∧ (absolute p → _split_path ("/" +:+ join (_split_path p)) = _split_path p).
Proof.
  pose proof (split_path_all_components p) as Hcomp.
  pose proof (split_path_dotdots_first p) as Hshape.
  destruct (decide (_split_path p = [])) as [Hnil|Hne].
  { rewrite Hnil. by split. }
  destruct (join_relative _ Hne Hcomp) as [Hrel Hsplit]. split.
  - rewrite (split_path_fold (join _)), Hsplit.
    assert (initial_slashes (join (_split_path p)) = 0%nat) as ->.
    { unfold initial_slashes, absolute in *.
      by destruct (startswith "/" (join (_split_path p))). }
    by apply norm_fold_dotdots_first.
  - intros Habs. rewrite (split_path_norm ("/" +:+ _)) by by right.
    change ("/" +:+ join (_split_path p)) with (String sep (join (_split_path p))).
    cbn [split]. rewrite Ascii.eqb_refl, Hsplit. cbn [fold_left].
    change (norm_step 1 [] "") with (@nil string).
    rewrite norm_fold_names; [done|].
    assert (Hclean : Forall clean (_split_path p)).
    { rewrite split_path_norm by by right.
      apply norm_fold_clean; [done|apply split_sep_free]. }
    rewrite Forall_forall in *. intros c Hin. split; [by apply Hcomp|].
    by destruct (Hclean c Hin) as (_ & _ & ?).
Qed.

Lemma split_path_snoc (p c : string) :
  component c → c ≠ ".." →
  _split_path (p +:+ "/" +:+ c) = _split_path p ++ [c].
Proof.
  intros Hc Hdd. rewrite (split_path_fold (p +:+ _)). unfold norm_comps.
  change (p +:+ "/" +:+ c) with (p +:+ String sep c).
  rewrite split_app, fold_left_app, (norm_fold_prefix_self p c []).
  rewrite (split_of_sep_free c) by apply Hc. cbn [fold_left].
  by apply norm_step_name.
Qed.

(** X3. Appending a separator and a name to a path appends the name
    to its components, for every path and every name that is not
    empty, [.] or [..] and holds no separator. *)
Theorem split_path_join_name (p c : string) :
  component c → c ≠ ".." →
  _split_path (p +:+ "/" +:+ c) = _split_path p ++ [c].
Proof. apply split_path_snoc. Qed.

(** X4. Parent traversal does not exist for relative paths: a leading
    [..] stays, as a component of that name, in front of the
    components of the rest. *)
Theorem split_path_relative_dotdot (p : string) :
  ¬ absolute p → _split_path ("../" +:+ p) = ".." :: _split_path p.
Proof.
  intros Hrel. rewrite !split_path_fold. unfold norm_comps.
  assert (initial_slashes p = 0%nat) as ->.
  { unfold initial_slashes, absolute in *. by destruct (startswith "/" p). }
  change (initial_slashes ("../" +:+ p)) with 0%nat.
  change ("../" +:+ p) with (".." +:+ String sep p).
  rewrite split_app. change (split "..") with [".."]. cbn [app fold_left].
  change (norm_step 0 [] "..") with [".."].
  apply norm_fold_under_dotdot.
Qed.

(** X5. Empty components and [.] components do not count: a doubled
    separator, a [/./] and a trailing separator leave the components
    of a path as they are. *)
Theorem split_path_collapses (a b : string) :
  _split_path (a +:+ "//" +:+ b) = _split_path (a +:+ "/" +:+ b)
  ∧ _split_path (a +:+ "/./" +:+ b) = _split_path (a +:+ "/" +:+ b)
  ∧ _split_path (a +:+ "/") = _split_path a.
Proof.
  change (a +:+ "//" +:+ b) with (a +:+ String sep (String sep b)).
  change (a +:+ "/./" +:+ b) with (a +:+ String sep ("." +:+ String sep b)).
  change (a +:+ "/" +:+ b) with (a +:+ String sep b).
  change (a +:+ "/") with (a +:+ String sep "").
  split; [|split].
  - rewrite !split_path_fold. unfold norm_comps.
    rewrite (norm_fold_prefix a (String sep b) b).
    by rewrite !split_app, !fold_left_app.
  - rewrite !split_path_fold. unfold norm_comps.
    rewrite (norm_fold_prefix a ("." +:+ String sep b) b).
    by rewrite !split_app, !fold_left_app.
  - rewrite (split_path_fold (a +:+ _)). unfold norm_comps.
    rewrite split_app, fold_left_app. by rewrite (norm_fold_prefix_self a "" []).
Qed.

Lemma split_path_join_name_witness :
  _split_path ("/docs" +:+ "/" +:+ "readme.txt") = _split_path "/docs" ++ ["readme.txt"].
Proof. apply (split_path_join_name "/docs" "readme.txt"); [by repeat split|done]. Defined.

Lemma split_path_relative_dotdot_witness :
  _split_path ("../" +:+ "a/b") = ".." :: _split_path "a/b".
Proof. apply (split_path_relative_dotdot "a/b"). by intros ?. Defined.

(** ** The parent of a path *)

Section SplitParent.

Lemma norm_step_pop (st : list string) :
  Forall clean st → norm_step 1 st ".." = removelast st.
Proof.
  intros Hall. unfold norm_step. cbn [String.eqb Ascii.eqb Bool.eqb orb negb andb].
  rewrite (last_is_dotdot_clean st Hall), andb_false_r.
  simpl. by case_bool_decide; [|destruct st].
Qed.

End SplitParent.

(** X6. On an absolute path a final [/..] drops the last component,
    if there is one; the directory [_get_parent_dir] returns for the
    path is therefore the node the path with [/..] appended resolves
    to. *)
Theorem split_path_parent (p : string) :
  absolute p →
  _split_path (p +:+ "/..") = removelast (_split_path p)
  ∧ ∀ fs l, _get_parent_dir fs p = Ok l → _get_node fs (p +:+ "/..") = Ok l.
Proof.
  intros Habs.
  assert (Hsplit : _split_path (p +:+ "/..") = removelast (_split_path p)).
  { rewrite !split_path_norm by (right; by try apply absolute_append).
    change (p +:+ "/..") with (p +:+ String sep "..").
    rewrite split_app, fold_left_app. change (split "..") with [".."].
    cbn [fold_left]. apply norm_step_pop, norm_fold_clean; [done|apply split_sep_free]. }
  split; [done|]. intros fs l. unfold _get_node. rewrite Hsplit.
  unfold _get_parent_dir. cbv zeta. case_bool_decide as Hnil.
  - rewrite Hnil. by intros [= <-].
  - destruct (walk fs p (root fs) (removelast (_split_path p))) as [cur|e] eqn:Hw; [|done].
    intros Hl. apply walk_path_irrelevant with (p1 := p).
    destruct (heap fs !! cur) as [n|]; [|done].
    by destruct (is_directory n); simplify_eq.
Qed.

Lemma split_path_parent_witness :
  _split_path ("/a/b" +:+ "/..") = removelast (_split_path "/a/b")
  ∧ ∀ fs l, _get_parent_dir fs "/a/b" = Ok l → _get_node fs ("/a/b" +:+ "/..") = Ok l.
Proof. by apply (split_path_parent "/a/b"). Defined.

(** ** The user registry *)

Lemma dom_insert_iff {A} (m : gmap string A) (u v : string) (x : A) :
  v ∈ dom (<[u := x]> m) ↔ v = u ∨ v ∈ dom m.
Proof. by rewrite dom_insert_L, elem_of_union, elem_of_singleton. Qed.

(** X7. [create_user] never raises and never touches the tree.
    Afterwards the user is registered, under the record of the first
    registration, and everybody else is registered as before;
    registering twice is registering once, and two registrations give
    the same state in either order. *)
Theorem create_user_registers (u v : string) (fs : FileSystem) :
  (create_user u fs).1 = Ok tt
  ∧ root (exec (create_user u) fs) = root fs
  ∧ heap (exec (create_user u) fs) = heap fs
  ∧ registered (exec (create_user u) fs) u = true
  ∧ (v ≠ u → users (exec (create_user u) fs) !! v = users fs !! v)
  ∧ (registered fs u = true → exec (create_user u) fs = fs)
  ∧ (registered fs u = false
     → users (exec (create_user u) fs) !! u = Some {[ "name" := u ]})
  ∧ exec (create_user u) (exec (create_user u) fs) = exec (create_user u) fs
  ∧ exec (create_user u) (exec (create_user v) fs)
    = exec (create_user v) (exec (create_user u) fs).
Proof.
  unfold exec, create_user, registered.
  destruct (decide (u ∈ dom (users fs))) as [Hu|Hu];
    destruct (decide (v ∈ dom (users fs))) as [Hv|Hv];
    rewrite ?(bool_decide_eq_true_2 _ Hu), ?(bool_decide_eq_false_2 _ Hu),
      ?(bool_decide_eq_true_2 _ Hv), ?(bool_decide_eq_false_2 _ Hv); cbn [fst snd users root heap];
    rewrite ?(bool_decide_eq_true_2 _ Hu), ?(bool_decide_eq_false_2 _ Hu),
      ?(bool_decide_eq_true_2 _ Hv), ?(bool_decide_eq_false_2 _ Hv); cbn [fst snd users root heap].
  - by repeat split.
  - assert (u ∈ dom (<[v := ({[ "name" := v ]} : gmap string string)]> (users fs)))
      as Hu' by (apply dom_insert_iff; by right).
    rewrite (bool_decide_eq_true_2 _ Hu'). cbn [fst snd users root heap].
    by repeat split.
  - assert (v ∈ dom (<[u := ({[ "name" := u ]} : gmap string string)]> (users fs)))
      as Hv' by (apply dom_insert_iff; by right).
    assert (u ∈ dom (<[u := ({[ "name" := u ]} : gmap string string)]> (users fs)))
      as Hu' by (apply dom_insert_iff; by left).
    rewrite (bool_decide_eq_true_2 _ Hv'), (bool_decide_eq_true_2 _ Hu').
    cbn [fst snd users root heap].
    repeat split; try done.
    + by intros ?; rewrite lookup_insert_ne.
    + by intros _; rewrite lookup_insert_eq.
  - assert (u ∈ dom (<[u := ({[ "name" := u ]} : gmap string string)]> (users fs)))
      as Hu' by (apply dom_insert_iff; by left).
    rewrite (bool_decide_eq_true_2 _ Hu'). cbn [fst snd users root heap].
    repeat split; try done.
    + by intros ?; rewrite lookup_insert_ne.
    + by intros _; rewrite lookup_insert_eq.
    + destruct (decide (u = v)) as [->|Hne].
      * by rewrite (bool_decide_eq_true_2 _ Hu').
      * assert (u ∉ dom (<[v := ({[ "name" := v ]} : gmap string string)]> (users fs)))
          as Hu2 by (rewrite dom_insert_iff; by intros [?|?]).
        assert (v ∉ dom (<[u := ({[ "name" := u ]} : gmap string string)]> (users fs)))
          as Hv2 by (rewrite dom_insert_iff; by intros [?|?]).
        rewrite (bool_decide_eq_false_2 _ Hu2), (bool_decide_eq_false_2 _ Hv2).
        cbn [fst snd users root heap]. f_equal. by apply insert_insert_ne.
Qed.

(** ** What a call leaves as it is *)

Section Frame.

Lemma mkdir_loop_keeps_files (parts : list string) (cur : loc) (username : string)
    (m : Z) (fs fs' : FileSystem) (l : loc) (n : Node) :
  mkdir_loop parts cur username m fs = (Ok tt, fs') →
  heap fs !! l = Some n → is_directory n = false → heap fs' !! l = Some n.
Proof.
  revert cur fs. induction parts as [|part rest IH]; intros cur fs Hrun Hl Hfile.
  - by simplify_eq/=.
  - apply mkdir_loop_Ok_inv in Hrun
      as (nc & entries & Hcur & Hbody
          & [(Hmiss & Hden & Hrun)|(child & nd & Hk & Hchild & Hdir & Hrun)]).
    + eapply IH; [done| |done].
      rewrite created_dir_lookup_other; [done| |by eapply ne_new_loc].
      intros ->. rewrite Hcur in Hl. simplify_eq.
      unfold is_directory in Hfile. by rewrite Hbody in Hfile.
    + by eapply IH.
Qed.

(** What [move] has found when it returns. *)
Lemma move_Ok_iff (src_path dest_path username : string) (fs fs' : FileSystem) :
  move src_path dest_path username fs = (Ok tt, fs') ↔
  registered fs username = true ∧ _split_path src_path ≠ []
  ∧ _split_path dest_path ≠ []
  ∧ ∃ sp spn s dp dpn,
      _get_parent_dir fs src_path = Ok sp ∧ heap fs !! sp = Some spn
      ∧ is_directory spn = true
      ∧ entries_of spn !! default "" (last (_split_path src_path)) = Some s
      ∧ denied spn username w = false
      ∧ _get_parent_dir fs dest_path = Ok dp ∧ heap fs !! dp = Some dpn
      ∧ is_directory dpn = true
      ∧ denied dpn username w = false
      ∧ entries_of dpn !! default "" (last (_split_path dest_path)) = None
      ∧ fs' = with_heap
                (relink sp (default "" (last (_split_path src_path))) s
                   dp (default "" (last (_split_path dest_path))) (heap fs)) fs.
Proof.
  unfold move. split.
  - destruct (registered fs username); [|done]. cbn [negb]. cbv zeta.
    case_bool_decide as Hsrc; [done|].
    destruct (_get_parent_dir fs src_path) as [sp|] eqn:Hsp; [|done].
    destruct (lookup_dir fs sp) as [[spn se]|] eqn:Hspn; [|done].
    apply lookup_dir_Ok in Hspn as [Hspn Hsb].
    destruct (se !! default "" (last (_split_path src_path))) as [s|] eqn:Hs; [|done].
    destruct (denied spn username w) eqn:Hsd; [done|].
    case_bool_decide as Hdest; [done|].
    destruct (_get_parent_dir fs dest_path) as [dp|] eqn:Hdp; [|done].
    destruct (lookup_dir fs dp) as [[dpn de]|] eqn:Hdpn; [|done].
    apply lookup_dir_Ok in Hdpn as [Hdpn Hdb].
    destruct (denied dpn username w) eqn:Hdd; [done|].
    destruct (de !! default "" (last (_split_path dest_path))) as [?|] eqn:Hd; [done|].
    intros [= <-]. do 3 (split; [done|]). exists sp, spn, s, dp, dpn.
    rewrite (entries_of_directory _ _ Hsb), (entries_of_directory _ _ Hdb).
    repeat split; try done; apply is_directory_body; eauto.
  - intros (-> & Hsrc & Hdest & sp & spn & s & dp & dpn & -> & Hspn & Hsdir & Hs & Hsd
            & -> & Hdpn & Hddir & Hdd & Hd & ->).
    cbn [negb]. cbv zeta.
    rewrite !bool_decide_eq_false_2 by done.
    rewrite (lookup_dir_directory _ _ _ Hspn Hsdir), Hs, Hsd.
    by rewrite (lookup_dir_directory _ _ _ Hdpn Hddir), Hdd, Hd.
Qed.

Lemma relink_node_attributes (sp s dp : loc) (sn dn : string) (l : loc) (n : Node) :
  owner (relink_node sp sn s dp dn l n) = owner n
  ∧ mode (relink_node sp sn s dp dn l n) = mode n
  ∧ is_directory (relink_node sp sn s dp dn l n) = is_directory n
  ∧ (∀ content, body n = File content
                → body (relink_node sp sn s dp dn l n) = File content)
  ∧ (l ≠ s → name (relink_node sp sn s dp dn l n) = name n).
Proof.
  unfold relink_node, set_entries, set_name, is_directory.
  destruct n as [nm o md [c|e]]; repeat case_decide; simpl;
    repeat split; try done; congruence.
Qed.

(** The relation between a node before and after a call. *)
Lemma node_ext_attributes (n n' : Node) :
  node_ext n n' →
  name n' = name n ∧ owner n' = owner n ∧ mode n' = mode n
  ∧ is_directory n' = is_directory n.
Proof.
  intros (? & ? & ? & Hb). do 3 (split; [done|]). unfold is_directory in *.
  destruct (body n); [done|]. by destruct Hb as (e' & -> & _).
Qed.

End Frame.

(** X8. No call changes who is registered or which object the root
    is, and a node keeps the owner, the mode and the kind it has,
    whatever is called and whether the call returns or raises; its
    name is changed by [move] only, and the content of a file by
    [write_file] only. *)
Theorem calls_keep_attributes (c : Call) (fs : FileSystem) :
  users (exec (call c) fs) = users fs
  ∧ root (exec (call c) fs) = root fs
  ∧ ∀ l n, heap fs !! l = Some n →
      ∃ n', heap (exec (call c) fs) !! l = Some n'
            ∧ owner n' = owner n ∧ mode n' = mode n
            ∧ is_directory n' = is_directory n
            ∧ match c with
              | Move _ _ _ => True
              | _ => name n' = name n
              end
            ∧ match c with
              | WriteFile _ _ _ _ => True
              | _ => ∀ content, body n = File content → body n' = File content
              end.
Proof.
  assert (Hsame : ∀ fs' : FileSystem, fs' = fs →
    users fs' = users fs ∧ root fs' = root fs
    ∧ ∀ l n, heap fs !! l = Some n →
        ∃ n', heap fs' !! l = Some n' ∧ owner n' = owner n ∧ mode n' = mode n
              ∧ is_directory n' = is_directory n ∧ name n' = name n
              ∧ ∀ content, body n = File content → body n' = File content).
  { intros ? ->. do 2 (split; [done|]). intros l n Hl. by exists n. }
  unfold exec. destruct c as [path u m|path u data m|path u|path u|sp dp u];
    unfold call; rewrite returning_state.
  - destruct (mkdir path u m fs) as [[[]|e] fs'] eqn:Hrun; cbn [snd].
    + unfold mkdir in Hrun.
      destruct (negb (registered fs u)); [done|].
      destruct (String.eqb path "/" || String.eqb path "");
        [assert (fs' = fs) as Hfs by congruence; same_state Hsame Hfs|].
      destruct (mkdir_loop_ext _ _ _ _ _ _ Hrun) as (Hext & ? & ?).
      do 2 (split; [done|]). intros l n Hl.
      destruct (Hext l n Hl) as (n' & Hl' & Hn').
      destruct (node_ext_attributes _ _ Hn') as (? & ? & ? & Hdir).
      exists n'. repeat split; try done. intros content Hc.
      assert (is_directory n = false) as Hfile by (unfold is_directory; by rewrite Hc).
      rewrite (mkdir_loop_keeps_files _ _ _ _ _ _ _ _ Hrun Hl Hfile) in Hl'.
      by simplify_eq.
    + apply mkdir_raise in Hrun. same_state Hsame Hrun.
  - destruct (write_file path u data m fs) as [[[]|e] fs'] eqn:Hrun; cbn [snd].
    + apply write_file_Ok_inv in Hrun
        as (_ & _ & parent & pn & entries & _ & Hpn & Hpb & _
            & [(Hnone & ->)|(existing & ne & _ & Hex & Hfile & _ & ->)]).
      * do 2 (split; [done|]). intros l n Hl.
        destruct (created_file_ext _ _ _ _ _ u m (encode data) Hpn Hpb Hnone l n Hl)
          as (n' & Hl' & Hn').
        destruct (node_ext_attributes _ _ Hn') as (? & ? & ? & ?).
        by exists n'.
      * do 2 (split; [done|]). intros l n Hl.
        destruct (overwritten_file_ext _ _ _ (encode data) Hex Hfile l n Hl)
          as (n' & Hl' & Hn').
        destruct (node_ext_attributes _ _ Hn') as (? & ? & ? & ?).
        by exists n'.
    + apply write_file_raise in Hrun. same_state Hsame Hrun.
  - destruct (read_file path u fs) as [res fs'] eqn:Hrun; cbn [snd].
    apply read_file_state in Hrun. same_state Hsame Hrun.
  - destruct (list_dir path u fs) as [res fs'] eqn:Hrun; cbn [snd].
    apply list_dir_state in Hrun. same_state Hsame Hrun.
  - destruct (move sp dp u fs) as [[[]|e] fs'] eqn:Hrun; cbn [snd].
    + apply move_Ok_iff in Hrun
        as (_ & _ & _ & psrc & spn & s & pdst & dpn & _ & _ & _ & _ & _ & _ & _ & _ & _ & _ & ->).
      do 2 (split; [done|]). intros l n Hl. cbn [heap with_heap].
      rewrite relink_lookup, Hl. cbn [fmap option_fmap option_map].
      eexists. split; [done|].
      destruct (relink_node_attributes psrc s pdst
                  (default "" (last (_split_path sp)))
                  (default "" (last (_split_path dp))) l n) as (? & ? & ? & ? & _).
      by repeat split.
    + apply move_raise in Hrun. same_state Hsame Hrun.
Qed.

(** ** What resolution reads *)

Section Resolution.

Lemma is_directory_same_body (n n' : Node) :
  body n' = body n → is_directory n' = is_directory n.
Proof. unfold is_directory. by intros ->. Qed.

Lemma walk_restamp (g : Node → Node) (fs : FileSystem) (p : string) (cur : loc)
    (parts : list string) :
  (∀ n, body (g n) = body n) →
  walk (restamp g fs) p cur parts = walk fs p cur parts.
Proof.
  intros Hg. revert cur. induction parts as [|part rest IH]; intros cur; [done|].
  cbn [walk restamp with_heap heap]. rewrite lookup_fmap.
  destruct (heap fs !! cur) as [n|]; [|done]. cbn [fmap option_fmap option_map].
  rewrite Hg. destruct (body n) as [|entries]; [done|].
  destruct (entries !! part); [apply IH|done].
Qed.

Lemma get_node_iff_parent_entry (fs : FileSystem) (path : string) (l : loc) :
  _split_path path ≠ [] →
  _get_node fs path = Ok l
  ↔ ∃ parent pn,
      _get_parent_dir fs path = Ok parent ∧ heap fs !! parent = Some pn
      ∧ entries_of pn !! default "" (last (_split_path path)) = Some l.
Proof.
  intros Hne. split.
  - unfold _get_node. rewrite (parts_snoc _ Hne) at 1. rewrite walk_app.
    destruct (walk fs path (root fs) (removelast (_split_path path)))
      as [parent|] eqn:Hw; [|done].
    cbn [walk]. destruct (heap fs !! parent) as [pn|] eqn:Hpn; [|done].
    destruct (body pn) as [|entries] eqn:Hb; [done|].
    destruct (entries !! default "" (last (_split_path path))) as [c|] eqn:Hc; [|done].
    intros [= <-]. exists parent, pn. split; [|split; [done|]].
    + apply get_parent_dir_Ok; [done|]. split; [done|]. exists pn.
      split; [done|]. apply is_directory_body. eauto.
    + by rewrite (entries_of_directory _ _ Hb).
  - intros (parent & pn & Hp & Hpn & Hl).
    apply get_parent_dir_Ok in Hp as [Hw _]; [|done].
    rewrite (get_node_via_parent _ _ _ Hne Hw). cbn [walk]. rewrite Hpn.
    unfold entries_of in Hl. destruct (body pn); [done|]. by rewrite Hl.
Qed.

End Resolution.

(** X9. Resolving a path reads the entries of the directories and
    nothing else: with other owners, modes and names on the nodes,
    [_get_node] and [_get_parent_dir] find the same object or raise the
    same exception.  No permission of a directory on the way is
    checked. *)
Theorem resolution_ignores_attributes (g : Node → Node) (fs : FileSystem)
    (path : string) :
  (∀ n, body (g n) = body n) →
  _get_node (restamp g fs) path = _get_node fs path
  ∧ _get_parent_dir (restamp g fs) path = _get_parent_dir fs path.
Proof.
  intros Hg. unfold _get_node, _get_parent_dir. cbv zeta.
  change (root (restamp g fs)) with (root fs). rewrite !walk_restamp by done.
  split; [done|]. case_bool_decide; [done|].
  destruct (walk fs path (root fs) (removelast (_split_path path))) as [cur|]; [|done].
  cbn [restamp with_heap heap]. rewrite lookup_fmap.
  destruct (heap fs !! cur) as [n|]; [|done]. cbn [fmap option_fmap option_map].
  by rewrite (is_directory_same_body n (g n)).
Qed.

Lemma resolution_ignores_attributes_witness :
  _get_node (restamp (λ n, mkNode "" "nobody" 0 (body n)) fs_alice_f) "/f"
  = _get_node fs_alice_f "/f"
  ∧ _get_parent_dir (restamp (λ n, mkNode "" "nobody" 0 (body n)) fs_alice_f) "/f"
    = _get_parent_dir fs_alice_f "/f".
Proof.
  by apply (resolution_ignores_attributes (λ n, mkNode "" "nobody" 0 (body n))).
Defined.

(** X10. A path with a last component resolves to what its parent
    directory, as [_get_parent_dir] finds it, holds under that
    component; a path without components resolves to the root, which
    is its own parent. *)
Theorem get_node_is_entry_of_parent (fs : FileSystem) (path : string) (l : loc) :
  (_split_path path ≠ [] →
   _get_node fs path = Ok l
   ↔ ∃ parent pn,
       _get_parent_dir fs path = Ok parent ∧ heap fs !! parent = Some pn
       ∧ entries_of pn !! default "" (last (_split_path path)) = Some l)
  ∧ (_split_path path = [] →
     _get_node fs path = Ok (root fs) ∧ _get_parent_dir fs path = Ok (root fs)).
Proof.
  split; [apply get_node_iff_parent_entry|].
  intros Hnil. unfold _get_node, _get_parent_dir. by rewrite Hnil.
Qed.

(** ** A file on the way, and a second [mkdir] *)

Section MkdirMore.

Lemma mkdir_loop_through_file (fs : FileSystem) (p : string) (pre suf : list string)
    (cur l : loc) (n : Node) (username : string) (m : Z) :
  pre ≠ [] → walk fs p cur pre = Ok l →
  heap fs !! l = Some n → is_directory n = false →
  mkdir_loop (pre ++ suf) cur username m fs = (Raise NotADirectory_component, fs).
Proof.
  intros Hne Hw Hl Hfile. revert cur Hne Hw.
  induction pre as [|part rest IH]; intros cur Hne Hw; [done|].
  cbn [walk] in Hw. cbn [app mkdir_loop]. unfold lookup_dir.
  destruct (heap fs !! cur) as [nc|]; [|done].
  destruct (body nc) as [|entries]; [done|].
  destruct (entries !! part) as [child|]; [|done].
  destruct rest as [|part' rest].
  - cbn [walk] in Hw. simplify_eq. cbn [app]. by rewrite Hl, Hfile.
  - assert (∃ nd, heap fs !! child = Some nd ∧ is_directory nd = true)
      as (nd & -> & ->).
    { cbn [walk] in Hw. destruct (heap fs !! child) as [nd|]; [|done].
      exists nd. split; [done|]. unfold is_directory. by destruct (body nd). }
    by apply IH.
Qed.

Lemma get_parent_dir_through_file (fs : FileSystem) (path : string)
    (pre suf : list string) (l : loc) (n : Node) :
  _split_path path = pre ++ suf → suf ≠ [] →
  walk fs path (root fs) pre = Ok l →
  heap fs !! l = Some n → is_directory n = false →
  _get_parent_dir fs path = Raise (FileNotFoundError path).
Proof.
  intros Hparts Hsuf Hw Hl Hfile. unfold _get_parent_dir. cbv zeta.
  rewrite bool_decide_eq_false_2 by (rewrite Hparts; by destruct pre, suf).
  rewrite Hparts, removelast_app, walk_app, Hw by done.
  destruct (removelast suf) as [|part rest]; cbn [walk]; rewrite Hl.
  - by rewrite Hfile.
  - unfold is_directory in Hfile. by destruct (body n).
Qed.

End MkdirMore.

(** X11. A file on the way.  When some components of the path lead to
    a file, [mkdir] raises [FsError("path component is a file")],
    whether components follow the file or not, and [write_file] raises
    [FileNotFoundError] with the path when components follow it; the
    state stays as it is. *)
Theorem file_on_the_way (fs : FileSystem) (path username : string)
    (pre suf : list string) (l : loc) (n : Node) :
  registered fs username = true →
  _split_path path = pre ++ suf → pre ≠ [] →
  walk fs path (root fs) pre = Ok l →
  heap fs !! l = Some n → is_directory n = false →
  (∀ m, mkdir path username m fs = (Raise NotADirectory_component, fs))
  ∧ (suf ≠ [] →
     ∀ data m, write_file path username data m fs
               = (Raise (FileNotFoundError path), fs)).
Proof.
  intros Hreg Hparts Hpre Hw Hl Hfile. split.
  - intros m. unfold mkdir. rewrite Hreg. cbn [negb].
    assert (String.eqb path "/" || String.eqb path "" = false) as ->.
    { apply orb_false_iff. split; apply String.eqb_neq; intros ->;
        by destruct pre. }
    rewrite Hparts. by eapply mkdir_loop_through_file.
  - intros Hsuf data m. unfold write_file. rewrite Hreg. cbn [negb]. cbv zeta.
    rewrite bool_decide_eq_false_2 by (rewrite Hparts; by destruct pre).
    by rewrite (get_parent_dir_through_file _ _ _ _ _ _ Hparts Hsuf Hw Hl Hfile).
Qed.

Lemma file_on_the_way_witness :
  (∀ m, mkdir "/f/x" "alice" m fs_alice_f = (Raise NotADirectory_component, fs_alice_f))
  ∧ (["x"] ≠ [] →
     ∀ data m, write_file "/f/x" "alice" data m fs_alice_f
               = (Raise (FileNotFoundError "/f/x"), fs_alice_f)).
Proof.
  by apply (file_on_the_way fs_alice_f "/f/x" "alice" ["f"] ["x"] 2%positive
              (mkNode "f" "alice" o644 (File hello))).
Defined.

(** X12. A second [mkdir] of a path does nothing.  Once [mkdir] has
    returned for a path, [mkdir] of that path returns for every
    registered user and every mode, and leaves the state as it is:
    only creating asks for a permission. *)
Theorem mkdir_again (fs fs' : FileSystem) (path u u' : string) (m m' : Z) :
  mkdir path u m fs = (Ok tt, fs') →
  registered fs u' = true →
  mkdir path u' m' fs' = (Ok tt, fs').
Proof.
  intros Hrun Hreg. unfold mkdir in Hrun.
  destruct (negb (registered fs u)); [done|].
  destruct (String.eqb path "/" || String.eqb path "") eqn:Hroot.
  { simplify_eq. unfold mkdir. by rewrite Hreg, Hroot. }
  destruct (mkdir_loop_ext _ _ _ _ _ _ Hrun) as (_ & Husers & Hrootfs).
  assert (Hreg' : registered fs' u' = true) by (unfold registered in *; by rewrite Husers).
  destruct (_split_path path) as [|part rest] eqn:Hparts.
  { simplify_eq/=. unfold mkdir. by rewrite Hreg, Hroot, Hparts. }
  assert (Hdir : ∃ n, heap fs !! root fs = Some n ∧ is_directory n = true).
  { apply mkdir_loop_Ok_inv in Hrun as (n & entries & Hn & Hb & _).
    exists n. split; [done|]. apply is_directory_body. eauto. }
  destruct (mkdir_loop_components u m path _ _ _ _ (part :: rest) [] Hrun Hdir)
    as (l & n' & Hw & Hl & Hd & _); [by rewrite app_nil_r|].
  apply mkdir_existing with (l := l) (n := n'); try done.
  unfold _get_node. by rewrite Hparts, Hrootfs.
Qed.

Lemma mkdir_again_witness :
  mkdir "/docs" "bob" o755 (exec (mkdir "/docs" "alice" o777) (exec (create_user "bob") fs_alice))
  = (Ok tt, exec (mkdir "/docs" "alice" o777) (exec (create_user "bob") fs_alice)).
Proof.
  by apply (mkdir_again (exec (create_user "bob") fs_alice) _ "/docs" "alice" "bob" o777 o755).
Defined.

(** ** Listings, names and other paths *)

Section ListingNames.

Lemma list_dir_Ok_inv (fs fs' : FileSystem) (d u : string) (names : list string) :
  list_dir d u fs = (Ok names, fs') →
  ∃ node n entries,
    _get_node fs d = Ok node ∧ heap fs !! node = Some n
    ∧ body n = Directory entries ∧ denied n u r = false
    ∧ names = sorted_keys entries ∧ fs' = fs.
Proof.
  unfold list_dir. rewrite list_dir_shortcut.
  destruct (_get_node fs d) as [node|] eqn:Hg; [|done].
  destruct (heap fs !! node) as [n|] eqn:Hn; [|done].
  destruct (body n) as [|entries] eqn:Hb; [done|].
  destruct (denied n u r) eqn:Hd; [done|].
  intros [= <- <-]. by exists node, n, entries.
Qed.

Lemma get_node_snoc (fs : FileSystem) (d c : string) (node : loc) (n : Node) :
  component c → c ≠ ".." →
  _get_node fs d = Ok node → heap fs !! node = Some n →
  ∀ l, _get_node fs (d +:+ "/" +:+ c) = Ok l ↔ entries_of n !! c = Some l.
Proof.
  intros Hc Hdd Hd Hn l. unfold _get_node in *.
  rewrite (split_path_snoc d c Hc Hdd), walk_app.
  rewrite (walk_path_irrelevant fs d (d +:+ "/" +:+ c) _ _ _ Hd).
  cbn [walk]. rewrite Hn. unfold entries_of.
  destruct (body n) as [|entries]; [by rewrite lookup_empty|].
  destruct (entries !! c); split; congruence.
Qed.

Lemma listed_iff_resolves (fs fs' : FileSystem) (d u c : string)
    (names : list string) :
  component c → c ≠ ".." →
  list_dir d u fs = (Ok names, fs') →
  c ∈ names ↔ ∃ l, _get_node fs (d +:+ "/" +:+ c) = Ok l.
Proof.
  intros Hc Hdd (node & n & entries & Hd & Hn & Hb & _ & -> & _)%list_dir_Ok_inv.
  destruct (sorted_keys_spec entries) as (_ & _ & ->).
  rewrite <- (entries_of_directory _ _ Hb). unfold is_Some.
  by setoid_rewrite (get_node_snoc fs d c node n Hc Hdd Hd Hn).
Qed.

End ListingNames.

(** X13. A listing holds the names that resolve.  When [list_dir]
    returns for a directory path, a name is in the list exactly when
    the path followed by a separator and the name resolves to a
    node. *)
Theorem list_dir_names_resolve (fs fs' : FileSystem) (d u c : string)
    (names : list string) :
  component c → c ≠ ".." →
  list_dir d u fs = (Ok names, fs') →
  c ∈ names ↔ ∃ l, _get_node fs (d +:+ "/" +:+ c) = Ok l.
Proof. apply listed_iff_resolves. Qed.

Lemma list_dir_names_resolve_witness :
  "f" ∈ ["f"; "g"] ↔ ∃ l, _get_node fs_alice_f_g ("/" +:+ "/" +:+ "f") = Ok l.
Proof.
  by apply (list_dir_names_resolve fs_alice_f_g fs_alice_f_g "/" "alice" "f").
Defined.

Section CreatedListed.

Lemma mkdir_target (fs fs' : FileSystem) (path u : string) (m : Z) :
  _split_path path ≠ [] →
  mkdir path u m fs = (Ok tt, fs') →
  ∃ l, _get_node fs' path = Ok l.
Proof.
  intros Hne Hrun. unfold mkdir in Hrun.
  destruct (negb (registered fs u)); [done|].
  destruct (String.eqb path "/" || String.eqb path "") eqn:Hroot.
  { apply orb_true_iff in Hroot as [->%String.eqb_eq| ->%String.eqb_eq]; by destruct Hne. }
  destruct (mkdir_loop_ext _ _ _ _ _ _ Hrun) as (_ & _ & Hrootfs).
  assert (Hdir : ∃ n, heap fs !! root fs = Some n ∧ is_directory n = true).
  { destruct (_split_path path) as [|part rest]; [done|].
    apply mkdir_loop_Ok_inv in Hrun as (n & entries & Hn & Hb & _).
    exists n. split; [done|]. apply is_directory_body. eauto. }
  destruct (mkdir_loop_components u m path _ _ _ _ (_split_path path) [] Hrun Hdir)
    as (l & n' & Hw & _); [by rewrite app_nil_r|].
  exists l. unfold _get_node. by rewrite Hrootfs.
Qed.

End CreatedListed.

(** X14. What has been created is listed.  After [mkdir] or
    [write_file] has returned for a directory path followed by a
    separator and a name, every listing of that directory holds the
    name. *)
Theorem created_name_is_listed (fs fs' : FileSystem) (d c : string) :
  component c → c ≠ ".." →
  ((∃ u m, mkdir (d +:+ "/" +:+ c) u m fs = (Ok tt, fs'))
   ∨ (∃ u data m, write_file (d +:+ "/" +:+ c) u data m fs = (Ok tt, fs'))) →
  ∀ u' names fs'', list_dir d u' fs' = (Ok names, fs'') → c ∈ names.
Proof.
  intros Hc Hdd Hrun u' names fs'' Hlist.
  apply (listed_iff_resolves fs' fs'' d u' c names Hc Hdd Hlist).
  destruct Hrun as [(u & m & Hrun)|(u & data & m & Hrun)].
  - apply mkdir_target in Hrun; [done|].
    rewrite (split_path_snoc d c Hc Hdd). by destruct (_split_path d).
  - apply write_file_target in Hrun as (f & _ & ? & _). by exists f.
Qed.

Lemma created_name_is_listed_witness :
  list_dir "" "alice" fs_alice_f = (Ok ["f"], fs_alice_f) ∧ "f" ∈ ["f"].
Proof.
  split; [by vm_compute|].
  apply (created_name_is_listed fs_alice fs_alice_f "" "f"
           ltac:(by repeat split) ltac:(done)
           (or_intror (ex_intro _ "alice" (ex_intro _ (Bytes hello)
              (ex_intro _ o644 eq_refl))))
           "alice" ["f"] fs_alice_f).
  by vm_compute.
Defined.

(** ** Writing one file and reading another *)

Section WriteFrame.

Lemma created_file_keeps_files (fs : FileSystem) (parent : loc) (pn : Node)
    (nm username : string) (m : Z) (data : bytes) (l : loc) (n : Node) :
  heap fs !! parent = Some pn → is_directory pn = true →
  heap fs !! l = Some n → is_directory n = false →
  heap (created_file fs parent nm username m data) !! l = Some n.
Proof.
  intros Hpn Hpd Hl Hfile. unfold created_file. cbn [heap with_heap].
  rewrite lookup_alter_ne by (intros ->; congruence).
  rewrite lookup_insert_ne by by eapply new_loc_ne. done.
Qed.

Lemma closed_fs_alice_f : closed fs_alice_f.
Proof.
  change fs_alice_f
    with (call (WriteFile "/f" "alice" (Bytes hello) o644)
            (exec (create_user "alice") init)).2.
  apply call_closed, closed_create_user, closed_init.
Qed.

End WriteFrame.

(** X15. Writing a file leaves the other paths alone.  After
    [write_file] has returned, a path that resolved to a node other
    than the one the written path resolved to still resolves to that
    node, and [read_file] on it returns or raises what it did
    before. *)
Theorem write_file_leaves_other_paths (fs fs' : FileSystem) (path u : string)
    (data : Data) (m : Z) (q : string) (l : loc) :
  closed fs →
  write_file path u data m fs = (Ok tt, fs') →
  _get_node fs q = Ok l → _get_node fs path ≠ Ok l →
  _get_node fs' q = Ok l
  ∧ ∀ u', (read_file q u' fs').1 = (read_file q u' fs).1.
Proof.
  intros Hcl Hrun Hq Hne.
  pose proof (get_node_closed fs q Hcl) as Hin. rewrite Hq in Hin.
  destruct Hin as [n Hn].
  apply write_file_Ok_inv in Hrun
    as (_ & Hparts & parent & pn & entries & Hp & Hpn & Hpb & _
        & [(Hnone & ->)|(existing & ne & Hk & Hex & Hfile & _ & ->)]).
  - pose proof (created_file_ext _ _ _ _ _ u m (encode data) Hpn Hpb Hnone) as Hext.
    assert (Hq' : _get_node (created_file fs parent
                     (default "" (last (_split_path path))) u m (encode data)) q = Ok l)
      by (by apply (walk_ext fs)).
    split; [done|]. intros u'. unfold read_file. rewrite Hq', Hq, Hn.
    destruct (Hext l n Hn) as (n' & Hn' & Hnn).
    destruct (body n) as [content|e] eqn:Hb.
    + assert (Hfile : is_directory n = false) by (unfold is_directory; by rewrite Hb).
      assert (Hpd : is_directory pn = true) by (apply is_directory_body; eauto).
      rewrite (created_file_keeps_files fs parent pn _ u m (encode data) l n
                 Hpn Hpd Hn Hfile).
      rewrite Hb. by destruct (denied n u' r).
    + rewrite Hn'. destruct Hnn as (_ & _ & _ & Hbody). rewrite Hb in Hbody.
      by destruct Hbody as (e' & -> & _).
  - assert (Hl : l ≠ existing).
    { intros ->. apply Hne. apply get_node_iff_parent_entry; [done|].
      exists parent, pn. by rewrite (entries_of_directory _ _ Hpb). }
    assert (Hq' : _get_node (overwritten_file fs existing (encode data)) q = Ok l).
    { unfold _get_node. by rewrite walk_overwritten_file. }
    split; [done|]. intros u'. unfold read_file. rewrite Hq', Hq.
    unfold overwritten_file. cbn [heap with_heap].
    rewrite lookup_alter_ne by done. rewrite Hn.
    destruct (body n); [|done]. by destruct (denied n u' r).
Qed.

Lemma write_file_leaves_other_paths_witness :
  _get_node fs_alice_f_g "/f" = Ok 2%positive
  ∧ ∀ u', (read_file "/f" u' fs_alice_f_g).1 = (read_file "/f" u' fs_alice_f).1.
Proof.
  apply (write_file_leaves_other_paths fs_alice_f fs_alice_f_g "/g" "alice"
           (Bytes hello) o644 "/f" 2%positive); [apply closed_fs_alice_f|done..].
Defined.

(** ** The states a program reaches *)

Section Entries.

Lemma entry_linked_new (fs : FileSystem) (parent f : loc) (pn nf : Node)
    (nm : string) (l : loc) (k : string) (c : loc) :
  heap fs !! parent = Some pn → is_directory pn = true →
  heap fs !! f = None → entries_of nf = ∅ →
  entry (heap (linked_new fs parent f nf nm)) l k c
  → (l = parent ∧ k = nm ∧ c = f) ∨ entry (heap fs) l k c.
Proof.
  intros Hpn Hpd Hf Hnf (n & Hn & Hk).
  destruct (decide (l = parent)) as [->|Hlp].
  - rewrite (linked_new_lookup_parent fs parent f pn nf nm Hpn Hf) in Hn.
    simplify_eq. rewrite entries_of_set_entries, Hpd in Hk.
    apply lookup_insert_Some in Hk as [(<- & <-)|(? & Hk)]; [by left|].
    right. by exists pn.
  - destruct (decide (l = f)) as [->|Hlf].
    + rewrite (linked_new_lookup_new fs parent f pn nf nm Hpn Hf) in Hn.
      simplify_eq. by rewrite Hnf in Hk.
    + rewrite linked_new_lookup_other in Hn by done. right. by exists n.
Qed.

Lemma name_linked_new (fs : FileSystem) (parent f : loc) (pn nf : Node)
    (nm : string) (c : loc) (nc nc' : Node) :
  heap fs !! parent = Some pn → heap fs !! f = None →
  heap fs !! c = Some nc → heap (linked_new fs parent f nf nm) !! c = Some nc' →
  name nc' = name nc ∧ owner nc' = owner nc ∧ mode nc' = mode nc
  ∧ is_directory nc' = is_directory nc.
Proof.
  intros Hpn Hf Hc Hc'.
  destruct (decide (c = parent)) as [->|Hcp].
  - rewrite (linked_new_lookup_parent fs parent f pn nf nm Hpn Hf) in Hc'.
    assert (nc = pn) as -> by congruence. injection Hc' as <-.
    unfold set_entries, is_directory. by destruct (body pn) eqn:Hb; simpl; rewrite ?Hb.
  - rewrite linked_new_lookup_other in Hc' by congruence. by simplify_eq.
Qed.

Lemma well_linked_linked_new (fs : FileSystem) (parent f : loc) (pn nf : Node)
    (nm : string) :
  closed fs → well_linked fs →
  heap fs !! parent = Some pn → is_directory pn = true →
  heap fs !! f = None → entries_of nf = ∅ → name nf = nm →
  well_linked (linked_new fs parent f nf nm).
Proof.
  intros [_ Hlinks] (Hnamed & Hsingle & Hunentered & e & Hroot) Hpn Hpd Hf Hnf Hname.
  assert (Hold : ∀ l k, ¬ entry (heap fs) l k f).
  { intros l k (n & Hn & Hk). destruct (Hlinks _ _ _ _ Hn Hk) as [? ?]. congruence. }
  split; [|split; [|split]].
  - intros l k c nc' Hentry Hc'.
    apply (entry_linked_new fs parent f pn nf nm) in Hentry
      as [(-> & -> & ->)|Hentry]; try done.
    + rewrite (linked_new_lookup_new fs parent f pn nf nm Hpn Hf) in Hc'. by simplify_eq.
    + destruct Hentry as (n & Hn & Hk).
      destruct (Hlinks _ _ _ _ Hn Hk) as [nc Hc].
      destruct (name_linked_new fs parent f pn nf nm c nc nc' Hpn Hf Hc Hc') as [-> _].
      apply (Hnamed l k c nc); [by exists n|done].
  - intros l1 k1 l2 k2 c H1 H2.
    apply (entry_linked_new fs parent f pn nf nm) in H1
      as [(? & ? & ?)|H1]; try done;
      apply (entry_linked_new fs parent f pn nf nm) in H2
        as [(? & ? & ?)|H2]; try done; simplify_eq.
    + done.
    + by destruct (Hold _ _ H2).
    + by destruct (Hold _ _ H1).
    + by eapply Hsingle.
  - intros l k Hentry.
    apply (entry_linked_new fs parent f pn nf nm) in Hentry
      as [(-> & -> & Heq)|Hentry]; try done.
    + change (root (linked_new fs parent f nf nm)) with (root fs) in Heq. congruence.
    + by eapply Hunentered.
  - change (root (linked_new fs parent f nf nm)) with (root fs).
    destruct (decide (root fs = parent)) as [Heq|Hne].
    + rewrite Heq in *. rewrite (linked_new_lookup_parent fs parent f pn nf nm Hpn Hf).
      simplify_eq. by eexists.
    + rewrite linked_new_lookup_other by congruence. by exists e.
Qed.

Lemma well_linked_overwritten_file (fs : FileSystem) (existing : loc) (data : bytes) :
  well_linked fs → well_linked (overwritten_file fs existing data).
Proof.
  assert (Hentry : ∀ l k c, entry (heap (overwritten_file fs existing data)) l k c
                            → entry (heap fs) l k c).
  { intros l k c (n & Hn & Hk). unfold overwritten_file in Hn. cbn [heap with_heap] in Hn.
    apply lookup_alter_Some in Hn as [(-> & n0 & Hn0 & ->)|(? & Hn)].
    - rewrite entries_of_set_content in Hk. by exists n0.
    - by exists n. }
  intros (Hnamed & Hsingle & Hunentered & e & Hroot). split; [|split; [|split]].
  - intros l k c nc' He Hc'. apply Hentry in He.
    unfold overwritten_file in Hc'. cbn [heap with_heap] in Hc'.
    apply lookup_alter_Some in Hc' as [(-> & n0 & Hn0 & ->)|(? & Hc')].
    + assert (name (set_content data n0) = name n0) as ->
        by (unfold set_content; by destruct (body n0)).
      by eapply Hnamed.
    + by eapply Hnamed.
  - intros l1 k1 l2 k2 c H1%Hentry H2%Hentry. by eapply Hsingle.
  - intros l k He%Hentry. by eapply Hunentered.
  - exists e. unfold overwritten_file. cbn [heap with_heap root].
    destruct (decide (existing = root fs)) as [->|Hne].
    + by rewrite lookup_alter_eq, Hroot.
    + by rewrite lookup_alter_ne.
Qed.

Lemma entry_relink (fs : FileSystem) (sp s dp : loc) (spn dpn : Node)
    (sn dn : string) (l : loc) (k : string) (c : loc) :
  heap fs !! sp = Some spn → entries_of spn !! sn = Some s →
  heap fs !! dp = Some dpn → is_directory dpn = true →
  entry (relink sp sn s dp dn (heap fs)) l k c
  → (l = dp ∧ k = dn ∧ c = s)
    ∨ (entry (heap fs) l k c ∧ ¬ (l = sp ∧ k = sn)).
Proof.
  intros Hspn Hsn Hdpn Hdpd (n' & Hn' & Hk). rewrite relink_lookup in Hn'.
  destruct (heap fs !! l) as [n|] eqn:Hn; [|done]. cbn in Hn'. simplify_eq.
  rewrite (relink_entries fs sp s dp spn dpn sn dn Hspn Hsn Hdpn Hdpd l n k Hn) in Hk.
  case_decide as Hd.
  - left. destruct Hd as [<- ->]. by simplify_eq.
  - case_decide as Hs; [done|]. right. split; [by exists n|].
    intros [-> ->]. by apply Hs.
Qed.

Lemma name_set_entries (f : gmap string loc → gmap string loc) (n : Node) :
  name (set_entries f n) = name n.
Proof. unfold set_entries. by destruct (body n) eqn:Hb. Qed.

Lemma well_linked_relink (fs : FileSystem) (sp s dp : loc) (spn dpn : Node)
    (sn dn : string) :
  well_linked fs →
  heap fs !! sp = Some spn → entries_of spn !! sn = Some s →
  heap fs !! dp = Some dpn → is_directory dpn = true →
  well_linked (with_heap (relink sp sn s dp dn (heap fs)) fs).
Proof.
  intros (Hnamed & Hsingle & Hunentered & e & Hroot) Hspn Hsn Hdpn Hdpd.
  assert (Hmoved : entry (heap fs) sp sn s) by by exists spn.
  assert (Hsr : s ≠ root fs) by (intros ->; by eapply Hunentered).
  split; [|split; [|split]]; cbn [heap with_heap root].
  - intros l k c nc' Hentry Hc'. rewrite relink_lookup in Hc'.
    destruct (heap fs !! c) as [nc|] eqn:Hc; [|done]. cbn in Hc'. simplify_eq.
    apply (entry_relink fs sp s dp spn dpn) in Hentry
      as [(-> & -> & ->)|[Hentry Hne]]; try done.
    + unfold relink_node. rewrite (decide_True (P := s = s)) by done.
      by case_decide; rewrite ?name_set_entries.
    + assert (c ≠ s).
      { intros ->. destruct (Hsingle _ _ _ _ _ Hentry Hmoved). by apply Hne. }
      destruct (relink_node_attributes sp s dp sn dn c nc) as (_ & _ & _ & _ & Hnm).
      rewrite Hnm by done. by eapply Hnamed.
  - intros l1 k1 l2 k2 c H1 H2.
    apply (entry_relink fs sp s dp spn dpn) in H1
      as [(? & ? & ?)|[H1 Hne1]]; try done;
      apply (entry_relink fs sp s dp spn dpn) in H2
        as [(? & ? & ?)|[H2 Hne2]]; try done; simplify_eq.
    + done.
    + destruct (Hsingle _ _ _ _ _ H2 Hmoved). by destruct Hne2.
    + destruct (Hsingle _ _ _ _ _ H1 Hmoved). by destruct Hne1.
    + by eapply Hsingle.
  - intros l k Hentry.
    apply (entry_relink fs sp s dp spn dpn) in Hentry
      as [(-> & -> & Heq)|[Hentry _]]; try done.
    by eapply Hunentered.
  - rewrite relink_lookup, Hroot. cbn.
    unfold relink_node. rewrite (decide_False (P := s = root fs)) by done.
    unfold set_entries. repeat case_decide; simpl; by eexists.
Qed.

End Entries.

Section Reachable.

Lemma mkdir_loop_well_linked (parts : list string) (cur : loc) (username : string)
    (m : Z) (fs : FileSystem) :
  closed fs → well_linked fs →
  (∃ n, heap fs !! cur = Some n ∧ is_directory n = true) →
  well_linked (mkdir_loop parts cur username m fs).2.
Proof.
  revert cur fs.
  induction parts as [|part rest IH]; intros cur fs Hclosed Hwl (n & Hcur & Hd);
    simpl; [done|].
  rewrite (lookup_dir_directory fs cur n Hcur Hd).
  destruct (entries_of n !! part) as [node|] eqn:Hpart.
  - destruct (proj2 Hclosed _ _ _ _ Hcur Hpart) as [nd Hnd]. rewrite Hnd.
    destruct (is_directory nd) eqn:Hdd; [|done].
    apply IH; [done|done|by exists nd].
  - destruct (denied n username w); [done|].
    fold (created_dir fs cur part username m). apply IH.
    + by eapply closed_created_dir.
    + rewrite created_dir_linked_new.
      apply well_linked_linked_new with (pn := n); try done. apply new_loc_lookup.
    + eexists. split; [by eapply created_dir_lookup_new|done].
Qed.

Lemma call_well_linked (c : Call) (fs : FileSystem) :
  closed fs → well_linked fs → well_linked (call c fs).2.
Proof.
  intros Hclosed Hwl.
  destruct c as [path u m|path u data m|path u|path u|src dest u];
    unfold call; rewrite returning_state.
  - unfold mkdir. destruct (negb _); [done|]. destruct (_ || _); [done|].
    apply mkdir_loop_well_linked; [done|done|apply Hclosed].
  - destruct (write_file path u data m fs) as [[[]|e] fs'] eqn:Hrun; cbn [snd].
    + apply write_file_Ok_inv in Hrun
        as (_ & _ & parent & pn & entries & _ & Hpn & Hpb & _
            & [(Hnone & ->)|(existing & ne & _ & Hex & Hfile & _ & ->)]).
      * rewrite created_file_linked_new.
        apply well_linked_linked_new with (pn := pn); try done.
        -- apply is_directory_body; eauto.
        -- apply new_loc_lookup.
      * by apply well_linked_overwritten_file.
    + by rewrite (write_file_raise _ _ _ _ _ _ _ Hrun).
  - destruct (read_file path u fs) as [res fs'] eqn:Hrun; cbn [snd].
    by rewrite (read_file_state _ _ _ _ _ Hrun).
  - destruct (list_dir path u fs) as [res fs'] eqn:Hrun; cbn [snd].
    by rewrite (list_dir_state _ _ _ _ _ Hrun).
  - destruct (move src dest u fs) as [[[]|e] fs'] eqn:Hrun; cbn [snd].
    + apply move_Ok_iff in Hrun
        as (_ & _ & _ & sp & spn & s & dp & dpn & _ & Hspn & _ & Hs & _ & _
            & Hdpn & Hdpd & _ & _ & ->).
      by eapply well_linked_relink.
    + by rewrite (move_raise _ _ _ _ _ _ Hrun).
Qed.

Lemma well_linked_init : well_linked init.
Proof.
  assert (Hnone : ∀ l k c, ¬ entry (heap init) l k c).
  { intros l k c (n & Hn & Hk). unfold init in Hn. cbn [heap] in Hn.
    apply lookup_singleton_Some in Hn as [_ <-]. done. }
  split; [|split; [|split]].
  - intros l k c nc He. by destruct (Hnone _ _ _ He).
  - intros l1 k1 l2 k2 c He. by destruct (Hnone _ _ _ He).
  - intros l k He. by destruct (Hnone _ _ _ He).
  - by exists ∅.
Qed.

Lemma create_user_tree (username : string) (fs : FileSystem) :
  heap (exec (create_user username) fs) = heap fs
  ∧ root (exec (create_user username) fs) = root fs.
Proof. unfold exec, create_user. by case_bool_decide. Qed.

Lemma well_linked_create_user (username : string) (fs : FileSystem) :
  well_linked fs → well_linked (exec (create_user username) fs).
Proof.
  destruct (create_user_tree username fs) as [Hh Hr].
  unfold well_linked, root_apart. by rewrite Hh, Hr.
Qed.

(** What holds in every state a program reaches. *)
Lemma reachable_sound (fs : FileSystem) : reachable fs → closed fs ∧ well_linked fs.
Proof.
  induction 1 as [|username fs _ [Hc Hw]|c fs _ [Hc Hw]].
  - split; [apply closed_init|apply well_linked_init].
  - split; [by apply closed_create_user|by apply well_linked_create_user].
  - split; [by apply call_closed|by apply call_well_linked].
Qed.

Lemma reachable_fs_alice_f : reachable fs_alice_f.
Proof.
  change fs_alice_f
    with (exec (call (WriteFile "/f" "alice" (Bytes hello) o644))
            (exec (create_user "alice") init)).
  apply reachable_call, reachable_create_user, reachable_init.
Qed.

End Reachable.

(** X16. In every state a program reaches, the key of every entry is
    the name of the node it refers to, no node is entered twice, and
    the root is entered nowhere and is still the directory that
    [__init__] made, named [/], owned by [root] and with mode
    [0o777]. *)
Theorem reachable_well_linked (fs : FileSystem) :
  reachable fs →
  named_by_key (heap fs) ∧ single_link (heap fs) ∧ root_apart fs.
Proof. intros Hr. by destruct (reachable_sound fs Hr). Qed.

Lemma reachable_well_linked_witness :
  named_by_key (heap fs_alice_f) ∧ single_link (heap fs_alice_f) ∧ root_apart fs_alice_f.
Proof. apply (reachable_well_linked fs_alice_f), reachable_fs_alice_f. Defined.

(** X17. In every state a program reaches, the root is a directory
    and every entry refers to a node, so that no operation comes upon
    a missing object or reads the entries of a file: a call of
    [mkdir], [read_file], [list_dir] or [move], or of [write_file]
    with [bytes], returns or raises one of the exceptions of the
    module.  Nothing is said of [write_file] with a [str], where
    [data.encode()] can raise as well. *)
Theorem reachable_never_faults (fs : FileSystem) :
  reachable fs →
  closed fs
  ∧ ∀ c, match c with
         | WriteFile _ _ (Str _) _ => True
         | _ =>
             match (call c fs).1 with
             | Ok _ => True
             | Raise e =>
                 (∃ msg, e = FsError msg) ∨ (∃ msg, e = FsPermissionError msg)
                 ∨ (∃ path, e = FileNotFoundError path)
             end
         end.
Proof.
  intros Hr. destruct (reachable_sound fs Hr) as [Hc _]. split; [done|]. intros c.
  assert (Hcall : match (call c fs).1 with
                  | Ok _ => True
                  | Raise e =>
                      (∃ msg, e = FsError msg) ∨ (∃ msg, e = FsPermissionError msg)
                      ∨ (∃ path, e = FileNotFoundError path)
                  end).
  { destruct (call_closed c fs Hc) as [Hf _].
    destruct (call c fs).1 as [v|[msg|msg|path|]]; eauto. done. }
  by destruct c as [| ? ? [|] ?| | |].
Qed.

Lemma reachable_never_faults_witness :
  closed fs_alice_f
  ∧ ∀ c, match c with
         | WriteFile _ _ (Str _) _ => True
         | _ =>
             match (call c fs_alice_f).1 with
             | Ok _ => True
             | Raise e =>
                 (∃ msg, e = FsError msg) ∨ (∃ msg, e = FsPermissionError msg)
                 ∨ (∃ path, e = FileNotFoundError path)
             end
         end.
Proof. apply (reachable_never_faults fs_alice_f), reachable_fs_alice_f. Defined.



(** ** Where a move takes a node *)

Section Relocation.

Context (fs : FileSystem) (sp s dp : loc) (spn dpn ns : Node) (sn dn : string)
  (Psp Pdp : list string).
Hypothesis Hclosed : closed fs.
Hypothesis Htree : rooted_tree fs.
Hypothesis Hspn : heap fs !! sp = Some spn.
Hypothesis Hsn : entries_of spn !! sn = Some s.
Hypothesis Hns : heap fs !! s = Some ns.
Hypothesis Hdpn : heap fs !! dp = Some dpn.
Hypothesis Hdpd : is_directory dpn = true.
Hypothesis Hdn : entries_of dpn !! dn = None.
Hypothesis HPsp : reaches fs Psp sp.
Hypothesis HPdp : reaches fs Pdp dp.
Hypothesis Hgood : ∀ q, follow (heap fs) s q ≠ Some dp.

Local Abbreviation fs' := (with_heap (relink sp sn s dp dn (heap fs)) fs).

Lemma moved_not_parents : s ≠ sp ∧ s ≠ dp.
Proof.
  split; intros ->.
  - by apply (src_parent_not_below fs sp sp spn sn Psp Hclosed Htree Hspn Hsn HPsp []).
  - by apply (Hgood []).
Qed.

Lemma moved_node : heap fs' !! s = Some (set_name dn ns).
Proof.
  destruct moved_not_parents as [Hsp Hdp]. cbn [heap with_heap].
  rewrite relink_lookup, Hns. cbn. unfold relink_node.
  rewrite (decide_False (P := sp = s)), (decide_True (P := s = s)),
    (decide_False (P := dp = s)); done.
Qed.

Lemma moved_reached : reaches fs' (Pdp ++ [dn]) s.
Proof.
  apply (reaches_relinked fs sp s dp spn dpn sn dn Psp Pdp); try done.
  right. by exists [].
Qed.

Lemma source_gone (l : loc) : ¬ reaches fs' (Psp ++ [sn]) l.
Proof.
  intros [[_ Hpre]|(q & Heq & _)]%(reaches_relinked fs sp s dp spn dpn sn dn Psp Pdp);
    try done.
  pose proof (moved_chain fs sp s spn sn Psp Hspn Hsn HPsp) as Hchain.
  rewrite Heq, (assoc_L _ Pdp [dn] q : Pdp ++ dn :: q = (Pdp ++ [dn]) ++ q) in Hchain.
  rewrite !follow_app in Hchain.
  apply reaches_follow in HPdp. rewrite HPdp in Hchain. cbn in Hchain.
  by rewrite Hdpn, Hdn in Hchain.
Qed.

Lemma below_moved (q : list string) :
  follow (heap fs') s q = follow (heap fs) s q.
Proof.
  by apply (follow_relinked_below fs sp s dp spn dpn sn dn Psp) with (q0 := []).
Qed.

Lemma parents_reached : reaches fs' Psp sp ∧ reaches fs' Pdp dp.
Proof.
  split; apply (reaches_relinked fs sp s dp spn dpn sn dn Psp Pdp); try done; left.
  - split; [done|]. intros [k Hk]. apply (f_equal length) in Hk.
    rewrite !length_app in Hk. simpl in Hk. lia.
  - split; [done|].
    apply (dest_parent_outside fs sp s dp spn sn Psp Pdp Hspn Hsn HPsp HPdp Hgood).
Qed.

Lemma src_parent_directory : is_directory spn = true.
Proof.
  unfold entries_of, is_directory in *. by destruct (body spn).
Qed.

Lemma relinked_dest_parent :
  ∃ dpn', heap fs' !! dp = Some dpn' ∧ is_directory dpn' = true
          ∧ owner dpn' = owner dpn ∧ mode dpn' = mode dpn
          ∧ entries_of dpn' !! dn = Some s.
Proof.
  exists (relink_node sp sn s dp dn dp dpn). cbn [heap with_heap].
  rewrite relink_lookup, Hdpn.
  destruct (relink_node_attributes sp s dp sn dn dp dpn) as (Ho & Hm & Hd & _).
  rewrite Ho, Hm, Hd. repeat split; try done.
  rewrite (relink_entries fs sp s dp spn dpn sn dn Hspn Hsn Hdpn Hdpd dp dpn dn Hdpn).
  by rewrite decide_True.
Qed.

Lemma relinked_src_parent :
  ∃ spn', heap fs' !! sp = Some spn' ∧ is_directory spn' = true
          ∧ owner spn' = owner spn ∧ mode spn' = mode spn
          ∧ entries_of spn' !! sn = None.
Proof.
  exists (relink_node sp sn s dp dn sp spn). cbn [heap with_heap].
  rewrite relink_lookup, Hspn.
  destruct (relink_node_attributes sp s dp sn dn sp spn) as (Ho & Hm & Hd & _).
  rewrite Ho, Hm, Hd, src_parent_directory. repeat split; try done.
  rewrite (relink_entries fs sp s dp spn dpn sn dn Hspn Hsn Hdpn Hdpd sp spn sn Hspn).
  rewrite decide_False, decide_True; try done.
  intros [-> ->]. rewrite Hspn in Hdpn. by simplify_eq.
Qed.

Lemma relink_node_back (l : loc) (n : Node) :
  name ns = sn → heap fs !! l = Some n →
  relink_node dp dn s sp sn l (relink_node sp sn s dp dn l n) = n.
Proof.
  intros Hname Hl. destruct moved_not_parents as [Hsp Hdp].
  pose proof src_parent_directory as Hspd.
  unfold relink_node.
  destruct (decide (s = l)) as [<-|Hsl].
  - rewrite !(decide_False (P := sp = s)), !(decide_False (P := dp = s)) by done.
    assert (n = ns) as -> by congruence. destruct ns. simpl in *. by subst.
  - destruct (decide (sp = l)) as [Hspl|Hspl]; destruct (decide (dp = l)) as [Hdpl|Hdpl];
      [subst l; assert (n = spn) as -> by congruence
      |subst l; assert (n = spn) as -> by congruence
      |subst l; assert (n = dpn) as -> by congruence
      |done].
    + assert (dpn = spn) as -> by congruence.
      unfold entries_of, is_directory, set_entries in *.
      destruct spn as [nm o md [c|e]]; simpl in *; [done|].
      do 2 f_equal. rewrite delete_insert_id by by rewrite lookup_delete_ne by congruence.
      by apply insert_delete_id.
    + unfold entries_of, is_directory, set_entries in *.
      destruct spn as [nm o md [c|e]]; simpl in *; [done|].
      do 2 f_equal. by apply insert_delete_id.
    + unfold entries_of, is_directory, set_entries in *.
      destruct dpn as [nm o md [c|e]]; simpl in *; [done|].
      do 2 f_equal. by apply delete_insert_id.
Qed.

Lemma relink_back :
  name ns = sn →
  relink dp dn s sp sn (relink sp sn s dp dn (heap fs)) = heap fs.
Proof.
  intros Hname. apply map_eq. intros l. rewrite !relink_lookup.
  destruct (heap fs !! l) as [n|] eqn:Hl; [|done]. cbn.
  by rewrite relink_node_back.
Qed.

End Relocation.

Section MoveOutcome.

Lemma walk_outcome (fs : FileSystem) (p : string) (cur : loc) (parts : list string) :
  match walk fs p cur parts with
  | Ok _ => True
  | Raise e => e = FileNotFoundError p ∨ e = Fault
  end.
Proof.
  revert cur. induction parts as [|part rest IH]; intros cur; cbn [walk]; [done|].
  destruct (heap fs !! cur) as [n|]; [|by right].
  destruct (body n) as [|entries]; [by left|].
  destruct (entries !! part); [apply IH|by left].
Qed.

Lemma get_parent_dir_chain (fs : FileSystem) (path : string) (parent : loc) :
  _split_path path ≠ [] → _get_parent_dir fs path = Ok parent →
  reaches fs (removelast (_split_path path)) parent.
Proof.
  intros Hne [Hw _]%get_parent_dir_Ok; [|done].
  by apply walk_path_irrelevant with (p1 := path).
Qed.

Lemma denied_same (n n' : Node) (u : string) (p : Perm) :
  owner n' = owner n → mode n' = mode n → denied n' u p = denied n u p.
Proof. unfold denied, _check_perm. by intros -> ->. Qed.

(** What a [move] that returned has done, when the destination
    directory is outside the moved subtree. *)
Lemma move_outcome (fs fs' : FileSystem) (src_path dest_path u : string) :
  closed fs → rooted_tree fs →
  moves_outside fs (Move src_path dest_path u) →
  move src_path dest_path u fs = (Ok tt, fs') →
  let sn := default "" (last (_split_path src_path)) in
  let dn := default "" (last (_split_path dest_path)) in
  ∃ sp spn s ns dp dpn,
    registered fs u = true
    ∧ _split_path src_path ≠ [] ∧ _split_path dest_path ≠ []
    ∧ heap fs !! sp = Some spn ∧ entries_of spn !! sn = Some s
    ∧ heap fs !! s = Some ns
    ∧ heap fs !! dp = Some dpn ∧ is_directory dpn = true
    ∧ entries_of dpn !! dn = None
    ∧ denied spn u w = false ∧ denied dpn u w = false
    ∧ reaches fs (removelast (_split_path src_path)) sp
    ∧ reaches fs (removelast (_split_path dest_path)) dp
    ∧ (∀ q, follow (heap fs) s q ≠ Some dp)
    ∧ fs' = with_heap (relink sp sn s dp dn (heap fs)) fs.
Proof.
  intros Hclosed Htree Hout Hrun sn dn.
  apply move_Ok_iff in Hrun
    as (Hreg & Hsrc & Hdest & sp & spn & s & dp & dpn & Hsp & Hspn & Hspd & Hs & Hsd
        & Hdp & Hdpn & Hdpd & Hdd & Hd & ->).
  destruct (proj2 Hclosed _ _ _ _ Hspn Hs) as [ns Hns].
  exists sp, spn, s, ns, dp, dpn. repeat split; try done.
  - by apply get_parent_dir_chain.
  - by apply get_parent_dir_chain.
  - intros q. by apply (Hout sp spn s dp q).
Qed.

End MoveOutcome.

(** X19. Where a move takes a node.  When the destination directory
    is not the moved node nor below it and [move] returns, the
    destination path resolves to the node the source path resolved
    to; the node has the last component of the destination as its
    name and is otherwise as it was, with everything below it under
    the same names; and the source path resolves no more. *)
Theorem move_relocates (fs fs' : FileSystem) (src_path dest_path u : string) :
  closed fs → rooted_tree fs →
  moves_outside fs (Move src_path dest_path u) →
  move src_path dest_path u fs = (Ok tt, fs') →
  ∃ s ns,
    _get_node fs src_path = Ok s ∧ heap fs !! s = Some ns
    ∧ _get_node fs' dest_path = Ok s
    ∧ heap fs' !! s
      = Some (mkNode (default "" (last (_split_path dest_path)))
                (owner ns) (mode ns) (body ns))
    ∧ _get_node fs' src_path = Raise (FileNotFoundError src_path)
    ∧ ∀ q, follow (heap fs') s q = follow (heap fs) s q.
Proof.
  intros Hclosed Htree Hout Hrun.
  destruct (move_outcome fs fs' src_path dest_path u Hclosed Htree Hout Hrun)
    as (sp & spn & s & ns & dp & dpn & Hreg & Hsrc & Hdest & Hspn & Hs & Hns & Hdpn
        & Hdpd & Hd & Hsd & Hdd & HPsp & HPdp & Hgood & ->).
  exists s, ns. split; [|split; [done|split; [|split; [|split]]]].
  - apply get_node_iff_parent_entry; [done|]. exists sp, spn. split; [|done].
    apply get_parent_dir_Ok; [done|]. split.
    + by apply walk_path_irrelevant with (p1 := "").
    + exists spn. split; [done|]. by eapply src_parent_directory.
  - assert (Hr : reaches
                   (with_heap
                      (relink sp (default "" (last (_split_path src_path))) s dp
                         (default "" (last (_split_path dest_path))) (heap fs)) fs)
                   (removelast (_split_path dest_path)
                    ++ [default "" (last (_split_path dest_path))]) s)
      by (eapply moved_reached; eauto).
    rewrite <- (parts_snoc _ Hdest) in Hr.
    by apply walk_path_irrelevant with (p1 := "").
  - erewrite moved_node; eauto.
  - assert (Hcl' : closed (with_heap
               (relink sp (default "" (last (_split_path src_path))) s dp
                  (default "" (last (_split_path dest_path))) (heap fs)) fs))
      by (apply closed_relink; [done|by eexists]).
    pose proof (get_node_closed _ src_path Hcl') as Hnf.
    destruct (_get_node _ src_path) as [l|e] eqn:Hget.
    + exfalso.
      assert (Hgone : ¬ reaches
                   (with_heap
                      (relink sp (default "" (last (_split_path src_path))) s dp
                         (default "" (last (_split_path dest_path))) (heap fs)) fs)
                   (removelast (_split_path src_path)
                    ++ [default "" (last (_split_path src_path))]) l)
        by (eapply source_gone; eauto).
      rewrite <- (parts_snoc _ Hsrc) in Hgone. apply Hgone.
      by apply walk_path_irrelevant with (p1 := src_path).
    + unfold _get_node in Hget.
      pose proof (walk_outcome
                    (with_heap
                       (relink sp (default "" (last (_split_path src_path))) s dp
                          (default "" (last (_split_path dest_path))) (heap fs)) fs)
                    src_path (root fs) (_split_path src_path)) as Hout'.
      cbn [root with_heap] in Hget. rewrite Hget in Hout'.
      by destruct Hout' as [->| ->].
  - intros q.
    eapply below_moved; eauto.
Qed.

Section ExampleTree.

Lemma rooted_tree_fs_alice_f : rooted_tree fs_alice_f.
Proof.
  assert (Hreach : ∀ parts l, reaches fs_alice parts l → parts = [] ∧ l = 1%positive).
  { intros parts l.
    by apply (reaches_from_empty_root fs_alice (mkNode "/" "root" o777 (Directory ∅))). }
  assert (Htree : rooted_tree fs_alice).
  { split.
    - intros parts Hr. by destruct (Hreach _ _ Hr).
    - intros l Hl Hne. unfold fs_alice in Hl, Hne.
      destruct (create_user_tree "alice" init) as [Hh Hr]. rewrite Hh in Hl.
      rewrite Hr in Hne. simpl in *. apply lookup_singleton_is_Some in Hl. congruence. }
  apply (write_file_tree "/f" "alice" (Bytes hello) o644 fs_alice); [|done].
  apply closed_create_user, closed_init.
Qed.

Lemma moves_outside_f_g : moves_outside fs_alice_f (Move "/f" "/g" "alice").
Proof.
  intros sp spn s dp q Hsp Hspn Hs Hdp.
  assert (sp = 1%positive) as -> by (vm_compute in Hsp; congruence).
  assert (dp = 1%positive) as -> by (vm_compute in Hdp; congruence).
  assert (spn = mkNode "/" "root" o777 (Directory {["f" := 2%positive]})) as ->
    by (vm_compute in Hspn; vm_compute; congruence).
  assert (s = 2%positive) as -> by (vm_compute in Hs; congruence).
  destruct q; vm_compute; congruence.
Qed.

End ExampleTree.

(** X20. There and back.  In a state that is a tree and in which
    nodes are named by their keys, when the destination directory is
    not the moved node nor below it and [move] returns, the same user
    moving the destination back to the source returns as well, and
    the state is again what it was. *)
Theorem move_there_and_back (fs fs' : FileSystem) (src_path dest_path u : string) :
  closed fs → rooted_tree fs → named_by_key (heap fs) →
  moves_outside fs (Move src_path dest_path u) →
  move src_path dest_path u fs = (Ok tt, fs') →
  move dest_path src_path u fs' = (Ok tt, fs).
Proof.
  intros Hclosed Htree Hnamed Hout Hrun.
  destruct (move_outcome fs fs' src_path dest_path u Hclosed Htree Hout Hrun)
    as (sp & spn & s & ns & dp & dpn & Hreg & Hsrc & Hdest & Hspn & Hs & Hns & Hdpn
        & Hdpd & Hd & Hsd & Hdd & HPsp & HPdp & Hgood & ->).
  set (sn := default "" (last (_split_path src_path))) in *.
  set (dn := default "" (last (_split_path dest_path))) in *.
  assert (Hname : name ns = sn).
  { apply (Hnamed sp sn s ns); [by exists spn|done]. }
  destruct (parents_reached fs sp s dp spn dpn sn dn
              (removelast (_split_path src_path)) (removelast (_split_path dest_path)))
    as [HPsp' HPdp']; try done.
  assert (∃ dpn', heap (with_heap (relink sp sn s dp dn (heap fs)) fs) !! dp = Some dpn'
                  ∧ is_directory dpn' = true ∧ owner dpn' = owner dpn
                  ∧ mode dpn' = mode dpn ∧ entries_of dpn' !! dn = Some s)
    as (dpn' & Hdpn' & Hdpd' & Hdo & Hdm & Hdn')
    by (eapply relinked_dest_parent; eauto).
  assert (∃ spn', heap (with_heap (relink sp sn s dp dn (heap fs)) fs) !! sp = Some spn'
                  ∧ is_directory spn' = true ∧ owner spn' = owner spn
                  ∧ mode spn' = mode spn ∧ entries_of spn' !! sn = None)
    as (spn' & Hspn' & Hspd' & Hso & Hsm & Hsn')
    by (eapply relinked_src_parent; eauto).
  apply move_Ok_iff. do 3 (split; [done|]).
  exists dp, dpn', s, sp, spn'. fold sn dn.
  split; [|split; [done|split; [done|split; [done|split;
    [by rewrite (denied_same dpn dpn')|split; [|split; [done|split; [done|split;
    [by rewrite (denied_same spn spn')|split; [done|]]]]]]]]]].
  - apply get_parent_dir_Ok; [done|]. split; [|by exists dpn'].
    by apply walk_path_irrelevant with (p1 := "").
  - apply get_parent_dir_Ok; [done|]. split; [|by exists spn'].
    by apply walk_path_irrelevant with (p1 := "").
  - cbn [heap with_heap].
    erewrite (relink_back fs sp s dp spn dpn ns sn dn); eauto.
    by destruct fs.
Qed.

Lemma move_there_and_back_witness :
  move "/g" "/f" "alice" (exec (move "/f" "/g" "alice") fs_alice_f) = (Ok tt, fs_alice_f).
Proof.
  apply (move_there_and_back fs_alice_f _ "/f" "/g" "alice");
    [apply closed_fs_alice_f|apply rooted_tree_fs_alice_f
    |apply (reachable_sound fs_alice_f reachable_fs_alice_f)
    |apply moves_outside_f_g|by vm_compute].
Defined.

Lemma move_relocates_witness :
  ∃ s ns,
    _get_node fs_alice_f "/f" = Ok s ∧ heap fs_alice_f !! s = Some ns
    ∧ _get_node (exec (move "/f" "/g" "alice") fs_alice_f) "/g" = Ok s
    ∧ heap (exec (move "/f" "/g" "alice") fs_alice_f) !! s
      = Some (mkNode (default "" (last (_split_path "/g")))
                (owner ns) (mode ns) (body ns))
    ∧ _get_node (exec (move "/f" "/g" "alice") fs_alice_f) "/f"
      = Raise (FileNotFoundError "/f")
    ∧ ∀ q, follow (heap (exec (move "/f" "/g" "alice") fs_alice_f)) s q
           = follow (heap fs_alice_f) s q.
Proof.
  apply (move_relocates fs_alice_f _ "/f" "/g" "alice");
    [apply closed_fs_alice_f|apply rooted_tree_fs_alice_f
    |apply moves_outside_f_g|by vm_compute].
Defined.

(** X21. The tree stays a tree.  From a state without dangling
    entries in which every node but the root is reached from the root
    by exactly one chain of names, every call leaves such a state,
    provided that the destination directory of a [move] is not the
    moved node nor below it. *)
Theorem calls_keep_the_tree (c : Call) (fs : FileSystem) :
  closed fs → rooted_tree fs → moves_outside fs c →
  closed (exec (call c) fs) ∧ rooted_tree (exec (call c) fs).
Proof.
  intros Hclosed Htree Hout. split.
  - by apply call_closed.
  - by apply call_keeps_tree.
Qed.

Lemma calls_keep_the_tree_witness :
  closed (exec (call (Move "/f" "/g" "alice")) fs_alice_f)
  ∧ rooted_tree (exec (call (Move "/f" "/g" "alice")) fs_alice_f).
Proof.
  apply (calls_keep_the_tree (Move "/f" "/g" "alice") fs_alice_f);
    [apply closed_fs_alice_f|apply rooted_tree_fs_alice_f|apply moves_outside_f_g].
Defined.

(** ** Relative paths *)

Section Relative.

Lemma last_is_dotdot_app_clean (pre st : list string) :
  st ≠ [] → Forall clean st → last_is_dotdot (pre ++ st) = false.
Proof.
  intros Hne Hall. unfold last_is_dotdot.
  destruct (exists_last Hne) as (st' & c & ->). rewrite app_assoc, last_snoc.
  apply Forall_app in Hall as [_ Hc]. inversion Hc as [|? ? (_ & _ & Hdd) _]; subst.
  by apply String.eqb_neq.
Qed.

Lemma last_is_dotdot_replicate (n : nat) :
  last_is_dotdot (replicate (S n) "..") = true.
Proof.
  unfold last_is_dotdot. replace (S n) with (n + 1)%nat by lia.
  rewrite replicate_add. cbn [replicate]. by rewrite last_snoc.
Qed.

(** One step on a relative path and on the absolute path with the
    same components: the stacks differ by the [..] kept in front. *)
Lemma norm_step_relative (n : nat) (st : list string) (c : string) :
  Forall clean st →
  ∃ n', norm_step 0 (replicate n ".." ++ st) c
        = replicate n' ".." ++ norm_step 1 st c.
Proof.
  intros Hall. unfold norm_step.
  destruct (String.eqb c "" || String.eqb c "."); [by exists n|].
  destruct (String.eqb_spec c "..") as [->|Hc]; cbn [negb orb andb Nat.eqb].
  - destruct st as [|a st].
    + rewrite app_nil_r. rewrite (bool_decide_eq_false_2 (@nil string ≠ [])) by by intros ?.
      cbn [negb orb andb]. destruct n as [|n].
      * exists 1%nat. by rewrite bool_decide_eq_false_2 by by intros ?.
      * exists (S (S n)). rewrite bool_decide_eq_true_2 by done.
        rewrite last_is_dotdot_replicate. cbn [negb orb andb].
        rewrite app_nil_r. replace (S (S n)) with (S n + 1)%nat by lia.
        by rewrite replicate_add.
    + exists n.
      rewrite (bool_decide_eq_true_2 (replicate n ".." ++ a :: st ≠ []))
        by by destruct n.
      rewrite (bool_decide_eq_true_2 (a :: st ≠ [])) by done.
      rewrite last_is_dotdot_app_clean, (last_is_dotdot_clean (a :: st)) by done.
      cbn [negb orb andb]. by rewrite removelast_app.
  - exists n. by rewrite app_assoc.
Qed.

Lemma norm_fold_relative (comps : list string) (n : nat) (st : list string) :
  Forall clean st → Forall (λ c, sep_free c = true) comps →
  ∃ n', fold_left (norm_step 0) comps (replicate n ".." ++ st)
        = replicate n' ".." ++ fold_left (norm_step 1) comps st.
Proof.
  revert n st. induction comps as [|c comps IH]; intros n st Hall Hcomps; cbn [fold_left].
  - by exists n.
  - inversion Hcomps as [|? ? Hc Hrest]; subst.
    destruct (norm_step_relative n st c Hall) as [n' ->].
    apply IH; [by apply norm_step_clean|done].
Qed.

Lemma split_path_relative (p : string) :
  ¬ absolute p →
  ∃ n, _split_path p = replicate n ".." ++ _split_path ("/" +:+ p).
Proof.
  intros Hrel. rewrite (split_path_norm ("/" +:+ p)) by by right.
  rewrite split_path_fold. unfold norm_comps.
  assert (initial_slashes p = 0%nat) as ->.
  { unfold initial_slashes, absolute in *. by destruct (startswith "/" p). }
  change ("/" +:+ p) with (String sep p). cbn [split]. rewrite Ascii.eqb_refl.
  cbn [fold_left]. change (norm_step 1 [] "") with (@nil string).
  apply (norm_fold_relative (split p) 0 []); [done|apply split_sep_free].
Qed.

End Relative.

(** X22. A relative path is resolved from the root, like the absolute
    path with the same components; only the [..] that would climb
    above the start of a relative path are kept, as names, in front.
    A relative path that splits without [..] therefore splits, and
    resolves, as the path with a separator in front. *)
Theorem relative_path_from_root (p : string) :
  ¬ absolute p →
  (∃ n, _split_path p = replicate n ".." ++ _split_path ("/" +:+ p))
  ∧ (".." ∉ _split_path p →
     _split_path p = _split_path ("/" +:+ p)
     ∧ ∀ fs l, _get_node fs p = Ok l ↔ _get_node fs ("/" +:+ p) = Ok l).
Proof.
  intros Hrel. destruct (split_path_relative p Hrel) as [n Hn].
  split; [by exists n|]. intros Hdd.
  assert (Heq : _split_path p = _split_path ("/" +:+ p)).
  { destruct n as [|n]; [done|]. destruct Hdd. rewrite Hn. by left. }
  split; [done|]. intros fs l. by apply get_node_same_parts.
Qed.

Lemma relative_path_from_root_witness :
  (∃ n, _split_path "a/../../b" = replicate n ".." ++ _split_path ("/" +:+ "a/../../b"))
  ∧ (".." ∉ _split_path "a/../../b" →
     _split_path "a/../../b" = _split_path ("/" +:+ "a/../../b")
     ∧ ∀ fs l, _get_node fs "a/../../b" = Ok l
               ↔ _get_node fs ("/" +:+ "a/../../b") = Ok l).
Proof. apply (relative_path_from_root "a/../../b"). by intros ?. Defined.

(** ** The bits the permission check reads *)

(** X23. The permission check reads the owner's and the others'
    triplets and nothing else: two modes that agree on the bits of
    [0o707] give the same answer for every user and permission.  The
    group triplet has no effect. *)
Theorem check_perm_ignores_group (n n' : Node) (u : string) (p : Perm) :
  owner n' = owner n →
  Z.land (mode n') 455 = Z.land (mode n) 455 →
  _check_perm n' u p = _check_perm n u p ∧ denied n' u p = denied n u p.
Proof.
  intros Ho Hm.
  assert (Hc : _check_perm n' u p = _check_perm n u p).
  { rewrite !check_perm_testbit. unfold triplet_shift. rewrite Ho.
    assert (Hbit : ∀ i, Z.testbit 455 i = true →
                        Z.testbit (mode n') i = Z.testbit (mode n) i).
    { intros i Hi. apply (f_equal (λ z, Z.testbit z i)) in Hm.
      by rewrite !Z.land_spec, Hi, !andb_true_r in Hm. }
    apply Hbit. by destruct (String.eqb u (owner n)), p. }
  split; [done|]. unfold denied. by rewrite Hc, Ho.
Qed.

Lemma check_perm_ignores_group_witness :
  _check_perm (mkNode "d" "alice" 453 (Directory ∅)) "bob" w
  = _check_perm (mkNode "d" "alice" o755 (Directory ∅)) "bob" w
  ∧ denied (mkNode "d" "alice" 453 (Directory ∅)) "bob" w
    = denied (mkNode "d" "alice" o755 (Directory ∅)) "bob" w.
Proof.
  by apply (check_perm_ignores_group (mkNode "d" "alice" o755 (Directory ∅))
              (mkNode "d" "alice" 453 (Directory ∅)) "bob" w).
Defined.

(** ** What a move asks for *)

Section MoveChecks.

Context (g : Node → Node) (Hg : ∀ n, body (g n) = body n).

Lemma get_parent_dir_restamp (fs : FileSystem) (path : string) :
  _get_parent_dir (restamp g fs) path = _get_parent_dir fs path.
Proof.
  unfold _get_parent_dir. cbv zeta.
  change (root (restamp g fs)) with (root fs). rewrite walk_restamp by done.
  case_bool_decide; [done|].
  destruct (walk fs path (root fs) (removelast (_split_path path))) as [cur|]; [|done].
  cbn [restamp with_heap heap]. rewrite lookup_fmap.
  destruct (heap fs !! cur) as [n|]; [|done]. cbn [fmap option_fmap option_map].
  by rewrite (is_directory_same_body n (g n)).
Qed.

Lemma lookup_dir_restamp (fs : FileSystem) (l : loc) :
  lookup_dir (restamp g fs) l
  = match lookup_dir fs l with
    | Ok (n, e) => Ok (g n, e)
    | Raise e => Raise e
    end.
Proof.
  unfold lookup_dir. cbn [restamp with_heap heap]. rewrite lookup_fmap.
  destruct (heap fs !! l) as [n|]; [|done]. cbn [fmap option_fmap option_map].
  rewrite Hg. by destruct (body n).
Qed.

End MoveChecks.

(** X24. A move asks for nothing but write permission on the two
    parent directories.  Whatever owner, mode and name the other
    nodes have, the moved node among them, [move] returns or raises
    the same: neither ownership of the moved node nor any permission
    on it is checked. *)
Theorem move_checks_only_the_parents (g : Node → Node) (fs : FileSystem)
    (src_path dest_path u : string) :
  (∀ n, body (g n) = body n) →
  (∀ path parent n,
     path = src_path ∨ path = dest_path →
     _get_parent_dir fs path = Ok parent → heap fs !! parent = Some n →
     owner (g n) = owner n ∧ mode (g n) = mode n) →
  (move src_path dest_path u (restamp g fs)).1 = (move src_path dest_path u fs).1.
Proof.
  intros Hg Hparents. unfold move.
  change (registered (restamp g fs) u) with (registered fs u).
  destruct (registered fs u); [|done]. cbn [negb]. cbv zeta.
  case_bool_decide; [done|].
  rewrite get_parent_dir_restamp by done.
  destruct (_get_parent_dir fs src_path) as [sp|] eqn:Hsp; [|done].
  rewrite lookup_dir_restamp by done.
  destruct (lookup_dir fs sp) as [[spn se]|] eqn:Hspn; [|done].
  apply lookup_dir_Ok in Hspn as [Hspn _].
  destruct (se !! default "" (last (_split_path src_path))); [|done].
  destruct (Hparents src_path sp spn (or_introl eq_refl) Hsp Hspn) as [Hso Hsm].
  rewrite (denied_same spn (g spn) u w Hso Hsm).
  destruct (denied spn u w); [done|].
  case_bool_decide; [done|].
  rewrite get_parent_dir_restamp by done.
  destruct (_get_parent_dir fs dest_path) as [dp|] eqn:Hdp; [|done].
  rewrite lookup_dir_restamp by done.
  destruct (lookup_dir fs dp) as [[dpn de]|] eqn:Hdpn; [|done].
  apply lookup_dir_Ok in Hdpn as [Hdpn _].
  destruct (Hparents dest_path dp dpn (or_intror eq_refl) Hdp Hdpn) as [Hdo Hdm].
  rewrite (denied_same dpn (g dpn) u w Hdo Hdm).
  destruct (denied dpn u w); [done|].
  by destruct (de !! default "" (last (_split_path dest_path))).
Qed.

Lemma move_checks_only_the_parents_witness :
  (move "/f" "/g" "alice"
     (restamp (λ n, if is_directory n then n else mkNode "" "nobody" 0 (body n))
        fs_alice_f)).1
  = (move "/f" "/g" "alice" fs_alice_f).1.
Proof.
  apply (move_checks_only_the_parents
           (λ n, if is_directory n then n else mkNode "" "nobody" 0 (body n))
           fs_alice_f "/f" "/g" "alice").
  - intros n. by destruct (is_directory n).
  - intros path parent n Hpath Hp Hn.
    assert (parent = 1%positive) as ->
      by (destruct Hpath as [-> | ->]; vm_compute in Hp; congruence).
    assert (n = mkNode "/" "root" o777 (Directory {["f" := 2%positive]})) as ->
      by (vm_compute in Hn; vm_compute; congruence).
    done.
Defined.

(** X25. Reading asks for nothing but read permission on the node the
    path resolves to.  Whatever owner, mode and name the other nodes
    have, the directories on the way among them, [read_file] and
    [list_dir] return or raise the same. *)
Theorem read_checks_only_the_target (g : Node → Node) (fs : FileSystem)
    (path u : string) :
  (∀ n, body (g n) = body n) →
  (∀ l n, _get_node fs path = Ok l → heap fs !! l = Some n →
          owner (g n) = owner n ∧ mode (g n) = mode n) →
  (read_file path u (restamp g fs)).1 = (read_file path u fs).1
  ∧ (list_dir path u (restamp g fs)).1 = (list_dir path u fs).1.
Proof.
  intros Hg Htarget.
  assert (Hnode : _get_node (restamp g fs) path = _get_node fs path).
  { unfold _get_node. change (root (restamp g fs)) with (root fs).
    by apply walk_restamp. }
  split.
  - unfold read_file. rewrite Hnode.
    destruct (_get_node fs path) as [l|] eqn:Hl; [|done].
    cbn [restamp with_heap heap]. rewrite lookup_fmap.
    destruct (heap fs !! l) as [n|] eqn:Hn; [|done]. cbn [fmap option_fmap option_map].
    destruct (Htarget l n eq_refl Hn) as [Ho Hm].
    rewrite Hg, (denied_same n (g n) u r Ho Hm).
    destruct (body n); [|done]. by destruct (denied n u r).
  - unfold list_dir. rewrite !list_dir_shortcut, Hnode.
    destruct (_get_node fs path) as [l|] eqn:Hl; [|done].
    cbn [restamp with_heap heap]. rewrite lookup_fmap.
    destruct (heap fs !! l) as [n|] eqn:Hn; [|done]. cbn [fmap option_fmap option_map].
    destruct (Htarget l n eq_refl Hn) as [Ho Hm].
    rewrite Hg, (denied_same n (g n) u r Ho Hm).
    destruct (body n); [done|]. by destruct (denied n u r).
Qed.

Lemma read_checks_only_the_target_witness :
  (read_file "/f" "bob"
     (restamp (λ n, if is_directory n then mkNode "" "nobody" 0 (body n) else n)
        fs_alice_f)).1
  = (read_file "/f" "bob" fs_alice_f).1
  ∧ (list_dir "/f" "bob"
       (restamp (λ n, if is_directory n then mkNode "" "nobody" 0 (body n) else n)
          fs_alice_f)).1
    = (list_dir "/f" "bob" fs_alice_f).1.
Proof.
  apply (read_checks_only_the_target
           (λ n, if is_directory n then mkNode "" "nobody" 0 (body n) else n)
           fs_alice_f "/f" "bob").
  - intros n. by destruct (is_directory n).
  - intros l n Hl Hn.
    assert (l = 2%positive) as -> by (vm_compute in Hl; congruence).
    assert (n = mkNode "f" "alice" o644 (File hello)) as ->
      by (vm_compute in Hn; vm_compute; congruence).
    done.
Defined.
